(** * DataToolKit: the reconciliation engine ([src/recon_engine.py])

    A shallow embedding of [ReconEngine] and of the SQL statements it sends
    to its in-memory DuckDB connection, together with the properties of the
    engine that the specification states, and of the pure helpers of the
    tools around it: the filter list of the analysis tool, the detectors
    of the base tool and the type proposal of the cleaning tool.

    Modelling conventions.
    - A text value is a [string]; every [ascii] is one character.
    - The column types are VARCHAR, BOOLEAN and the numeric types; a date
      is kept as text, which is what the date cleaner leaves in a column.
    - A DOUBLE is an exact rational ([Q]); the rounding and the range of
      binary64 are not modelled, and neither are the range checks of the
      fixed-width integer types.  The text the database prints for a
      DOUBLE is a parameter of the connection.
    - SQL's NULL is [None] on scalars and [VNull] on cells; predicates are
      three-valued ([option bool]) and a WHERE clause or a CASE arm fires
      only on [Some true].
    - The catalog is a finite map from table names to tables.  Identifiers
      are compared exactly, and a name interpolated into a statement is
      taken to be an identifier.
    - The binder rules are those of DuckDB 0.10 and later: a function that
      expects VARCHAR rejects a column of another type, and a comparison
      needs operands of one type family.
    - The rows of a query result are listed in nested-loop order; the
      database promises no order, and no property below depends on one.
    - A method is a function from the engine to the engine it leaves and
      to either a value or the exception raised; statements that ran
      before an exception keep their effect. *)

From Stdlib Require Import ZArith QArith Qabs String Ascii List Bool Lia DecimalString.
From stdpp Require Import base option list gmap strings.

Local Open Scope string_scope.
Local Open Scope Z_scope.

(** ** Text functions of the SQL dialect *)

Module Text.

(** [s LIKE p]: [%] matches any run of characters, [_] exactly one; the
    dialect has no default escape character. *)
Fixpoint sql_like (p s : string) {struct p} : bool :=
  match p with
  | EmptyString => match s with EmptyString => true | String _ _ => false end
  | String c p' =>
      if Ascii.eqb c "%" then
        (fix star (t : string) : bool :=
           sql_like p' t
           || match t with
              | EmptyString => false
              | String _ t' => star t'
              end) s
      else
        match s with
        | EmptyString => false
        | String d s' => (Ascii.eqb c "_" || Ascii.eqb c d) && sql_like p' s'
        end
  end.

Definition mem_char (c : ascii) (cs : string) : bool :=
  existsb (Ascii.eqb c) (list_ascii_of_string cs).

Fixpoint ltrim_chars (cs s : string) : string :=
  match s with
  | EmptyString => EmptyString
  | String c s' => if mem_char c cs then ltrim_chars cs s' else s
  end.

Fixpoint rtrim_chars (cs s : string) : string :=
  match s with
  | EmptyString => EmptyString
  | String c s' =>
      match rtrim_chars cs s' with
      | EmptyString => if mem_char c cs then EmptyString else String c EmptyString
      | r => String c r
      end
  end.

(** [TRIM(BOTH cs FROM s)] *)
Definition trim_both (cs s : string) : string := rtrim_chars cs (ltrim_chars cs s).

(** [TRIM(s)]: blanks are removed on both sides. *)
Definition sql_trim (s : string) : string := trim_both " " s.

Fixpoint filter_chars (keep : ascii -> bool) (s : string) : string :=
  match s with
  | EmptyString => EmptyString
  | String c s' =>
      if keep c then String c (filter_chars keep s') else filter_chars keep s'
  end.

Definition is_digit (c : ascii) : bool :=
  let n := nat_of_ascii c in (48 <=? n)%nat && (n <=? 57)%nat.

(** The character class [[0-9.,-]]. *)
Definition amount_char (c : ascii) : bool :=
  is_digit c || Ascii.eqb c "." || Ascii.eqb c "," || Ascii.eqb c "-".

(** [regexp_replace(s, '[^0-9.,-]', '', 'g')] *)
Definition regexp_strip_non_amount (s : string) : string :=
  filter_chars amount_char s.

(** [REPLACE(s, ',', '')] *)
Definition replace_commas (s : string) : string :=
  filter_chars (fun c => negb (Ascii.eqb c ",")) s.

Fixpoint split_on (sep : ascii) (s : string) : list string :=
  match s with
  | EmptyString => [EmptyString]
  | String c s' =>
      if Ascii.eqb c sep then EmptyString :: split_on sep s'
      else
        match split_on sep s' with
        | x :: r => String c x :: r
        | [] => [String c EmptyString]
        end
  end.

(** [SPLIT_PART(s, sep, n)], [n] counted from 1; an index past the last
    part gives the empty text. *)
Definition split_part (s : string) (sep : ascii) (n : nat) : string :=
  nth (n - 1) (split_on sep s) EmptyString.

Fixpoint take_chars (n : nat) (s : string) : string :=
  match n, s with
  | O, _ => EmptyString
  | S _, EmptyString => EmptyString
  | S n', String c s' => String c (take_chars n' s')
  end.

Fixpoint repeat_char (c : ascii) (n : nat) : string :=
  match n with
  | O => EmptyString
  | S n' => String c (repeat_char c n')
  end.

(** [LPAD(s, n, c)]: pads on the left up to [n] characters and cuts a
    longer text down to its first [n]. *)
Definition lpad (s : string) (n : nat) (c : ascii) : string :=
  repeat_char c (n - String.length s) ++ take_chars n s.

Fixpoint count_char (c : ascii) (s : string) : nat :=
  match s with
  | EmptyString => O
  | String d s' => (if Ascii.eqb d c then 1 else 0) + count_char c s'
  end.

(** Reads a run of decimal digits: the number read on top of [acc], how
    many digits were read, and the rest of the text. *)
Fixpoint read_digits (s : string) (acc : Z) (cnt : nat) : Z * nat * string :=
  match s with
  | EmptyString => (acc, cnt, EmptyString)
  | String c s' =>
      if is_digit c
      then read_digits s' (10 * acc + Z.of_nat (nat_of_ascii c - 48)) (S cnt)
      else (acc, cnt, s)
  end.

(** [TRY_CAST(s AS DOUBLE)] on plain decimal notation: an optional minus
    sign, digits, optionally a point and more digits, at least one digit
    in all and nothing after it.  Exponents and the words for infinity and
    not-a-number cannot reach the cast from the amount cleaner, which
    strips every character outside [[0-9.,-]] first. *)
Definition try_cast_double (s : string) : option Q :=
  let '(neg, s1) :=
    match s with
    | String "-" r => (true, r)
    | _ => (false, s)
    end in
  let '(ip, ni, s2) := read_digits s1 0 0 in
  let '(m, nf, s3) :=
    match s2 with
    | String "." r => read_digits r ip 0
    | _ => (ip, O, s2)
    end in
  if ((ni + nf =? 0)%nat || negb (String.eqb s3 EmptyString))%bool then None
  else Some (Qred ((if neg then - m else m) # Z.to_pos (10 ^ Z.of_nat nf))).

Definition is_space (c : ascii) : bool :=
  let n := nat_of_ascii c in (n =? 32)%nat || ((9 <=? n)%nat && (n <=? 13)%nat).

Fixpoint ltrim_space (s : string) : string :=
  match s with
  | EmptyString => EmptyString
  | String c s' => if is_space c then ltrim_space s' else s
  end.

(** [TRY_CAST(s AS INTEGER)] on integer literals: blanks around an
    optional sign and decimal digits, within the 32-bit range.  The other
    spellings the dialect accepts (a fraction that is rounded, an
    exponent, a radix prefix) are outside this model and give NULL. *)
Definition try_cast_integer (s : string) : option Z :=
  let s0 := ltrim_space s in
  let '(neg, s1) :=
    match s0 with
    | String "-" r => (true, r)
    | String "+" r => (false, r)
    | _ => (false, s0)
    end in
  let '(m, n, s2) := read_digits s1 0 0 in
  let v := if neg then - m else m in
  if ((n =? 0)%nat || negb (String.eqb (ltrim_space s2) EmptyString))%bool then None
  else if (- 2147483648 <=? v) && (v <=? 2147483647) then Some v
  else None.

End Text.

(** ** Values, tables and the statements of the SQL dialect *)

Module Sql.

Inductive sqltype : Set :=
  | VARCHAR | DOUBLE | FLOAT | BIGINT | INTEGER | HUGEINT | BOOLEAN.

Definition sqltype_eqb (a b : sqltype) : bool :=
  match a, b with
  | VARCHAR, VARCHAR | DOUBLE, DOUBLE | FLOAT, FLOAT | BIGINT, BIGINT
  | INTEGER, INTEGER | HUGEINT, HUGEINT | BOOLEAN, BOOLEAN => true
  | _, _ => false
  end.

(** What [typeof] answers for a column of the type. *)
Definition type_name (t : sqltype) : string :=
  match t with
  | VARCHAR => "VARCHAR" | DOUBLE => "DOUBLE" | FLOAT => "FLOAT"
  | BIGINT => "BIGINT" | INTEGER => "INTEGER" | HUGEINT => "HUGEINT"
  | BOOLEAN => "BOOLEAN"
  end.

Definition is_numeric (t : sqltype) : bool :=
  match t with
  | VARCHAR | BOOLEAN => false
  | _ => true
  end.

(** Two columns can be compared when they have one type or are both
    numeric. *)
Definition comparable (a b : sqltype) : bool :=
  sqltype_eqb a b || (is_numeric a && is_numeric b).

(** The order in which a set operation widens two column types. *)
Definition type_rank (t : sqltype) : nat :=
  match t with
  | BOOLEAN => 0 | INTEGER => 1 | BIGINT => 2 | HUGEINT => 3
  | FLOAT => 4 | DOUBLE => 5 | VARCHAR => 6
  end%nat.

Definition unify_type (a b : sqltype) : sqltype :=
  if (type_rank a <? type_rank b)%nat then b else a.

Inductive value : Type :=
  | VNull
  | VText (s : string)
  | VInt (z : Z)
  | VReal (q : Q)
  | VBool (b : bool).

Abbreviation row := (list value).

Record table : Type := mkTable {
  columns : list (string * sqltype);
  rows : list row
}.

Definition column_names (t : table) : list string := map fst (columns t).

Fixpoint col_index (c : string) (cols : list (string * sqltype)) : option nat :=
  match cols with
  | [] => None
  | (n, _) :: cols' =>
      if String.eqb n c then Some O else option_map S (col_index c cols')
  end.

Definition col_type (c : string) (cols : list (string * sqltype)) : option sqltype :=
  match col_index c cols with
  | Some i => snd <$> cols !! i
  | None => None
  end.

Definition cell (i : nat) (r : row) : value := nth i r VNull.

(** The connection: its catalog and the text it prints for a DOUBLE, which
    the exact model of DOUBLE cannot compute. *)
Record connection : Type := mkConn {
  catalog : gmap string table;
  double_to_varchar : Q -> string
}.

(** What a call can raise: the engine's own [ValueError]s, Python's
    [TypeError], and an error of the database (its exception classes are
    not told apart).  [Unmodelled] marks the few statements whose outcome
    depends on a cast this model does not define. *)
Inductive error : Type :=
  | ValueError (msg : string)
  | SchemaMismatch (tbl : string) (missing extra : gset string)
  | TypeError
  | DuckDBError
  | Unmodelled.

Inductive result (A : Type) : Type :=
  | Ok (a : A)
  | Raise (e : error).
Arguments Ok {A} a.
Arguments Raise {A} e.

#[global] Instance result_ret : MRet result := fun A a => Ok a.
#[global] Instance result_bind : MBind result := fun A B f m =>
  match m with
  | Ok a => f a
  | Raise e => Raise e
  end.

Definition Z_to_string (z : Z) : string :=
  DecimalString.NilZero.string_of_int (Z.to_int z).

(** [CAST(v AS VARCHAR)] *)
Definition cast_varchar (render : Q -> string) (v : value) : option string :=
  match v with
  | VNull => None
  | VText s => Some s
  | VInt z => Some (Z_to_string z)
  | VReal q => Some (render q)
  | VBool b => Some (if b then "true" else "false")
  end.

Definition numeric_of (v : value) : option Q :=
  match v with
  | VInt z => Some (inject_Z z)
  | VReal q => Some q
  | VBool b => Some (inject_Z (if b then 1 else 0))
  | _ => None
  end.

(** The cast a set operation applies to a cell when it widens the column. *)
Definition cast_value (render : Q -> string) (t : sqltype) (v : value) : value :=
  match v with
  | VNull => VNull
  | _ =>
      match t with
      | VARCHAR => match cast_varchar render v with Some s => VText s | None => VNull end
      | DOUBLE | FLOAT => match numeric_of v with Some q => VReal q | None => VNull end
      | BIGINT | INTEGER | HUGEINT =>
          match v with
          | VBool b => VInt (if b then 1 else 0)
          | _ => v
          end
      | BOOLEAN => v
      end
  end.

(** Three-valued connectives. *)
Definition and3 (a b : option bool) : option bool :=
  match a, b with
  | Some false, _ | _, Some false => Some false
  | Some true, Some true => Some true
  | _, _ => None
  end.

Definition or3 (a b : option bool) : option bool :=
  match a, b with
  | Some true, _ | _, Some true => Some true
  | Some false, Some false => Some false
  | _, _ => None
  end.

Definition not3 (a : option bool) : option bool := option_map negb a.

Definition fires (a : option bool) : bool :=
  match a with Some true => true | _ => false end.

Fixpoint string_compare (a b : string) : comparison :=
  match a, b with
  | EmptyString, EmptyString => Eq
  | EmptyString, String _ _ => Lt
  | String _ _, EmptyString => Gt
  | String c a', String d b' =>
      match (nat_of_ascii c ?= nat_of_ascii d)%nat with
      | Eq => string_compare a' b'
      | o => o
      end
  end.

(** Comparison of two cells; NULL on either side gives NULL, and so does
    a pair of cells that no well-typed statement compares. *)
Definition sql_compare (a b : value) : option comparison :=
  match a, b with
  | VNull, _ | _, VNull => None
  | VText s, VText t => Some (string_compare s t)
  | VText _, _ | _, VText _ => None
  | _, _ =>
      match numeric_of a, numeric_of b with
      | Some p, Some q => Some (p ?= q)%Q
      | _, _ => None
      end
  end.

Definition sql_eq (a b : value) : option bool :=
  option_map (fun o => match o with Eq => true | _ => false end) (sql_compare a b).
Definition sql_ne (a b : value) : option bool := not3 (sql_eq a b).
Definition sql_lt (a b : value) : option bool :=
  option_map (fun o => match o with Lt => true | _ => false end) (sql_compare a b).
Definition sql_gt (a b : value) : option bool :=
  option_map (fun o => match o with Gt => true | _ => false end) (sql_compare a b).
Definition sql_le (a b : value) : option bool := not3 (sql_gt a b).
Definition sql_ge (a b : value) : option bool := not3 (sql_lt a b).

(** [a - b] and [ABS(a)] on numeric cells. *)
Definition sql_sub (a b : value) : value :=
  match a, b with
  | VInt x, VInt y => VInt (x - y)
  | _, _ =>
      match numeric_of a, numeric_of b with
      | Some p, Some q => VReal (Qred (p - q))
      | _, _ => VNull
      end
  end.

Definition sql_abs (a : value) : value :=
  match a with
  | VInt x => VInt (Z.abs x)
  | VReal q => VReal (Qabs q)
  | _ => VNull
  end.

Definition sql_is_null (a : value) : bool :=
  match a with VNull => true | _ => false end.

(** *** Statements *)

Definition lookup_table (c : connection) (t : string) : result table :=
  match catalog c !! t with
  | Some tb => Ok tb
  | None => Raise DuckDBError
  end.

Definition store_table (c : connection) (t : string) (tb : table) : connection :=
  mkConn (<[t := tb]> (catalog c)) (double_to_varchar c).

(** [ALTER TABLE t ADD COLUMN IF NOT EXISTS col ty] *)
Definition add_column_if_not_exists (t col : string) (ty : sqltype)
    (c : connection) : result connection :=
  match lookup_table c t with
  | Raise e => Raise e
  | Ok tb =>
      match col_index col (columns tb) with
      | Some _ => Ok c
      | None =>
          Ok (store_table c t
                (mkTable (columns tb ++ [(col, ty)])%list
                         (map (fun r => (r ++ [VNull])%list) (rows tb))))
      end
  end.

(** [UPDATE t SET col = e]: [bind] resolves [e] against the columns of the
    table and gives its type and its value on a row.  An expression of
    another type than the column would be cast on assignment; that cast is
    not modelled. *)
Definition update_set (t col : string)
    (bind : (Q -> string) -> list (string * sqltype) ->
            result (sqltype * (row -> value)))
    (c : connection) : result connection :=
  match lookup_table c t with
  | Raise e => Raise e
  | Ok tb =>
      match col_index col (columns tb), col_type col (columns tb) with
      | Some j, Some ty =>
          match bind (double_to_varchar c) (columns tb) with
          | Raise e => Raise e
          | Ok (ety, f) =>
              if sqltype_eqb ety ty then
                Ok (store_table c t
                      (mkTable (columns tb) (map (fun r => <[j := f r]> r) (rows tb))))
              else Raise Unmodelled
          end
      | _, _ => Raise DuckDBError
      end
  end.

(** [ALTER TABLE t DROP COLUMN col]; the last column of a table cannot be
    dropped. *)
Definition drop_column (t col : string) (c : connection) : result connection :=
  match lookup_table c t with
  | Raise e => Raise e
  | Ok tb =>
      match col_index col (columns tb) with
      | None => Raise DuckDBError
      | Some j =>
          if (length (columns tb) <=? 1)%nat then Raise DuckDBError
          else Ok (store_table c t
                     (mkTable (delete j (columns tb)) (map (delete j) (rows tb))))
      end
  end.

(** [ALTER TABLE t RENAME COLUMN old TO new] *)
Definition rename_column (t old new : string) (c : connection) : result connection :=
  match lookup_table c t with
  | Raise e => Raise e
  | Ok tb =>
      match col_index old (columns tb), col_type old (columns tb) with
      | Some j, Some ty =>
          match col_index new (columns tb) with
          | Some _ => Raise DuckDBError
          | None =>
              Ok (store_table c t (mkTable (<[j := (new, ty)]> (columns tb)) (rows tb)))
          end
      | _, _ => Raise DuckDBError
      end
  end.

(** [CREATE OR REPLACE TABLE t AS ...] once the query has been evaluated. *)
Definition create_or_replace (t : string) (tb : table) (c : connection) : connection :=
  store_table c t tb.

End Sql.

(** ** The engine *)

Import Text Sql.

(** [models.py] *)
Record ReconConfig : Type := mkReconConfig {
  source_a_path : string;
  source_b_path : string;
  output_dir : string;
  match_key : string;
  amount_tolerance : Q;
  date_col_a : string;
  date_col_b : string;
  amount_col_a : string;
  amount_col_b : string;
  description_col_a : option string;
  description_col_b : option string
}.

Record ReconSummary : Type := mkReconSummary {
  exact_matches : nat;
  matches_with_date_note : nat;
  amount_variances : nat;
  missing_in_b : nat;
  missing_in_a : nat
}.

Definition total_matched (s : ReconSummary) : nat :=
  (exact_matches s + matches_with_date_note s)%nat.

Definition total_unmatched (s : ReconSummary) : nat :=
  (amount_variances s + missing_in_b s + missing_in_a s)%nat.

Record ReconResult : Type := mkReconResult {
  config : ReconConfig;
  summary : ReconSummary
}.

(** [ReconEngine.__init__]: the connection and the two flags. *)
Record ReconEngine : Type := mkEngine {
  conn : connection;
  _source_a_loaded : bool;
  _source_b_loaded : bool
}.

(** A method of the engine: it may change the engine and either returns or
    raises.  What it changed before it raised stays changed. *)
Definition M (A : Type) : Type := ReconEngine -> ReconEngine * result A.

#[global] Instance M_ret : MRet M := fun A a e => (e, Ok a).
#[global] Instance M_bind : MBind M := fun A B f m e =>
  match m e with
  | (e', Ok a) => f a e'
  | (e', Raise err) => (e', Raise err)
  end.

Definition raise {A : Type} (err : error) : M A := fun e => (e, Raise err).

Definition self : M ReconEngine := fun e => (e, Ok e).

(** [self.conn.execute(stmt)] for a statement that writes. *)
Definition execute (stmt : connection -> result connection) : M unit := fun e =>
  match stmt (conn e) with
  | Ok c => (mkEngine c (_source_a_loaded e) (_source_b_loaded e), Ok tt)
  | Raise err => (e, Raise err)
  end.

(** [self.conn.execute(query).fetch...()] for a statement that reads. *)
Definition fetch {A : Type} (query : connection -> result A) : M A := fun e =>
  (e, query (conn e)).

(** [DESCRIBE t], first field of every line. *)
Definition get_columns (table_name : string) : M (list string) :=
  fetch (fun c => tb ← lookup_table c table_name; Ok (column_names tb)).

(** [SELECT COUNT( * ) FROM t] *)
Definition get_row_count (table_name : string) : M nat :=
  fetch (fun c => tb ← lookup_table c table_name; Ok (length (rows tb))).

Definition resolve (col : string) (cols : list (string * sqltype)) : result (nat * sqltype) :=
  match col_index col cols, col_type col cols with
  | Some i, Some ty => Ok (i, ty)
  | _, _ => Raise DuckDBError
  end.

(** *** Amount normalization *)

(** [SELECT typeof(col) FROM t LIMIT 1], fetched with [fetchone]. *)
Definition select_typeof_limit_1 (table_name column_name : string)
    (c : connection) : result (option string) :=
  tb ← lookup_table c table_name;
  '(_, ty) ← resolve column_name (columns tb);
  Ok (match rows tb with
      | [] => None
      | _ :: _ => Some (type_name ty)
      end).

(** The CASE expression of the UPDATE in [clean_amount_column], on the
    text of one cell. *)
Definition amount_case (x : option string) : option Q :=
  match x with
  | None => None
  | Some s =>
      if sql_like "(%)" (sql_trim s) then
        option_map (fun q => Qred (inject_Z (-1) * q))
          (try_cast_double
             (replace_commas
                (regexp_strip_non_amount (trim_both "()" (sql_trim s)))))
      else
        try_cast_double (replace_commas (regexp_strip_non_amount s))
  end.

Definition real_cell (x : option Q) : value :=
  match x with Some q => VReal q | None => VNull end.

Definition text_cell (x : option string) : value :=
  match x with Some s => VText s | None => VNull end.

(** [TRIM] takes VARCHAR only, so the column has to be one; the
    expression is a DOUBLE. *)
Definition bind_amount_case (render : Q -> string) (column_name : string)
    (cols : list (string * sqltype)) : result (sqltype * (row -> value)) :=
  '(i, ty) ← resolve column_name cols;
  if sqltype_eqb ty VARCHAR
  then Ok (DOUBLE, fun r => real_cell (amount_case (cast_varchar render (cell i r))))
  else Raise DuckDBError.

Definition numeric_type_names : list string :=
  ["DOUBLE"; "BIGINT"; "INTEGER"; "FLOAT"].

(** [col_type and col_type[0] in ('DOUBLE', 'BIGINT', 'INTEGER', 'FLOAT')] *)
Definition already_numeric (col_type : option string) : bool :=
  match col_type with
  | Some ty_name => existsb (String.eqb ty_name) numeric_type_names
  | None => false
  end.

Definition clean_amount_column (table_name column_name : string) : M nat :=
  col_type ← fetch (select_typeof_limit_1 table_name column_name);
  if already_numeric col_type then mret O
  else
    execute (add_column_if_not_exists table_name "_cleaned_amount" DOUBLE);;
    execute (update_set table_name "_cleaned_amount"
               (fun render => bind_amount_case render column_name));;
    execute (drop_column table_name column_name);;
    execute (rename_column table_name "_cleaned_amount" column_name);;
    get_row_count table_name.

(** *** Date normalization *)

(** [TRY_CAST(part AS INTEGER) > 12] *)
Definition gt_12 (part : string) : option bool :=
  option_map (fun n => 12 <? n) (try_cast_integer part).

(** The CASE expression of the UPDATE in [clean_date_column], on the text
    [CAST(col AS VARCHAR)] of one cell. *)
Definition date_case (x : option string) : option string :=
  match x with
  | None => None
  | Some s =>
      if sql_like "____-__-__" s then Some s
      else if sql_like "%/%/%" s then
        let part1 := split_part s "/" 1 in
        let part2 := split_part s "/" 2 in
        let part3 := split_part s "/" 3 in
        if fires (gt_12 part1)
        then Some (part3 ++ "-" ++ lpad part2 2 "0" ++ "-" ++ lpad part1 2 "0")
        else if fires (gt_12 part2)
        then Some (part3 ++ "-" ++ lpad part1 2 "0" ++ "-" ++ lpad part2 2 "0")
        else Some (part3 ++ "-" ++ lpad part2 2 "0" ++ "-" ++ lpad part1 2 "0")
      else Some s
  end.

Definition bind_date_case (render : Q -> string) (column_name : string)
    (cols : list (string * sqltype)) : result (sqltype * (row -> value)) :=
  '(i, _) ← resolve column_name cols;
  Ok (VARCHAR, fun r => text_cell (date_case (cast_varchar render (cell i r)))).

Definition clean_date_column (table_name column_name : string) : M nat :=
  execute (add_column_if_not_exists table_name "_cleaned_date" VARCHAR);;
  execute (update_set table_name "_cleaned_date"
             (fun render => bind_date_case render column_name));;
  execute (drop_column table_name column_name);;
  execute (rename_column table_name "_cleaned_date" column_name);;
  get_row_count table_name.

(** *** Reconciliation *)

(** [a.{desc} as description] when a description column is configured
    (and its name is not empty), [NULL as description] otherwise; a bare
    NULL makes an INTEGER column. *)
Definition desc_select (desc : option string) (cols : list (string * sqltype))
    : result (sqltype * (row -> value)) :=
  match desc with
  | Some (String c d) =>
      '(i, ty) ← resolve (String c d) cols;
      Ok (ty, fun r => cell i r)
  | _ => Ok (INTEGER, fun _ => VNull)
  end.

(** The columns the five statements refer to, resolved against the two
    sources. *)
Record bound_columns : Type := mkBound {
  key_a : nat; key_b : nat; key_ty : sqltype;
  dt_a : nat; dt_b : nat; dt_a_ty : sqltype; dt_b_ty : sqltype;
  amt_a : nat; amt_b : nat; amt_a_ty : sqltype; amt_b_ty : sqltype;
  dsc_a : row -> value; dsc_b : row -> value;
  dsc_a_ty : sqltype; dsc_b_ty : sqltype
}.

(** Binding of [... ON a.key = b.key]: the key exists on both sides and
    the two key columns can be compared. *)
Definition bind_key (cfg : ReconConfig) (A B : table) : result (nat * nat * sqltype) :=
  '(ka, tka) ← resolve (match_key cfg) (columns A);
  '(kb, tkb) ← resolve (match_key cfg) (columns B);
  if comparable tka tkb then Ok (ka, kb, tka) else Raise DuckDBError.

(** Binding of the select list and of the WHERE clause of the first three
    statements; [with_dates] tells whether the WHERE clause compares the
    dates. *)
Definition bind_matched (cfg : ReconConfig) (with_dates : bool) (A B : table)
    : result bound_columns :=
  '(ka, kb, tk) ← bind_key cfg A B;
  '(da, tda) ← resolve (date_col_a cfg) (columns A);
  '(db, tdb) ← resolve (date_col_b cfg) (columns B);
  '(aa, taa) ← resolve (amount_col_a cfg) (columns A);
  '(ab, tab) ← resolve (amount_col_b cfg) (columns B);
  '(tsa, fa) ← desc_select (description_col_a cfg) (columns A);
  '(tsb, fb) ← desc_select (description_col_b cfg) (columns B);
  if (negb with_dates || comparable tda tdb) && is_numeric taa && is_numeric tab
  then Ok (mkBound ka kb tk da db tda tdb aa ab taa tab fa fb tsa tsb)
  else Raise DuckDBError.

(** [FROM source_a a INNER JOIN source_b b ON a.key = b.key] *)
Definition inner_join (ka kb : nat) (A B : list row) : list (row * row) :=
  a ← A; b ← B;
  if fires (sql_eq (cell ka a) (cell kb b)) then [(a, b)] else [].

(** [FROM l LEFT JOIN r ON l.key = r.key]: a left row without a partner is
    paired with NULLs. *)
Definition left_join (kl kr : nat) (L R : list row) : list (row * option row) :=
  l ← L;
  match filter (fun r => fires (sql_eq (cell kl l) (cell kr r)) = true) R with
  | [] => [(l, None)]
  | rs => map (fun r => (l, Some r)) rs
  end.

(** [ABS(a.amount - b.amount)] *)
Definition variance (bc : bound_columns) (p : row * row) : value :=
  sql_abs (sql_sub (cell (amt_a bc) p.1) (cell (amt_b bc) p.2)).

Definition within_tolerance (tol : Q) (bc : bound_columns) (p : row * row) : option bool :=
  sql_le (variance bc p) (VReal tol).

Definition outside_tolerance (tol : Q) (bc : bound_columns) (p : row * row) : option bool :=
  sql_gt (variance bc p) (VReal tol).

Definition dates_equal (bc : bound_columns) (p : row * row) : option bool :=
  sql_eq (cell (dt_a bc) p.1) (cell (dt_b bc) p.2).

Definition dates_differ (bc : bound_columns) (p : row * row) : option bool :=
  sql_ne (cell (dt_a bc) p.1) (cell (dt_b bc) p.2).

(** The seven columns every one of the first three tables starts from. *)
Definition matched_columns (bc : bound_columns) : list (string * sqltype) :=
  [("match_key", key_ty bc); ("date_a", dt_a_ty bc); ("date_b", dt_b_ty bc);
   ("amount_a", amt_a_ty bc); ("amount_b", amt_b_ty bc)].

Definition desc_columns (bc : bound_columns) : list (string * sqltype) :=
  [("description_a", dsc_a_ty bc); ("description_b", dsc_b_ty bc)].

Definition matched_cells (bc : bound_columns) (p : row * row) : row :=
  [cell (key_a bc) p.1; cell (dt_a bc) p.1; cell (dt_b bc) p.2;
   cell (amt_a bc) p.1; cell (amt_b bc) p.2].

Definition desc_cells (bc : bound_columns) (p : row * row) : row :=
  [dsc_a bc p.1; dsc_b bc p.2].

Definition select_exact_matches (cfg : ReconConfig) (A B : table) : result table :=
  bc ← bind_matched cfg true A B;
  Ok (mkTable
        (matched_columns bc ++ desc_columns bc)%list
        (map (fun p => (matched_cells bc p ++ desc_cells bc p)%list)
           (filter (fun p => fires (and3 (dates_equal bc p)
                                      (within_tolerance (amount_tolerance cfg) bc p)) = true)
              (inner_join (key_a bc) (key_b bc) (rows A) (rows B))))).

Definition select_matches_with_date_note (cfg : ReconConfig) (A B : table) : result table :=
  bc ← bind_matched cfg true A B;
  Ok (mkTable
        (matched_columns bc ++ desc_columns bc ++ [("note", VARCHAR)])%list
        (map (fun p => (matched_cells bc p ++ desc_cells bc p ++ [VText "Date mismatch"])%list)
           (filter (fun p => fires (and3 (dates_differ bc p)
                                      (within_tolerance (amount_tolerance cfg) bc p)) = true)
              (inner_join (key_a bc) (key_b bc) (rows A) (rows B))))).

Definition select_amount_variances (cfg : ReconConfig) (A B : table) : result table :=
  bc ← bind_matched cfg false A B;
  Ok (mkTable
        (matched_columns bc
           ++ [("variance", unify_type (amt_a_ty bc) (amt_b_ty bc))]
           ++ desc_columns bc)%list
        (map (fun p => (matched_cells bc p ++ [variance bc p] ++ desc_cells bc p)%list)
           (filter (fun p => fires (outside_tolerance (amount_tolerance cfg) bc p) = true)
              (inner_join (key_a bc) (key_b bc) (rows A) (rows B))))).

(** [SELECT l.* FROM L l LEFT JOIN R r ON l.key = r.key WHERE r.key IS NULL] *)
Definition select_missing (cfg : ReconConfig) (L R : table) : result table :=
  '(kl, kr, _) ← bind_key cfg L R;
  Ok (mkTable (columns L)
        (map fst
           (filter (fun p : row * option row =>
                      sql_is_null (match p.2 with
                                   | Some r => cell kr r
                                   | None => VNull
                                   end) = true)
              (left_join kl kr (rows L) (rows R))))).

(** [CREATE OR REPLACE TABLE out AS SELECT ... FROM source_a ... source_b] *)
Definition create_table_from_sources (out : string)
    (select : table -> table -> result table) (c : connection) : result connection :=
  A ← lookup_table c "source_a";
  B ← lookup_table c "source_b";
  tb ← select A B;
  Ok (create_or_replace out tb c).

Definition reconcile (config : ReconConfig) : M ReconResult :=
  e ← self;
  if negb (_source_a_loaded e) || negb (_source_b_loaded e)
  then raise (ValueError "Both source files must be loaded before reconciliation")
  else
    execute (create_table_from_sources "exact_matches"
               (select_exact_matches config));;
    execute (create_table_from_sources "matches_with_date_note"
               (select_matches_with_date_note config));;
    execute (create_table_from_sources "amount_variances"
               (select_amount_variances config));;
    execute (create_table_from_sources "missing_in_b"
               (fun A B => select_missing config A B));;
    execute (create_table_from_sources "missing_in_a"
               (fun A B => select_missing config B A));;
    n1 ← get_row_count "exact_matches";
    n2 ← get_row_count "matches_with_date_note";
    n3 ← get_row_count "amount_variances";
    n4 ← get_row_count "missing_in_b";
    n5 ← get_row_count "missing_in_a";
    mret (mkReconResult config (mkReconSummary n1 n2 n3 n4 n5)).

(** *** Union *)

(** The loop of [union_tables] over [table_names[1:]]. *)
Fixpoint check_schemas (reference_cols : gset string) (tables : list string) : M unit :=
  match tables with
  | [] => mret tt
  | tbl :: tables' =>
      cols ← get_columns tbl;
      let current_cols : gset string := list_to_set cols in
      if decide (current_cols ≠ reference_cols)
      then raise (SchemaMismatch tbl (reference_cols ∖ current_cols)
                    (current_cols ∖ reference_cols))
      else check_schemas reference_cols tables'
  end.

(** [SELECT * FROM t1 UNION ALL SELECT * FROM t2 ...]: the operands need
    one number of columns; columns are matched by position, named after
    the first operand and widened to a common type. *)
Definition select_union_all (table_names : list string) (c : connection) : result table :=
  tbs ← mapM (lookup_table c) table_names;
  match tbs with
  | [] => Raise DuckDBError
  | tb0 :: rest =>
      if forallb (fun tb => (length (columns tb) =? length (columns tb0))%nat) rest
      then
        let tys := foldl (fun acc tb => zip_with unify_type acc (map snd (columns tb)))
                     (map snd (columns tb0)) rest in
        Ok (mkTable (zip (column_names tb0) tys)
              (tb ← tbs;
               map (fun r => zip_with (cast_value (double_to_varchar c)) tys r) (rows tb)))
      else Raise DuckDBError
  end.

Definition union_tables (table_names : list string) (output_table : string)
    (validate : bool) : M bool :=
  match table_names with
  | [] => raise (ValueError "No tables provided for union")
  | first :: rest =>
      (if validate && (1 <? length table_names)%nat then
         cols ← get_columns first;
         check_schemas (list_to_set cols) rest
       else mret tt);;
      execute (fun c => tb ← select_union_all table_names c;
                        Ok (create_or_replace output_table tb c));;
      mret true
  end.

(** *** Filter *)

(** The [value] of a condition: a scalar, or the two-element list that
    [between] takes. *)
Inductive operand : Type :=
  | Scalar (v : value)
  | Range (lo hi : value).

(** A condition dictionary; the key [operator] may be absent. *)
Record FilterCondition : Type := mkCond {
  cond_column : string;
  cond_operator : option string;
  cond_value : operand
}.

Inductive comparator : Set := CmpEq | CmpGt | CmpLt | CmpGe | CmpLe.

(** One element of [where_parts]; the question marks are filled from
    [params] by position. *)
Inductive where_part : Type :=
  | WBetween (col : string)
  | WCompare (op : comparator) (col : string)
  | WLike (col : string).

(** One element of [params]. *)
Inductive param : Type :=
  | PValue (v : value)
  | PList (lo hi : value).

Definition param_of (o : operand) : param :=
  match o with
  | Scalar v => PValue v
  | Range lo hi => PList lo hi
  end.

(** [params.extend(value)]: a list gives its elements, a text gives its
    characters, and any other scalar cannot be iterated. *)
Definition extend_params (o : operand) : result (list param) :=
  match o with
  | Range lo hi => Ok [PValue lo; PValue hi]
  | Scalar (VText s) =>
      Ok (map (fun ch => PValue (VText (String ch EmptyString))) (list_ascii_of_string s))
  | Scalar _ => Raise TypeError
  end.

(** [f'{value}'] where Python's rendering is modelled. *)
Definition py_str (o : operand) : result string :=
  match o with
  | Scalar (VText s) => Ok s
  | Scalar (VInt z) => Ok (Z_to_string z)
  | Scalar (VBool b) => Ok (if b then "True" else "False")
  | Scalar VNull => Ok "None"
  | _ => Raise Unmodelled
  end.

(** The loop of [filter_data] over [conditions]; an operator outside the
    seven adds nothing. *)
Fixpoint build_where (conditions : list FilterCondition)
    : result (list where_part * list param) :=
  match conditions with
  | [] => Ok ([], [])
  | cond :: conditions' =>
      let column := cond_column cond in
      let operator := default "equals" (cond_operator cond) in
      let value := cond_value cond in
      '(part, ps) ←
        (if String.eqb operator "between" then
           ps ← extend_params value; Ok ([WBetween column], ps)
         else if String.eqb operator "equals" then
           Ok ([WCompare CmpEq column], [param_of value])
         else if String.eqb operator "contains" then
           v ← py_str value;
           Ok ([WLike column], [PValue (VText ("%" ++ v ++ "%"))])
         else if String.eqb operator "gt" then
           Ok ([WCompare CmpGt column], [param_of value])
         else if String.eqb operator "lt" then
           Ok ([WCompare CmpLt column], [param_of value])
         else if String.eqb operator "gte" then
           Ok ([WCompare CmpGe column], [param_of value])
         else if String.eqb operator "lte" then
           Ok ([WCompare CmpLe column], [param_of value])
         else Ok ([], []));
      '(parts, params) ← build_where conditions';
      Ok ((part ++ parts)%list, (ps ++ params)%list)
  end.

Definition param_type (v : value) : option sqltype :=
  match v with
  | VNull => None
  | VText _ => Some VARCHAR
  | VInt _ => Some BIGINT
  | VReal _ => Some DOUBLE
  | VBool _ => Some BOOLEAN
  end.

(** A column is compared with a parameter of its own type family; what
    the database does with another parameter is not modelled. *)
Definition check_param (ty : sqltype) (v : value) : result unit :=
  match param_type v with
  | None => Ok tt
  | Some pty => if comparable ty pty then Ok tt else Raise Unmodelled
  end.

Definition compare_with (op : comparator) (a b : value) : option bool :=
  match op with
  | CmpEq => sql_eq a b
  | CmpGt => sql_gt a b
  | CmpLt => sql_lt a b
  | CmpGe => sql_ge a b
  | CmpLe => sql_le a b
  end.

(** [x LIKE p] on cells. *)
Definition like_cell (x p : value) : option bool :=
  match x, p with
  | VText s, VText pat => Some (sql_like pat s)
  | _, _ => None
  end.

(** Binds the predicates to the columns and fills in the parameters, left
    to right; the statement is refused when the parameters do not match
    the question marks. *)
Fixpoint bind_where (cols : list (string * sqltype)) (parts : list where_part)
    (params : list param) : result (list (row -> option bool)) :=
  match parts with
  | [] =>
      match params with
      | [] => Ok []
      | _ :: _ => Raise DuckDBError
      end
  | WBetween col :: parts' =>
      match params with
      | PValue lo :: PValue hi :: params' =>
          '(i, ty) ← resolve col cols;
          check_param ty lo;;
          check_param ty hi;;
          ps ← bind_where cols parts' params';
          Ok ((fun r => and3 (sql_ge (cell i r) lo) (sql_le (cell i r) hi)) :: ps)
      | _ => Raise DuckDBError
      end
  | WCompare op col :: parts' =>
      match params with
      | PValue v :: params' =>
          '(i, ty) ← resolve col cols;
          check_param ty v;;
          ps ← bind_where cols parts' params';
          Ok ((fun r => compare_with op (cell i r) v) :: ps)
      | _ => Raise DuckDBError
      end
  | WLike col :: parts' =>
      match params with
      | PValue v :: params' =>
          '(i, ty) ← resolve col cols;
          (if sqltype_eqb ty VARCHAR then Ok tt else Raise DuckDBError);;
          ps ← bind_where cols parts' params';
          Ok ((fun r => like_cell (cell i r) v) :: ps)
      | _ => Raise DuckDBError
      end
  end.

(** [separator.join(where_parts)] as a predicate.  With fewer than two
    parts the separator does not appear in the statement; otherwise it
    has to be one of the two connectives. *)
Definition join_where (combine_mode : string) (ps : list (row -> option bool))
    : result (row -> option bool) :=
  match ps with
  | [] => Raise DuckDBError
  | [p] => Ok p
  | p :: ps' =>
      if String.eqb combine_mode "OR"
      then Ok (fun r => foldl (fun acc q => or3 acc (q r)) (p r) ps')
      else if String.eqb combine_mode "AND"
      then Ok (fun r => foldl (fun acc q => and3 acc (q r)) (p r) ps')
      else Raise Unmodelled
  end.

Definition select_where (table_name : string) (parts : list where_part)
    (params : list param) (combine_mode : string) (c : connection) : result table :=
  tb ← lookup_table c table_name;
  ps ← bind_where (columns tb) parts params;
  pred ← join_where combine_mode ps;
  Ok (mkTable (columns tb) (filter (fun r => fires (pred r) = true) (rows tb))).

Definition filter_data (table_name : string) (conditions : list FilterCondition)
    (output_table : string) (combine_mode : string) : M nat :=
  match conditions with
  | [] =>
      execute (fun c => tb ← lookup_table c table_name;
                        Ok (create_or_replace output_table tb c));;
      get_row_count output_table
  | _ :: _ =>
      match build_where conditions with
      | Raise err => raise err
      | Ok (where_parts, params) =>
          execute (fun c => tb ← select_where table_name where_parts params combine_mode c;
                            Ok (create_or_replace output_table tb c));;
          get_row_count output_table
      end
  end.

(** *** Loading *)

(** The assignments to [_source_a_loaded] and [_source_b_loaded]. *)
Definition mark_loaded (table_name : string) : M unit := fun e =>
  (if String.eqb table_name "source_a"
   then mkEngine (conn e) true (_source_b_loaded e)
   else if String.eqb table_name "source_b"
   then mkEngine (conn e) (_source_a_loaded e) true
   else e, Ok tt).

(** [load_csv]: reading the file is outside the model; [parsed] is the
    table [read_csv_auto] makes of it. *)
Definition load_csv (parsed : table) (table_name : string) : M (list string) :=
  execute (fun c => Ok (create_or_replace table_name parsed c));;
  columns ← get_columns table_name;
  mark_loaded table_name;;
  mret columns.

(** [ReconEngine()]: an empty catalog, nothing loaded. *)
Definition new_engine (render : Q -> string) : ReconEngine :=
  mkEngine (mkConn ∅ render) false false.

(** ** Notions the properties are stated with *)

Definition table_of (e : ReconEngine) (name : string) : option table :=
  catalog (conn e) !! name.

Definition row_count_of (e : ReconEngine) (name : string) : option nat :=
  (fun tb => length (rows tb)) <$> table_of e name.

Definition conn_row_count (c : connection) (name : string) : option nat :=
  (fun tb => length (rows tb)) <$> catalog c !! name.

(** The set of column names of a table of the catalog. *)
Definition column_set (e : ReconEngine) (name : string) : gset string :=
  match table_of e name with
  | Some tb => list_to_set (column_names tb)
  | None => ∅
  end.

(** The five tables [reconcile] writes. *)
Definition result_tables : list string :=
  ["exact_matches"; "matches_with_date_note"; "amount_variances";
   "missing_in_b"; "missing_in_a"].

(** [v] occurs in [s] as a run of consecutive characters. *)
Definition is_substring (v s : string) : Prop :=
  exists pre post, s = pre ++ v ++ post.

Definition iso_date_pattern : string := "____-__-__".

(** The text is split by slashes into exactly three parts. *)
Definition three_slash_parts (s : string) : Prop :=
  length (split_on "/" s) = 3%nat.

(** The text the amount cleaner hands to the cast. *)
Definition cleaned_amount_text (s : string) : string :=
  if sql_like "(%)" (sql_trim s)
  then replace_commas (regexp_strip_non_amount (trim_both "()" (sql_trim s)))
  else replace_commas (regexp_strip_non_amount s).

(** Whether [clean_amount_column] returns early on the column. *)
Definition detected_numeric (e : ReconEngine) (table_name column_name : string) : bool :=
  match select_typeof_limit_1 table_name column_name (conn e) with
  | Ok ty => already_numeric ty
  | Raise _ => false
  end.

(** The stored cells of a column. *)
Definition column_cells (e : ReconEngine) (table_name column_name : string)
    : option (list value) :=
  match table_of e table_name with
  | Some tb =>
      match col_index column_name (columns tb) with
      | Some i => Some (map (cell i) (rows tb))
      | None => None
      end
  | None => None
  end.

Definition no_render : Q -> string := fun _ => EmptyString.

(** Whether [v] occurs in [s], computed. *)
Fixpoint contains_sub (v s : string) : bool :=
  String.prefix v s
  || match s with
     | EmptyString => false
     | String _ s' => contains_sub v s'
     end.

(** The operand holds none of the two wildcards of LIKE. *)
Definition wildcard_free (v : string) : Prop :=
  count_char "%" v = O /\ count_char "_" v = O.

(** The condition [{'column': col, 'operator': 'contains', 'value': v}]. *)
Definition contains_condition (col v : string) : FilterCondition :=
  mkCond col (Some "contains") (Scalar (VText v)).

(** A table as the database keeps it: no two columns share a name and
    every row has one cell per column. *)
Definition well_formed (tb : table) : Prop :=
  NoDup (column_names tb)
  /\ Forall (fun r : row => length r = length (columns tb)) (rows tb).

(** The value [clean_date_column] stores for a cell, and the one
    [clean_amount_column] stores. *)
Definition date_cell (render : Q -> string) (v : value) : value :=
  text_cell (date_case (cast_varchar render v)).

Definition amount_cell (render : Q -> string) (v : value) : value :=
  real_cell (amount_case (cast_varchar render v)).

(** The table a cleaning pass leaves: column [i] is gone and a column of
    the same name and of type [ty] stands at the end, holding [g] of the
    old cells. *)
Definition cleaned_table (tb : table) (i : nat) (col : string) (ty : sqltype)
    (g : value -> value) : table :=
  mkTable (delete i (columns tb) ++ [(col, ty)])%list
          (map (fun r => (delete i r ++ [g (cell i r)])%list) (rows tb)).

(** The engine with one table written. *)
Definition with_table (e : ReconEngine) (t : string) (tb : table) : ReconEngine :=
  mkEngine (store_table (conn e) t tb) (_source_a_loaded e) (_source_b_loaded e).

(** The rows of [L] whose key equals the key of no row of [R]. *)
Definition unmatched (kl kr : nat) (L R : list row) : list row :=
  filter (fun l => Forall (fun r => fires (sql_eq (cell kl l) (cell kr r)) = false) R) L.

(** ** The statements the code does not meet, as the specification words them *)

(** Date normalization passes through every text that neither matches the
    canonical pattern nor splits by slashes into exactly three parts. *)
Definition passes_through_unless_three_parts : Prop :=
  forall s : string,
    sql_like iso_date_pattern s = false ->
    ~ three_slash_parts s ->
    date_case (Some s) = Some s.

(** Amount normalization leaves every column of a numeric type alone and
    reports no row. *)
Definition noop_on_every_numeric_column : Prop :=
  forall (e : ReconEngine) (table_name column_name : string) (tb : table) (ty : sqltype),
    table_of e table_name = Some tb ->
    col_type column_name (columns tb) = Some ty ->
    is_numeric ty = true ->
    clean_amount_column table_name column_name e = (e, Ok O).

(** ** Sample data *)

Definition text_table (col : string) (vals : list string) : table :=
  mkTable [(col, VARCHAR)] (map (fun s => [VText s]) vals).

(** An engine holding the table [name] only. *)
Definition engine_with (name : string) (tb : table) : ReconEngine :=
  (load_csv tb name (new_engine no_render)).1.

Definition sample_dates : list string :=
  ["2024-03-05"; "25/03/2024"; "03/25/2024"; "03/04/2024"; "5/3/2024"].

Definition sample_amounts : list string :=
  ["$1,234.56"; "(100)"; "  42 "; "n/a"].

(** A table such as [aggregate_data] leaves behind: the sum of a BIGINT
    column is a HUGEINT. *)
Definition aggregated_table : table :=
  mkTable [("region", VARCHAR); ("record_count", BIGINT); ("total_amount", HUGEINT)]
          [[VText "north"; VInt 2; VInt 300]].

Definition ledger_columns : list (string * sqltype) :=
  [("id", BIGINT); ("date", VARCHAR); ("amount", DOUBLE)].

(** Two sources whose keys all join, with a NULL date on one side of the
    first pair and a NULL amount on one side of the second. *)
Definition ledger_a_nulls : table :=
  mkTable ledger_columns
    [[VInt 1; VNull; VReal 100]; [VInt 2; VText "2024-01-01"; VNull]].

Definition ledger_b_nulls : table :=
  mkTable ledger_columns
    [[VInt 1; VText "2024-01-01"; VReal 100]; [VInt 2; VText "2024-01-01"; VReal 50]].

Definition ledger_a : table :=
  mkTable ledger_columns
    [[VInt 1; VText "2024-01-01"; VReal 100]; [VInt 2; VText "2024-01-05"; VReal 7]].

Definition ledger_b : table :=
  mkTable ledger_columns [[VInt 1; VText "2024-01-02"; VReal 100]].

Definition both_loaded (A B : table) : ReconEngine :=
  (load_csv B "source_b" (load_csv A "source_a" (new_engine no_render)).1).1.

Definition ledger_config : ReconConfig :=
  mkReconConfig "a.csv" "b.csv" "out" "id" 0 "date" "date" "amount" "amount" None None.

Definition names_table : table := text_table "name" ["abc"; "a_c"; "xyz"].

Definition other_schema : table :=
  mkTable [("id", BIGINT); ("date", VARCHAR); ("memo", VARCHAR)] [[VInt 9; VNull; VNull]].

Definition three_tables : ReconEngine :=
  (load_csv other_schema "t3"
     (load_csv ledger_b "t2" (load_csv ledger_a "t1" (new_engine no_render)).1).1).1.

(** The condition [{'column': col, 'operator': 'between', 'value': [lo, hi]}]
    with integer bounds. *)
Definition between_condition (col : string) (lo hi : Z) : FilterCondition :=
  mkCond col (Some "between") (Range (VInt lo) (VInt hi)).

(** The cell is a text in which [v] occurs. *)
Definition cell_contains (v : string) (x : value) : bool :=
  match x with
  | VText s => contains_sub v s
  | _ => false
  end.
(** ** Further methods *)

(** [str.lower()] and SQL's [LOWER] on one character: the capital letters
    of ASCII and of Latin-1 (all of 0xC0..0xDE but the multiplication
    sign) move up by 32, every other character stays. *)
Definition lower_char (c : ascii) : ascii :=
  let n := nat_of_ascii c in
  if ((65 <=? n) && (n <=? 90) || (192 <=? n) && (n <=? 222) && negb (n =? 215))%nat
  then ascii_of_nat (n + 32)
  else c.

Fixpoint lower (s : string) : string :=
  match s with
  | EmptyString => EmptyString
  | String c s' => String (lower_char c) (lower s')
  end.

(** *** [detect_column] *)

(** The inner loop of [detect_column]: some pattern, lowered, occurs in
    the lowered column name. *)
Fixpoint any_pattern_in (patterns : list string) (col_lower : string) : bool :=
  match patterns with
  | [] => false
  | pattern :: patterns' =>
      if contains_sub (lower pattern) col_lower then true
      else any_pattern_in patterns' col_lower
  end.

(** The outer loop: the first column, in the order of the table, for
    which the inner loop finds a pattern. *)
Fixpoint first_matching_column (columns patterns : list string) : option string :=
  match columns with
  | [] => None
  | col :: columns' =>
      if any_pattern_in patterns (lower col) then Some col
      else first_matching_column columns' patterns
  end.

Definition detect_column (table_name : string) (patterns : list string)
    : M (option string) :=
  columns ← get_columns table_name;
  mret (first_matching_column columns patterns).

(** [base_tool.py]: the patterns of the tools and the detectors that use
    them (with the shared engine present). *)
Definition date_patterns : list string :=
  ["date"; "dt"; "trans_date"; "posting"; "created"; "updated"].

Definition amount_patterns : list string :=
  ["amount"; "amt"; "value"; "total"; "sum"; "price"; "cost"].

Definition desc_patterns : list string :=
  ["description"; "desc"; "narration"; "memo"; "reference"; "note"].

Definition detect_date_column (table_name : string) : M (option string) :=
  detect_column table_name date_patterns.

Definition detect_amount_column (table_name : string) : M (option string) :=
  detect_column table_name amount_patterns.

Definition detect_description_column (table_name : string) : M (option string) :=
  detect_column table_name desc_patterns.

(** [data_cleaner.py], [_guess_type]: the patterns are tested as they
    are, against the lowered name. *)
Definition _guess_type (col_name db_type : string) : string :=
  let col_lower := lower col_name in
  if existsb (fun pattern => contains_sub pattern col_lower) date_patterns then "Date"
  else if existsb (fun pattern => contains_sub pattern col_lower) amount_patterns
  then "Number"
  else if existsb (String.eqb db_type) ["DOUBLE"; "FLOAT"; "INTEGER"; "BIGINT"; "DECIMAL"]
  then "Number"
  else if String.eqb db_type "BOOLEAN" then "Boolean"
  else if existsb (String.eqb db_type) ["DATE"; "TIMESTAMP"] then "Date"
  else "Text".

(** *** [clean_boolean_column] *)

Definition true_words : list string := ["true"; "yes"; "y"; "1"; "t"].
Definition false_words : list string := ["false"; "no"; "n"; "0"; "f"].

(** The CASE expression of the UPDATE in [clean_boolean_column], on the
    text [CAST(col AS VARCHAR)] of one cell; [x IN (...)] is NULL on a
    NULL [x], so neither arm fires. *)
Definition bool_case (x : option string) : option bool :=
  match x with
  | None => None
  | Some s =>
      let word := lower (sql_trim s) in
      if existsb (String.eqb word) true_words then Some true
      else if existsb (String.eqb word) false_words then Some false
      else None
  end.

Definition bool_cell (x : option bool) : value :=
  match x with Some b => VBool b | None => VNull end.

Definition bind_bool_case (render : Q -> string) (column_name : string)
    (cols : list (string * sqltype)) : result (sqltype * (row -> value)) :=
  '(i, _) ← resolve column_name cols;
  Ok (BOOLEAN, fun r => bool_cell (bool_case (cast_varchar render (cell i r)))).

Definition clean_boolean_column (table_name column_name : string) : M nat :=
  execute (add_column_if_not_exists table_name "_cleaned_bool" BOOLEAN);;
  execute (update_set table_name "_cleaned_bool"
             (fun render => bind_bool_case render column_name));;
  execute (drop_column table_name column_name);;
  execute (rename_column table_name "_cleaned_bool" column_name);;
  get_row_count table_name.

(** *** [transform_column] *)

(** [CAST(col AS VARCHAR)] as the expression of an UPDATE. *)
Definition bind_cast_varchar (render : Q -> string) (column : string)
    (cols : list (string * sqltype)) : result (sqltype * (row -> value)) :=
  '(i, _) ← resolve column cols;
  Ok (VARCHAR, fun r => text_cell (cast_varchar render (cell i r))).

(** The argument [format_str] is not used by the method. *)
Definition transform_column (table_name column target_type : string) : M nat :=
  if String.eqb target_type "number" then clean_amount_column table_name column
  else if String.eqb target_type "date" then clean_date_column table_name column
  else if String.eqb target_type "boolean" then clean_boolean_column table_name column
  else if String.eqb target_type "text" then
    execute (add_column_if_not_exists table_name "_temp_text" VARCHAR);;
    execute (update_set table_name "_temp_text"
               (fun render => bind_cast_varchar render column));;
    execute (drop_column table_name column);;
    execute (rename_column table_name "_temp_text" column);;
    get_row_count table_name
  else mret O.

(** *** [select_columns] *)

(** [SELECT "c1", ..., "cn" FROM t]: an empty select list does not parse;
    what CREATE TABLE AS makes of a column selected twice is not
    modelled. *)
Definition select_list (cols : list string) (tb : table) : result table :=
  match cols with
  | [] => Raise DuckDBError
  | _ :: _ =>
      bound ← mapM (fun col => resolve col (columns tb)) cols;
      if decide (NoDup cols)
      then Ok (mkTable (zip cols (map snd bound))
                 (map (fun r => map (fun b : nat * sqltype => cell b.1 r) bound) (rows tb)))
      else Raise Unmodelled
  end.

Definition select_columns (table_name : string) (cols : list string)
    (output_table : string) : M nat :=
  execute (fun c => tb ← lookup_table c table_name;
                    out ← select_list cols tb;
                    Ok (create_or_replace output_table out c));;
  get_row_count output_table.

(** *** The filters of the analysis tool ([data_analyzer.py]) *)

(** [max_val] defaults to [None]. *)
Record FilterRange : Type := mkFilterRange {
  filter_type : string;
  column : string;
  min_val : value;
  max_val : value
}.

Definition to_condition (f : FilterRange) : FilterCondition :=
  if String.eqb (filter_type f) "text"
  then mkCond (column f) (Some "contains") (Scalar (min_val f))
  else mkCond (column f) (Some "between") (Range (min_val f) (max_val f)).

Record FilterManager : Type := mkFilterManager {
  filters : list FilterRange;
  combine_mode : string
}.

(** [FilterManager()] *)
Definition new_filter_manager : FilterManager := mkFilterManager [] "OR".

Definition add_filter (filter_range : FilterRange) (m : FilterManager) : FilterManager :=
  mkFilterManager (filters m ++ [filter_range])%list (combine_mode m).

(** [if 0 <= index < len(self.filters): del self.filters[index]] *)
Definition remove_filter (index : Z) (m : FilterManager) : FilterManager :=
  if (0 <=? index) && (index <? Z.of_nat (length (filters m)))
  then mkFilterManager (delete (Z.to_nat index) (filters m)) (combine_mode m)
  else m.

Definition clear (m : FilterManager) : FilterManager :=
  mkFilterManager [] (combine_mode m).

Definition get_conditions (m : FilterManager) : list FilterCondition :=
  map to_condition (filters m).

(** A column of flags as a file may spell them. *)
Definition flags_table : table :=
  text_table "active" [" Yes "; "N"; "maybe"; "TRUE"; "0"].

(** The cells and the type of every column but [col] are the same in
    table [t] of the two engines. *)
Definition same_other_columns (e e' : ReconEngine) (t col : string) : Prop :=
  forall c, c <> col ->
    column_cells e' t c = column_cells e t c
    /\ (col_type c <$> (columns <$> table_of e' t))
       = (col_type c <$> (columns <$> table_of e t)).

(** The value [clean_boolean_column] stores for a cell, and the one
    [transform_column] stores when the target is text. *)
Definition boolean_cell (render : Q -> string) (v : value) : value :=
  bool_cell (bool_case (cast_varchar render v)).

Definition varchar_cell (render : Q -> string) (v : value) : value :=
  text_cell (cast_varchar render v).

(** What a cleaning of column [col] (at index [i] of [tb]) in table [t]
    leaves of everything else: the other columns, the names with [col]
    moved to the end, the set of names, and the other tables. *)
Definition cleaning_frame (e e1 : ReconEngine) (t col : string) (tb : table) (i : nat)
    : Prop :=
  same_other_columns e e1 t col
  /\ get_columns t e1 = (e1, Ok (delete i (column_names tb) ++ [col])%list)
  /\ column_set e1 t = column_set e t
  /\ (forall n, n <> t -> table_of e1 n = table_of e n).

(** The second ledger with its columns in another order. *)
Definition ledger_b_reordered : table :=
  mkTable [("id", BIGINT); ("amount", DOUBLE); ("date", VARCHAR)]
          (map (fun r => [cell 0 r; cell 2 r; cell 1 r]) (rows ledger_b)).

(** *** [aggregate_data] *)

(** [GROUP BY] keeps two rows in one group when their keys are not
    distinct; NULL is not distinct from NULL. *)
Definition not_distinct (a b : value) : bool :=
  match a, b with
  | VNull, VNull => true
  | _, _ => fires (sql_eq a b)
  end.

Fixpoint same_key (k k' : list value) : bool :=
  match k, k' with
  | [], [] => true
  | a :: k1, b :: k1' => not_distinct a b && same_key k1 k1'
  | _, _ => false
  end.

(** The groups in the order in which their first row comes, each with
    its rows in the order of the table. *)
Fixpoint add_to_groups (k : list value) (r : row) (groups : list (list value * list row))
    : list (list value * list row) :=
  match groups with
  | [] => [(k, [r])]
  | (k', rs) :: groups' =>
      if same_key k' k then (k', (rs ++ [r])%list) :: groups'
      else (k', rs) :: add_to_groups k r groups'
  end.

Definition group_rows (key : row -> list value) (rs : list row)
    : list (list value * list row) :=
  foldl (fun groups r => add_to_groups (key r) r groups) [] rs.

(** The type of [SUM(col)]: the integer types sum to HUGEINT, the
    floating-point types to DOUBLE, text has no sum; the sum of a
    BOOLEAN column is not modelled. *)
Definition sum_type (ty : sqltype) : result sqltype :=
  match ty with
  | BIGINT | INTEGER | HUGEINT => Ok HUGEINT
  | DOUBLE | FLOAT => Ok DOUBLE
  | VARCHAR => Raise DuckDBError
  | BOOLEAN => Raise Unmodelled
  end.

Definition integer_of (v : value) : option Z :=
  match v with VInt z => Some z | _ => None end.

(** [SUM] skips NULL and is NULL when nothing is left. *)
Definition sum_cells (sty : sqltype) (vs : list value) : value :=
  match sty with
  | HUGEINT =>
      match omap integer_of vs with
      | [] => VNull
      | zs => VInt (foldr Z.add 0 zs)
      end
  | _ =>
      match omap numeric_of vs with
      | [] => VNull
      | qs => VReal (Qred (foldr Qplus 0%Q qs))
      end
  end.

(** The clauses the aggregation tool passes as [order_by]
    ([data_aggregator.py], [_run_aggregation]); any other clause is not
    modelled. *)
Inductive ordering : Type :=
  | TotalAmountDesc
  | RecordCountDesc
  | GroupColumnAsc (k : nat).

Definition double_quote : string := String (ascii_of_nat 34) EmptyString.

Fixpoint position_of (order_by : string) (group_cols : list string) : option nat :=
  match group_cols with
  | [] => None
  | col :: group_cols' =>
      if String.eqb order_by (double_quote ++ col ++ double_quote ++ " ASC") then Some O
      else option_map S (position_of order_by group_cols')
  end.

Definition parse_order_by (order_by : string) (group_cols : list string)
    : result ordering :=
  if String.eqb order_by "total_amount DESC" then Ok TotalAmountDesc
  else if String.eqb order_by "record_count DESC" then Ok RecordCountDesc
  else match position_of order_by group_cols with
       | Some k => Ok (GroupColumnAsc k)
       | None => Raise Unmodelled
       end.

(** NULL sorts last in either direction. *)
Definition before_asc (a b : value) : bool :=
  match a, b with
  | _, VNull => true
  | VNull, _ => false
  | _, _ => fires (sql_le a b)
  end.

Definition before_desc (a b : value) : bool :=
  match a, b with
  | _, VNull => true
  | VNull, _ => false
  | _, _ => fires (sql_ge a b)
  end.

(** The order of two rows of the aggregate, whose first [width] cells
    are the key, followed by the count and the total. *)
Definition comes_before (ord : ordering) (width : nat) (r r' : row) : bool :=
  match ord with
  | TotalAmountDesc => before_desc (cell (S width) r) (cell (S width) r')
  | RecordCountDesc => before_desc (cell width r) (cell width r')
  | GroupColumnAsc k => before_asc (cell k r) (cell k r')
  end.

Fixpoint insert_by (le : row -> row -> bool) (x : row) (l : list row) : list row :=
  match l with
  | [] => [x]
  | y :: l' => if le x y then x :: l else y :: insert_by le x l'
  end.

(** [ORDER BY]; rows that the clause does not tell apart stay in the
    order of the groups, where the database promises none. *)
Definition sort_by (le : row -> row -> bool) (l : list row) : list row :=
  foldr (insert_by le) [] l.

(** [SELECT g1, ..., gn, COUNT( * ) as record_count, SUM(col) as
    total_amount FROM t GROUP BY g1, ..., gn ORDER BY ...].  An empty
    list of group columns does not parse.  What the statement means when
    a name occurs twice among the output columns, or when the source has
    a column called like one of the two aggregates, is not modelled. *)
Definition select_grouped (table_name : string) (group_cols : list string)
    (sum_col order_by : string) (c : connection) : result table :=
  tb ← lookup_table c table_name;
  match group_cols with
  | [] => Raise DuckDBError
  | _ :: _ =>
      bound ← mapM (fun col => resolve col (columns tb)) group_cols;
      '(j, ty) ← resolve sum_col (columns tb);
      sty ← sum_type ty;
      ord ← parse_order_by order_by group_cols;
      if decide (NoDup (group_cols ++ ["record_count"; "total_amount"])%list
                 /\ ("record_count" ∉ column_names tb)
                 /\ ("total_amount" ∉ column_names tb))
      then
        let key := fun r : row => map (fun b : nat * sqltype => cell b.1 r) bound in
        let width := length group_cols in
        Ok (mkTable
              (zip group_cols (map snd bound)
               ++ [("record_count", BIGINT); ("total_amount", sty)])%list
              (sort_by (comes_before ord width)
                 (map (fun g : list value * list row =>
                         (g.1 ++ [VInt (Z.of_nat (length g.2));
                                  sum_cells sty (map (cell j) g.2)])%list)
                    (group_rows key (rows tb)))))
      else Raise Unmodelled
  end.

(** [SELECT COUNT( * ), SUM(col) FROM t], fetched with [fetchone]. *)
Definition select_count_sum (table_name sum_col : string) (c : connection)
    : result (nat * value) :=
  tb ← lookup_table c table_name;
  '(j, ty) ← resolve sum_col (columns tb);
  sty ← sum_type ty;
  Ok (length (rows tb), sum_cells sty (map (cell j) (rows tb))).

(** The dictionary [aggregate_data] returns. *)
Record AggregateResult : Type := mkAggregateResult {
  row_count : nat;
  grand_total : value;
  total_records : nat
}.

Definition aggregate_data (table_name : string) (group_cols : list string)
    (sum_col output_table order_by : string) : M AggregateResult :=
  execute (fun c => out ← select_grouped table_name group_cols sum_col order_by c;
                    Ok (create_or_replace output_table out c));;
  grand_total ← fetch (select_count_sum table_name sum_col);
  row_count ← get_row_count output_table;
  mret (mkAggregateResult row_count grand_total.2 grand_total.1).

(** The count and the total in a row of an aggregate over [width] group
    columns; a NULL total counts as nothing. *)
Definition record_count_of (width : nat) (r : row) : nat :=
  match cell width r with
  | VInt z => Z.to_nat z
  | _ => O
  end.

Definition total_amount_of (width : nat) (r : row) : Z :=
  match cell (S width) r with
  | VInt z => z
  | _ => 0
  end.

(** The sum of the integer cells of a list. *)
Definition integer_total (vs : list value) : Z :=
  foldr Z.add 0 (omap integer_of vs).

(** The weight of a list of rows and of a list of groups, for a weight
    [w] of one row. *)
Definition weight (w : row -> Z) (rs : list row) : Z := foldr Z.add 0 (map w rs).

Definition groups_weight (w : row -> Z) (gs : list (list value * list row)) : Z :=
  foldr Z.add 0 (map (fun g : list value * list row => weight w g.2) gs).

(** Sales by region, one amount missing. *)
Definition sales_table : table :=
  mkTable [("region", VARCHAR); ("amount", BIGINT)]
    [[VText "north"; VInt 5]; [VText "south"; VInt 7];
     [VText "north"; VNull]; [VNull; VInt 2]; [VText "north"; VInt 3]; [VNull; VInt 1]].

(** The condition [{'column': col, 'operator': op, 'value': v}] with an
    integer operand. *)
Definition compare_condition (op col : string) (v : Z) : FilterCondition :=
  mkCond col (Some op) (Scalar (VInt v)).

(** The operators [filter_data] knows. *)
Definition known_operators : list string :=
  ["between"; "equals"; "contains"; "gt"; "lt"; "gte"; "lte"].

(** ** Properties of the text functions *)

Section TextFacts.

Import Text.

Lemma like_percent (p s : string) :
  sql_like (String "%" p) s
  = sql_like p s
    || match s with
       | EmptyString => false
       | String _ t => sql_like (String "%" p) t
       end.
Proof. destruct s; reflexivity. Qed.

Lemma like_any (s : string) : sql_like "%" s = true.
Proof.
  induction s as [|c s IH]; [reflexivity|].
  rewrite like_percent, IH. apply orb_true_r.
Qed.

Lemma like_slash_any (s : string) :
  sql_like "/%" s
  = match s with
    | EmptyString => false
    | String c _ => Ascii.eqb c "/"
    end.
Proof.
  destruct s as [|c s]; [reflexivity|].
  change (sql_like "/%" (String c s))
    with ((Ascii.eqb "/" "_" || Ascii.eqb "/" c) && sql_like "%" s).
  rewrite like_any, andb_true_r. cbn [orb]. 
  change (Ascii.eqb "/" "_") with false. cbn [orb]. apply Ascii.eqb_sym.
Qed.

Lemma like_has_slash (s : string) :
  sql_like "%/%" s = (1 <=? count_char "/" s)%nat.
Proof.
  induction s as [|c s IH]; [reflexivity|].
  rewrite like_percent, IH, like_slash_any. cbn [count_char].
  destruct (Ascii.eqb c "/"); [reflexivity|]. reflexivity.
Qed.

Lemma like_slash_has_slash (s : string) :
  sql_like "/%/%" s
  = match s with
    | EmptyString => false
    | String c t => Ascii.eqb c "/" && (1 <=? count_char "/" t)%nat
    end.
Proof.
  destruct s as [|c s]; [reflexivity|].
  change (sql_like "/%/%" (String c s))
    with ((Ascii.eqb "/" "_" || Ascii.eqb "/" c) && sql_like "%/%" s).
  rewrite like_has_slash. change (Ascii.eqb "/" "_") with false. cbn [orb].
  now rewrite (Ascii.eqb_sym "/" c).
Qed.

(** The pattern of the slash branch fires exactly on two slashes or more. *)
Lemma like_two_slashes (s : string) :
  sql_like "%/%/%" s = (2 <=? count_char "/" s)%nat.
Proof.
  induction s as [|c s IH]; [reflexivity|].
  rewrite like_percent, IH, like_slash_has_slash. cbn [count_char].
  destruct (Ascii.eqb c "/"); cbn [andb orb Nat.add].
  - destruct (count_char "/" s) as [|[|n]]; reflexivity.
  - reflexivity.
Qed.

Lemma split_on_length (sep : ascii) (s : string) :
  length (split_on sep s) = S (count_char sep s).
Proof.
  induction s as [|c s IH]; [reflexivity|].
  cbn [split_on count_char]. destruct (Ascii.eqb c sep).
  - cbn [length]. now rewrite IH.
  - destruct (split_on sep s) as [|x r]; [discriminate IH|]. exact IH.
Qed.

End TextFacts.

(** ** Running a method: inversion principles *)

Section MethodFacts.

Lemma bind_ok_inv {A B : Type} (m : M A) (k : A -> M B) (e e' : ReconEngine) (b : B) :
  (m ≫= k) e = (e', Ok b) ->
  exists e1 a, m e = (e1, Ok a) /\ k a e1 = (e', Ok b).
Proof.
  unfold mbind, M_bind. destruct (m e) as [e1 [a|err]] eqn:Hm; intros H.
  - exists e1, a. split; [reflexivity|exact H].
  - discriminate H.
Qed.

Lemma bind_ok {A B : Type} (m : M A) (k : A -> M B) (e e1 : ReconEngine) (a : A) :
  m e = (e1, Ok a) -> (m ≫= k) e = k a e1.
Proof. unfold mbind, M_bind. intros ->. reflexivity. Qed.

Lemma bind_raise {A B : Type} (m : M A) (k : A -> M B) (e e1 : ReconEngine) (err : error) :
  m e = (e1, Raise err) -> (m ≫= k) e = (e1, Raise err).
Proof. unfold mbind, M_bind. intros ->. reflexivity. Qed.

Lemma execute_ok_inv (stmt : connection -> result connection) (e e' : ReconEngine) (u : unit) :
  execute stmt e = (e', Ok u) ->
  stmt (conn e) = Ok (conn e')
  /\ _source_a_loaded e' = _source_a_loaded e
  /\ _source_b_loaded e' = _source_b_loaded e.
Proof.
  unfold execute. destruct (stmt (conn e)) as [c|err]; intros H; [|discriminate H].
  injection H as <- _. repeat split.
Qed.

Lemma fetch_engine {A : Type} (q : connection -> result A) (e e' : ReconEngine) (r : result A) :
  fetch q e = (e', r) -> e' = e /\ r = q (conn e).
Proof. unfold fetch. intros H. injection H as <- <-. split; reflexivity. Qed.

Lemma get_row_count_inv (t : string) (e e' : ReconEngine) (n : nat) :
  get_row_count t e = (e', Ok n) -> e' = e /\ row_count_of e t = Some n.
Proof.
  unfold get_row_count. intros H. apply fetch_engine in H as [-> H]. split; [reflexivity|].
  unfold row_count_of, table_of, lookup_table in *.
  destruct (catalog (conn e) !! t) as [tb|]; [|discriminate H].
  cbn in H. injection H as ->. reflexivity.
Qed.

Lemma get_row_count_ok (t : string) (e : ReconEngine) (n : nat) :
  row_count_of e t = Some n -> get_row_count t e = (e, Ok n).
Proof.
  unfold get_row_count, fetch, row_count_of, table_of, lookup_table.
  destruct (catalog (conn e) !! t) as [tb|]; intros H; [|discriminate H].
  cbn in *. injection H as ->. reflexivity.
Qed.

End MethodFacts.

(** Splits a successful run of [m ≫= k] in hypothesis [H]. *)
Ltac step_ok H e1 a H1 :=
  apply bind_ok_inv in H as (e1 & a & H1 & H).

(** ** The statements keep the number of rows *)

Section RowCounts.

Lemma store_table_row_count (c : connection) (t name : string) (tb tb' : table) :
  catalog c !! t = Some tb ->
  length (rows tb') = length (rows tb) ->
  conn_row_count (store_table c t tb') name = conn_row_count c name.
Proof.
  intros Ht Hlen. unfold conn_row_count, store_table. cbn [catalog].
  destruct (decide (t = name)) as [->|Hne].
  - rewrite lookup_insert_eq, Ht. cbn. now rewrite Hlen.
  - now rewrite lookup_insert_ne.
Qed.

Lemma lookup_table_inv (c : connection) (t : string) (tb : table) :
  lookup_table c t = Ok tb -> catalog c !! t = Some tb.
Proof.
  unfold lookup_table. destruct (catalog c !! t); intros H; [|discriminate H].
  now injection H as ->.
Qed.

Lemma add_column_row_count (t col : string) (ty : sqltype) (c c' : connection) (name : string) :
  add_column_if_not_exists t col ty c = Ok c' ->
  conn_row_count c' name = conn_row_count c name.
Proof.
  unfold add_column_if_not_exists.
  destruct (lookup_table c t) as [tb|err] eqn:Ht; [|discriminate].
  apply lookup_table_inv in Ht.
  destruct (col_index col (columns tb)); intros H; injection H as <-; [reflexivity|].
  apply (store_table_row_count c t name tb); [exact Ht|]. cbn [rows]. apply length_map.
Qed.

Lemma update_set_row_count (t col : string)
    (bind : (Q -> string) -> list (string * sqltype) -> result (sqltype * (row -> value)))
    (c c' : connection) (name : string) :
  update_set t col bind c = Ok c' ->
  conn_row_count c' name = conn_row_count c name.
Proof.
  unfold update_set.
  destruct (lookup_table c t) as [tb|err] eqn:Ht; [|discriminate].
  apply lookup_table_inv in Ht.
  destruct (col_index col (columns tb)) as [j|]; [|discriminate].
  destruct (col_type col (columns tb)) as [ty|]; [|discriminate].
  destruct (bind (double_to_varchar c) (columns tb)) as [[ety f]|err]; [|discriminate].
  destruct (sqltype_eqb ety ty); intros H; [|discriminate H]. injection H as <-.
  apply (store_table_row_count c t name tb); [exact Ht|]. cbn [rows]. apply length_map.
Qed.

Lemma drop_column_row_count (t col : string) (c c' : connection) (name : string) :
  drop_column t col c = Ok c' ->
  conn_row_count c' name = conn_row_count c name.
Proof.
  unfold drop_column.
  destruct (lookup_table c t) as [tb|err] eqn:Ht; [|discriminate].
  apply lookup_table_inv in Ht.
  destruct (col_index col (columns tb)) as [j|]; [|discriminate].
  destruct (length (columns tb) <=? 1)%nat; intros H; [discriminate H|]. injection H as <-.
  apply (store_table_row_count c t name tb); [exact Ht|]. cbn [rows]. apply length_map.
Qed.

Lemma rename_column_row_count (t old new : string) (c c' : connection) (name : string) :
  rename_column t old new c = Ok c' ->
  conn_row_count c' name = conn_row_count c name.
Proof.
  unfold rename_column.
  destruct (lookup_table c t) as [tb|err] eqn:Ht; [|discriminate].
  apply lookup_table_inv in Ht.
  destruct (col_index old (columns tb)) as [j|]; [|discriminate].
  destruct (col_type old (columns tb)) as [ty|]; [|discriminate].
  destruct (col_index new (columns tb)); intros H; [discriminate H|]. injection H as <-.
  now apply (store_table_row_count c t name tb).
Qed.

(** A statement that keeps the row counts, run by [execute]. *)
Lemma execute_row_count (stmt : connection -> result connection)
    (e e' : ReconEngine) (u : unit) (name : string) :
  (forall c c', stmt c = Ok c' -> conn_row_count c' name = conn_row_count c name) ->
  execute stmt e = (e', Ok u) ->
  row_count_of e' name = row_count_of e name.
Proof.
  intros Hstmt H. apply execute_ok_inv in H as (H & _ & _).
  apply Hstmt in H. exact H.
Qed.

(** The four statements of a cleaning pass followed by the count. *)
Lemma cleaning_pass_row_count (t col helper : string) (ty : sqltype)
    (bind : (Q -> string) -> list (string * sqltype) -> result (sqltype * (row -> value)))
    (e e' : ReconEngine) (n : nat) :
  (execute (add_column_if_not_exists t helper ty);;
   execute (update_set t helper bind);;
   execute (drop_column t col);;
   execute (rename_column t helper col);;
   get_row_count t) e = (e', Ok n) ->
  row_count_of e t = Some n /\ row_count_of e' t = Some n.
Proof.
  intros H.
  step_ok H e1 u1 H1. step_ok H e2 u2 H2. step_ok H e3 u3 H3. step_ok H e4 u4 H4.
  apply get_row_count_inv in H as [-> H].
  apply (execute_row_count _ _ _ _ t (fun c c' => add_column_row_count t helper ty c c' t)) in H1.
  apply (execute_row_count _ _ _ _ t (fun c c' => update_set_row_count t helper bind c c' t)) in H2.
  apply (execute_row_count _ _ _ _ t (fun c c' => drop_column_row_count t col c c' t)) in H3.
  apply (execute_row_count _ _ _ _ t (fun c c' => rename_column_row_count t helper col c c' t)) in H4.
  split; [|exact H]. congruence.
Qed.

End RowCounts.

(** ** Columns of a table *)

Section ColumnFacts.

Lemma col_index_lt (c : string) (cols : list (string * sqltype)) (i : nat) :
  col_index c cols = Some i -> (i < length cols)%nat.
Proof.
  revert i. induction cols as [|[n ty] cols IH]; intros i; cbn; [discriminate|].
  destruct (String.eqb n c).
  - intros H. injection H as <-. lia.
  - destruct (col_index c cols) as [j|]; [|discriminate].
    intros H. injection H as <-. specialize (IH j eq_refl). lia.
Qed.

Lemma col_index_none (c : string) (cols : list (string * sqltype)) :
  col_index c cols = None <-> c ∉ map fst cols.
Proof.
  induction cols as [|[n ty] cols IH]; cbn.
  - split; [intros _; apply not_elem_of_nil|reflexivity].
  - rewrite not_elem_of_cons. destruct (String.eqb_spec n c) as [->|Hne].
    + split; [discriminate|]. intros [H _]. congruence.
    + destruct (col_index c cols) as [j|]; cbn.
      * split; [discriminate|]. intros [_ H]. now apply IH in H.
      * split; [|reflexivity]. intros _. split; [congruence|]. now apply IH.
Qed.

Lemma col_index_name (c : string) (cols : list (string * sqltype)) (i : nat) :
  col_index c cols = Some i -> exists ty, cols !! i = Some (c, ty).
Proof.
  revert i. induction cols as [|[n ty] cols IH]; intros i; cbn; [discriminate|].
  destruct (String.eqb_spec n c) as [->|Hne].
  - intros H. injection H as <-. now exists ty.
  - destruct (col_index c cols) as [j|]; [|discriminate].
    intros H. injection H as <-. exact (IH j eq_refl).
Qed.

Lemma col_index_app_l (c : string) (cols more : list (string * sqltype)) (i : nat) :
  col_index c cols = Some i -> col_index c (cols ++ more) = Some i.
Proof.
  revert i. induction cols as [|[n ty] cols IH]; intros i; cbn; [discriminate|].
  destruct (String.eqb n c); [easy|].
  destruct (col_index c cols) as [j|]; [|discriminate].
  intros H. now rewrite (IH j eq_refl).
Qed.

Lemma col_index_app_r (c : string) (cols more : list (string * sqltype)) :
  col_index c cols = None ->
  col_index c (cols ++ more) = (fun j => length cols + j)%nat <$> col_index c more.
Proof.
  induction cols as [|[n ty] cols IH]; cbn.
  - intros _. now destruct (col_index c more).
  - destruct (String.eqb n c); [discriminate|].
    destruct (col_index c cols) as [j|]; [discriminate|].
    intros _. rewrite (IH eq_refl). now destruct (col_index c more).
Qed.

Lemma col_type_lookup (c : string) (cols : list (string * sqltype)) (i : nat) (ty : sqltype) :
  col_index c cols = Some i ->
  (col_type c cols = Some ty <-> cols !! i = Some (c, ty)).
Proof.
  intros Hi. unfold col_type. rewrite Hi.
  destruct (col_index_name c cols i Hi) as [ty' Hl].
  rewrite Hl. cbn. split; intros H; congruence.
Qed.

Lemma resolve_lookup (c : string) (cols : list (string * sqltype)) (i : nat) (ty : sqltype) :
  resolve c cols = Ok (i, ty) <-> col_index c cols = Some i /\ cols !! i = Some (c, ty).
Proof.
  unfold resolve. destruct (col_index c cols) as [j|] eqn:Hj.
  - destruct (col_index_name c cols j Hj) as [ty' Hl].
    assert (Hty : col_type c cols = Some ty') by now apply (col_type_lookup c cols j).
    rewrite Hty. split.
    + intros H. injection H as <- <-. now split.
    + intros [H1 H2]. injection H1 as <-. congruence.
  - split; [discriminate|]. intros [H _]. discriminate H.
Qed.

Lemma resolve_intro (c : string) (cols : list (string * sqltype)) (i : nat) (ty : sqltype) :
  col_index c cols = Some i -> cols !! i = Some (c, ty) -> resolve c cols = Ok (i, ty).
Proof. intros H1 H2. now apply resolve_lookup. Qed.

Lemma col_index_delete_none (c : string) (cols : list (string * sqltype)) (i : nat) :
  col_index c cols = None -> col_index c (delete i cols) = None.
Proof.
  rewrite !col_index_none. intros H Hin. apply H.
  apply list_elem_of_fmap in Hin as (x & -> & Hx).
  apply list_elem_of_fmap. exists x. split; [reflexivity|].
  exact (sublist_subseteq _ _ (sublist_delete cols i) x Hx).
Qed.

Lemma col_index_delete_self (c : string) (cols : list (string * sqltype)) (i : nat) :
  NoDup (map fst cols) -> col_index c cols = Some i ->
  col_index c (delete i cols) = None.
Proof.
  revert i. induction cols as [|[n ty] cols IH]; intros i Hnd Hi; [discriminate Hi|].
  change (map fst ((n, ty) :: cols)) with (n :: map fst cols) in Hnd.
  apply NoDup_cons in Hnd as [Hn Hnd].
  cbn [col_index] in Hi. destruct (String.eqb_spec n c) as [->|Hne].
  - injection Hi as <-. change (delete 0%nat ((c, ty) :: cols)) with cols.
    now apply col_index_none.
  - destruct (col_index c cols) as [j|] eqn:Hj; [|discriminate Hi].
    injection Hi as <-.
    change (delete (S j) ((n, ty) :: cols)) with ((n, ty) :: delete j cols).
    cbn [col_index]. destruct (String.eqb_spec n c) as [->|_]; [congruence|].
    now rewrite (IH j Hnd eq_refl).
Qed.

End ColumnFacts.

(** ** The cleaning pass *)

Section CleaningPass.

Local Open Scope list_scope.

Lemma delete_app_lt {A : Type} (i : nat) (l k : list A) :
  (i < length l)%nat -> delete i (l ++ k) = delete i l ++ k.
Proof.
  revert i. induction l as [|x l IH]; intros i Hi; [cbn in Hi; lia|].
  destruct i as [|i]; [reflexivity|].
  cbn in Hi. change (x :: delete i (l ++ k) = x :: (delete i l ++ k)).
  f_equal. apply IH. lia.
Qed.

Lemma insert_app_end {A : Type} (l : list A) (x y : A) :
  <[length l := x]> (l ++ [y]) = l ++ [x].
Proof.
  rewrite insert_app_r_alt by lia. now rewrite Nat.sub_diag.
Qed.

Lemma cell_app_lt (i : nat) (r k : row) :
  (i < length r)%nat -> cell i (r ++ k) = cell i r.
Proof. intros Hi. unfold cell. now apply app_nth1. Qed.

Lemma cell_app_end (r : row) (x : value) : cell (length r) (r ++ [x]) = x.
Proof. unfold cell. rewrite app_nth2 by lia. now rewrite Nat.sub_diag. Qed.

Lemma store_table_lookup (c : connection) (t : string) (tb : table) :
  catalog (store_table c t tb) !! t = Some tb.
Proof. unfold store_table. cbn [catalog]. apply lookup_insert_eq. Qed.

Lemma store_table_twice (c : connection) (t : string) (tb tb' : table) :
  store_table (store_table c t tb) t tb' = store_table c t tb'.
Proof.
  unfold store_table. cbn [catalog double_to_varchar]. now rewrite insert_insert_eq.
Qed.

Lemma add_column_fresh (t h : string) (ty : sqltype) (c : connection) (tb : table) :
  catalog c !! t = Some tb ->
  col_index h (columns tb) = None ->
  add_column_if_not_exists t h ty c
  = Ok (store_table c t (mkTable (columns tb ++ [(h, ty)])
                           (map (fun r => r ++ [VNull]) (rows tb)))).
Proof.
  intros Ht Hh. unfold add_column_if_not_exists, lookup_table. now rewrite Ht, Hh.
Qed.

Lemma update_set_ok (t h : string) (ty : sqltype) (f : row -> value) (j : nat)
    (bind : (Q -> string) -> list (string * sqltype) -> result (sqltype * (row -> value)))
    (c : connection) (tb : table) :
  catalog c !! t = Some tb ->
  resolve h (columns tb) = Ok (j, ty) ->
  bind (double_to_varchar c) (columns tb) = Ok (ty, f) ->
  update_set t h bind c
  = Ok (store_table c t (mkTable (columns tb) (map (fun r => <[j := f r]> r) (rows tb)))).
Proof.
  intros Ht Hres Hbind. unfold update_set, lookup_table. rewrite Ht.
  unfold resolve in Hres.
  destruct (col_index h (columns tb)) as [j'|]; [|discriminate Hres].
  destruct (col_type h (columns tb)) as [ty'|]; [|discriminate Hres].
  injection Hres as -> ->. rewrite Hbind.
  assert (Heq : sqltype_eqb ty ty = true) by now destruct ty.
  now rewrite Heq.
Qed.

Lemma drop_column_ok (t col : string) (i : nat) (c : connection) (tb : table) :
  catalog c !! t = Some tb ->
  col_index col (columns tb) = Some i ->
  (1 < length (columns tb))%nat ->
  drop_column t col c
  = Ok (store_table c t (mkTable (delete i (columns tb)) (map (delete i) (rows tb)))).
Proof.
  intros Ht Hi Hlen. unfold drop_column, lookup_table. rewrite Ht, Hi.
  destruct (Nat.leb_spec (length (columns tb)) 1); [lia|reflexivity].
Qed.

Lemma rename_column_ok (t old new : string) (j : nat) (ty : sqltype)
    (c : connection) (tb : table) :
  catalog c !! t = Some tb ->
  resolve old (columns tb) = Ok (j, ty) ->
  col_index new (columns tb) = None ->
  rename_column t old new c
  = Ok (store_table c t (mkTable (<[j := (new, ty)]> (columns tb)) (rows tb))).
Proof.
  intros Ht Hres Hnew. unfold rename_column, lookup_table. rewrite Ht.
  unfold resolve in Hres.
  destruct (col_index old (columns tb)) as [j'|]; [|discriminate Hres].
  destruct (col_type old (columns tb)) as [ty'|]; [|discriminate Hres].
  injection Hres as -> ->. now rewrite Hnew.
Qed.

Lemma execute_step {B : Type} (stmt : connection -> result connection)
    (k : unit -> M B) (e : ReconEngine) (c : connection) :
  stmt (conn e) = Ok c ->
  (execute stmt ≫= k) e = k tt (mkEngine c (_source_a_loaded e) (_source_b_loaded e)).
Proof. intros H. unfold mbind, M_bind, execute. now rewrite H. Qed.

Lemma with_table_again (e : ReconEngine) (t : string) (a b : table) :
  mkEngine (store_table (conn (with_table e t a)) t b)
           (_source_a_loaded (with_table e t a)) (_source_b_loaded (with_table e t a))
  = with_table e t b.
Proof. unfold with_table. cbn [conn _source_a_loaded _source_b_loaded].
  now rewrite store_table_twice. Qed.

(** What a cleaning pass does on a well-formed table: the column moves to
    the end with its new type, every cell of it is replaced by the value
    of the CASE expression on the old cell, and the count of rows is
    returned. *)
Lemma cleaning_pass_result (t col helper : string) (ty cty : sqltype) (i : nat)
    (g : value -> value)
    (bind : (Q -> string) -> list (string * sqltype) -> result (sqltype * (row -> value)))
    (e : ReconEngine) (tb : table) :
  table_of e t = Some tb ->
  well_formed tb ->
  resolve col (columns tb) = Ok (i, cty) ->
  col_index helper (columns tb) = None ->
  bind (double_to_varchar (conn e)) (columns tb ++ [(helper, ty)])
  = Ok (ty, fun r => g (cell i r)) ->
  (execute (add_column_if_not_exists t helper ty);;
   execute (update_set t helper bind);;
   execute (drop_column t col);;
   execute (rename_column t helper col);;
   get_row_count t) e
  = (with_table e t (cleaned_table tb i col ty g), Ok (length (rows tb))).
Proof.
  intros Htb [Hnd Hrows] Hres Hhelper Hbind.
  apply resolve_lookup in Hres as [Hi Hlook].
  pose proof (col_index_lt _ _ _ Hi) as Hlt.
  assert (Hne : col <> helper) by (intros ->; congruence).
  set (n := length (columns tb)) in *.
  (* ADD COLUMN *)
  set (tb1 := mkTable (columns tb ++ [(helper, ty)]) (map (fun r => r ++ [VNull]) (rows tb))).
  rewrite (execute_step _ _ e _ (add_column_fresh t helper ty (conn e) tb Htb Hhelper)).
  change (mkEngine (store_table (conn e) t tb1) (_source_a_loaded e) (_source_b_loaded e))
    with (with_table e t tb1).
  (* UPDATE *)
  assert (Hh1 : resolve helper (columns tb1) = Ok (n, ty)).
  { apply resolve_intro.
    - cbn [columns tb1]. rewrite (col_index_app_r _ _ _ Hhelper). cbn [col_index].
      rewrite String.eqb_refl. cbn. f_equal. unfold n. lia.
    - cbn [columns tb1]. rewrite lookup_app_r by (unfold n; lia).
      unfold n. now rewrite Nat.sub_diag. }
  set (tb2 := mkTable (columns tb1)
                (map (fun r => <[n := g (cell i r)]> r) (rows tb1))).
  rewrite (execute_step _ _ (with_table e t tb1) _
             (update_set_ok t helper ty _ n bind (conn (with_table e t tb1)) tb1
                (store_table_lookup _ _ _) Hh1 Hbind)).
  fold tb2. rewrite with_table_again.
  (* DROP COLUMN *)
  assert (Hi2 : col_index col (columns tb2) = Some i).
  { cbn [columns tb2 tb1]. now apply col_index_app_l. }
  assert (Hlen2 : (1 < length (columns tb2))%nat).
  { cbn [columns tb2 tb1]. rewrite length_app. cbn [length]. fold n. lia. }
  set (tb3 := mkTable (delete i (columns tb2)) (map (delete i) (rows tb2))).
  rewrite (execute_step _ _ (with_table e t tb2) _
             (drop_column_ok t col i (conn (with_table e t tb2)) tb2
                (store_table_lookup _ _ _) Hi2 Hlen2)).
  fold tb3. rewrite with_table_again.
  (* RENAME COLUMN *)
  assert (Hcols3 : columns tb3 = delete i (columns tb) ++ [(helper, ty)]).
  { cbn [columns tb3 tb2 tb1]. now apply delete_app_lt. }
  assert (Hlen3 : length (delete i (columns tb)) = (n - 1)%nat).
  { rewrite length_delete by (now apply lookup_lt_is_Some). unfold n. lia. }
  assert (Hh3 : resolve helper (columns tb3) = Ok ((n - 1)%nat, ty)).
  { rewrite Hcols3. apply resolve_intro.
    - rewrite (col_index_app_r _ _ _ (col_index_delete_none _ _ i Hhelper)).
      cbn [col_index]. rewrite String.eqb_refl. cbn. f_equal. lia.
    - rewrite lookup_app_r by lia. rewrite Hlen3. now rewrite Nat.sub_diag. }
  assert (Hnew3 : col_index col (columns tb3) = None).
  { rewrite Hcols3.
    rewrite (col_index_app_r _ _ _ (col_index_delete_self _ _ i Hnd Hi)).
    cbn [col_index]. destruct (String.eqb_spec helper col) as [->|_]; [congruence|].
    reflexivity. }
  rewrite (execute_step _ _ (with_table e t tb3) _
             (rename_column_ok t helper col _ ty (conn (with_table e t tb3)) tb3
                (store_table_lookup _ _ _) Hh3 Hnew3)).
  rewrite with_table_again.
  (* the table that is left *)
  assert (Hfinal : mkTable (<[(n - 1)%nat := (col, ty)]> (columns tb3)) (rows tb3)
                   = cleaned_table tb i col ty g).
  { unfold cleaned_table. f_equal.
    - rewrite Hcols3, <- Hlen3. apply insert_app_end.
    - cbn [rows tb3 tb2 tb1]. rewrite !map_map. apply map_ext_in.
      intros r Hr. rewrite Forall_forall in Hrows.
      apply list_elem_of_In in Hr. specialize (Hrows r Hr). fold n in Hrows.
      rewrite <- Hrows at 1. rewrite insert_app_end.
      rewrite delete_app_lt by lia.
      now rewrite cell_app_lt by lia. }
  rewrite Hfinal.
  apply get_row_count_ok. unfold row_count_of, table_of, with_table. cbn [conn].
  rewrite store_table_lookup. cbn. now rewrite length_map.
Qed.


Lemma resolve_app_l (col : string) (cols more : list (string * sqltype)) (i : nat) (ty : sqltype) :
  resolve col cols = Ok (i, ty) -> resolve col (cols ++ more) = Ok (i, ty).
Proof.
  intros H. apply resolve_lookup in H as [Hi Hl]. apply resolve_intro.
  - now apply col_index_app_l.
  - now apply lookup_app_l_Some.
Qed.

(** The cells of the cleaned column are the values of the CASE expression
    on the old cells, row by row. *)
Lemma column_cells_cleaned (e : ReconEngine) (t col : string) (tb : table)
    (i : nat) (ty cty : sqltype) (g : value -> value) :
  well_formed tb ->
  resolve col (columns tb) = Ok (i, cty) ->
  column_cells (with_table e t (cleaned_table tb i col ty g)) t col
  = Some (map (fun r => g (cell i r)) (rows tb)).
Proof.
  intros [Hnd Hrows] Hres. apply resolve_lookup in Hres as [Hi Hl].
  pose proof (col_index_lt _ _ _ Hi) as Hlt.
  unfold column_cells, table_of, with_table. cbn [conn].
  rewrite store_table_lookup. cbn [columns cleaned_table rows].
  rewrite (col_index_app_r _ _ _ (col_index_delete_self _ _ i Hnd Hi)).
  cbn [col_index]. rewrite String.eqb_refl. cbn [fmap option_fmap option_map].
  f_equal. rewrite map_map. apply map_ext_in. intros r Hr.
  rewrite Forall_forall in Hrows. apply list_elem_of_In in Hr. specialize (Hrows r Hr).
  assert (Hlen : length (delete i (columns tb)) = length (delete i r)).
  { rewrite !length_delete by (apply lookup_lt_is_Some; lia). now rewrite Hrows. }
  rewrite Nat.add_0_r, Hlen. apply cell_app_end.
Qed.

Lemma clean_date_column_result (e : ReconEngine) (t col : string) (tb : table)
    (i : nat) (cty : sqltype) :
  table_of e t = Some tb ->
  well_formed tb ->
  resolve col (columns tb) = Ok (i, cty) ->
  col_index "_cleaned_date" (columns tb) = None ->
  clean_date_column t col e
  = (with_table e t (cleaned_table tb i col VARCHAR (date_cell (double_to_varchar (conn e)))),
     Ok (length (rows tb))).
Proof.
  intros Htb Hwf Hres Hhelper. unfold clean_date_column.
  apply (cleaning_pass_result t col "_cleaned_date" VARCHAR cty i
           (date_cell (double_to_varchar (conn e))) _ e tb Htb Hwf Hres Hhelper).
  unfold bind_date_case. rewrite (resolve_app_l _ _ _ _ _ Hres). reflexivity.
Qed.

Lemma clean_amount_column_result (e : ReconEngine) (t col : string) (tb : table) (i : nat) :
  table_of e t = Some tb ->
  well_formed tb ->
  resolve col (columns tb) = Ok (i, VARCHAR) ->
  col_index "_cleaned_amount" (columns tb) = None ->
  clean_amount_column t col e
  = (with_table e t (cleaned_table tb i col DOUBLE (amount_cell (double_to_varchar (conn e)))),
     Ok (length (rows tb))).
Proof.
  intros Htb Hwf Hres Hhelper. unfold clean_amount_column.
  assert (Hfetch : exists ty, fetch (select_typeof_limit_1 t col) e = (e, Ok ty)
                              /\ already_numeric ty = false).
  { unfold fetch, select_typeof_limit_1, lookup_table. unfold table_of in Htb.
    rewrite Htb. cbn. rewrite Hres. cbn.
    destruct (rows tb); eexists; split; reflexivity. }
  destruct Hfetch as (ty & Hfetch & Hnum).
  rewrite (bind_ok _ _ _ _ _ Hfetch), Hnum.
  apply (cleaning_pass_result t col "_cleaned_amount" DOUBLE VARCHAR i
           (amount_cell (double_to_varchar (conn e))) _ e tb Htb Hwf Hres Hhelper).
  unfold bind_amount_case. rewrite (resolve_app_l _ _ _ _ _ Hres). reflexivity.
Qed.

End CleaningPass.

(** ** Date normalization *)

Section DateNormalization.

Lemma date_case_below_three_parts (s : string) :
  sql_like iso_date_pattern s = false ->
  (length (split_on "/" s) < 3)%nat ->
  date_case (Some s) = Some s.
Proof.
  intros Hiso Hparts. rewrite split_on_length in Hparts.
  unfold date_case. unfold iso_date_pattern in Hiso. rewrite Hiso.
  rewrite like_two_slashes.
  destruct (Nat.leb_spec 2 (count_char "/" s)) as [Hge|Hlt]; [lia|reflexivity].
Qed.




(** A NULL stays NULL. *)
Lemma date_case_null : date_case None = None.
Proof. reflexivity. Qed.

(** C4: the four inputs of the specification are mapped as it says, on the
    CASE expression and through [clean_date_column] on a table that holds
    them, and one-digit days and months are padded to two digits. *)
Theorem date_normalization_examples :
  date_case (Some "2024-03-05") = Some "2024-03-05"
  /\ date_case (Some "25/03/2024") = Some "2024-03-25"
  /\ date_case (Some "03/25/2024") = Some "2024-03-25"
  /\ date_case (Some "03/04/2024") = Some "2024-04-03"
  /\ date_case (Some "5/3/2024") = Some "2024-03-05"
  /\ (forall c : ascii, lpad (String c EmptyString) 2 "0" = String "0" (String c EmptyString))
  /\ (let r := clean_date_column "t" "d" (engine_with "t" (text_table "d" sample_dates)) in
      r.2 = Ok 5%nat
      /\ column_cells r.1 "t" "d"
         = Some [VText "2024-03-05"; VText "2024-03-25"; VText "2024-03-25";
                 VText "2024-04-03"; VText "2024-03-05"]).
Proof.
  repeat split; try reflexivity.
Qed.

End DateNormalization.

(** ** Amount normalization: the values *)

Section AmountValues.

Lemma amount_case_unparsed (s : string) :
  try_cast_double (cleaned_amount_text s) = None ->
  amount_case (Some s) = None.
Proof.
  intros Hfail. unfold amount_case, cleaned_amount_text in *.
  destruct (sql_like "(%)" (sql_trim s)); rewrite Hfail; reflexivity.
Qed.

(** C5: the three inputs of the specification are mapped as it says; a
    text whose cleaned form the cast refuses becomes NULL; and on any
    well-formed table [clean_amount_column] returns normally and stores
    NULL in the row of such a text. *)
Theorem amount_normalization_examples :
  (exists q, amount_case (Some "$1,234.56") = Some q /\ q == 1234.56)
  /\ (exists q, amount_case (Some "(100)") = Some q /\ q == -100)
  /\ (exists q, amount_case (Some "  42 ") = Some q /\ q == 42)
  /\ (forall s : string,
        try_cast_double (cleaned_amount_text s) = None ->
        amount_case (Some s) = None)
  /\ (forall (e : ReconEngine) (t col : string) (tb : table) (i k : nat)
             (r : row) (s : string),
        table_of e t = Some tb ->
        well_formed tb ->
        resolve col (columns tb) = Ok (i, VARCHAR) ->
        col_index "_cleaned_amount" (columns tb) = None ->
        rows tb !! k = Some r ->
        cell i r = VText s ->
        try_cast_double (cleaned_amount_text s) = None ->
        (clean_amount_column t col e).2 = Ok (length (rows tb))
        /\ exists cells,
            column_cells (clean_amount_column t col e).1 t col = Some cells
            /\ cells !! k = Some VNull)
  /\ (let r := clean_amount_column "t" "amt" (engine_with "t" (text_table "amt" sample_amounts)) in
      r.2 = Ok 4%nat
      /\ column_cells r.1 "t" "amt"
         = Some [VReal (Qred 1234.56); VReal (-100); VReal 42; VNull]).
Proof.
  split; [eexists; split; [reflexivity|reflexivity]|].
  split; [eexists; split; [reflexivity|reflexivity]|].
  split; [eexists; split; [reflexivity|reflexivity]|].
  split; [exact amount_case_unparsed|].
  split; [|split; reflexivity].
  intros e t col tb i k r s Htb Hwf Hres Hhelper Hk Hcell Hfail.
  rewrite (clean_amount_column_result e t col tb i Htb Hwf Hres Hhelper). cbn [fst snd].
  split; [reflexivity|].
  rewrite (column_cells_cleaned e t col tb i DOUBLE VARCHAR _ Hwf Hres).
  eexists. split; [reflexivity|].
  rewrite list_lookup_fmap, Hk. cbn. rewrite Hcell.
  unfold amount_cell. cbn [cast_varchar].
  now rewrite (amount_case_unparsed s Hfail).
Qed.

Lemma amount_normalization_examples_witness :
  let tb := text_table "amt" sample_amounts in
  let e := engine_with "t" tb in
  (try_cast_double (cleaned_amount_text "n/a") = None
   /\ amount_case (Some "n/a") = None)
  /\ (table_of e "t" = Some tb
      /\ well_formed tb
      /\ resolve "amt" (columns tb) = Ok (0%nat, VARCHAR)
      /\ (clean_amount_column "t" "amt" e).2 = Ok (length (rows tb))
      /\ exists cells,
          column_cells (clean_amount_column "t" "amt" e).1 "t" "amt" = Some cells
          /\ cells !! 3%nat = Some VNull).
Proof.
  intros tb e.
  assert (Hfail : try_cast_double (cleaned_amount_text "n/a") = None) by reflexivity.
  assert (Htb : table_of e "t" = Some tb) by reflexivity.
  assert (Hwf : well_formed tb).
  { split; [apply (bool_decide_unpack _); vm_compute; exact I|]. repeat constructor. }
  assert (Hres : resolve "amt" (columns tb) = Ok (0%nat, VARCHAR)) by reflexivity.
  split.
  - split; [exact Hfail|].
    exact (proj1 (proj2 (proj2 (proj2 amount_normalization_examples))) "n/a" Hfail).
  - split; [exact Htb|]. split; [exact Hwf|]. split; [exact Hres|].
    exact (proj1 (proj2 (proj2 (proj2 (proj2 amount_normalization_examples))))
             e "t" "amt" tb 0%nat 3%nat [VText "n/a"] "n/a"
             Htb Hwf Hres eq_refl eq_refl eq_refl Hfail).
Defined.

End AmountValues.

(** ** The count a cleaning call returns *)

Section RowsAffected.

(** C10: when [clean_amount_column] runs its cleaning pass, and whenever
    [clean_date_column] runs, the count returned is the number of rows of
    the table, before the call as well as after it; and on a well-formed
    table that has the column (of text, for amounts) both calls do return
    that count. *)
Theorem rows_affected_is_row_count :
  (forall (e e' : ReconEngine) (t col : string) (n : nat),
      detected_numeric e t col = false ->
      clean_amount_column t col e = (e', Ok n) ->
      row_count_of e t = Some n /\ row_count_of e' t = Some n)
  /\ (forall (e e' : ReconEngine) (t col : string) (n : nat),
      clean_date_column t col e = (e', Ok n) ->
      row_count_of e t = Some n /\ row_count_of e' t = Some n)
  /\ (forall (e : ReconEngine) (t col : string) (tb : table) (i : nat),
      table_of e t = Some tb ->
      well_formed tb ->
      resolve col (columns tb) = Ok (i, VARCHAR) ->
      col_index "_cleaned_amount" (columns tb) = None ->
      detected_numeric e t col = false
      /\ (clean_amount_column t col e).2 = Ok (length (rows tb)))
  /\ (forall (e : ReconEngine) (t col : string) (tb : table) (i : nat) (cty : sqltype),
      table_of e t = Some tb ->
      well_formed tb ->
      resolve col (columns tb) = Ok (i, cty) ->
      col_index "_cleaned_date" (columns tb) = None ->
      (clean_date_column t col e).2 = Ok (length (rows tb))).
Proof.
  split; [|split; [|split]].
  - intros e e' t col n Hpass H. unfold clean_amount_column in H.
    step_ok H e0 ty H0. apply fetch_engine in H0 as [-> H0].
    unfold detected_numeric in Hpass. rewrite <- H0 in Hpass. rewrite Hpass in H.
    now apply cleaning_pass_row_count in H.
  - intros e e' t col n H. unfold clean_date_column in H.
    now apply cleaning_pass_row_count in H.
  - intros e t col tb i Htb Hwf Hres Hhelper. split.
    + unfold detected_numeric, select_typeof_limit_1, lookup_table.
      unfold table_of in Htb. rewrite Htb. cbn. rewrite Hres. cbn.
      now destruct (rows tb).
    + now rewrite (clean_amount_column_result e t col tb i Htb Hwf Hres Hhelper).
  - intros e t col tb i cty Htb Hwf Hres Hhelper.
    now rewrite (clean_date_column_result e t col tb i cty Htb Hwf Hres Hhelper).
Qed.

Lemma rows_affected_is_row_count_witness :
  let ta := text_table "amt" sample_amounts in
  let td := text_table "d" sample_dates in
  let e := engine_with "t" ta in
  let d := engine_with "t" td in
  detected_numeric e "t" "amt" = false
  /\ (row_count_of e "t" = Some 4%nat
      /\ row_count_of (clean_amount_column "t" "amt" e).1 "t" = Some 4%nat)
  /\ (row_count_of d "t" = Some 5%nat
      /\ row_count_of (clean_date_column "t" "d" d).1 "t" = Some 5%nat)
  /\ (well_formed ta /\ well_formed td)
  /\ (detected_numeric e "t" "amt" = false
      /\ (clean_amount_column "t" "amt" e).2 = Ok (length (rows ta)))
  /\ (clean_date_column "t" "d" d).2 = Ok (length (rows td)).
Proof.
  intros ta td e d.
  assert (Hwa : well_formed ta).
  { split; [apply (bool_decide_unpack _); vm_compute; exact I|]. repeat constructor. }
  assert (Hwd : well_formed td).
  { split; [apply (bool_decide_unpack _); vm_compute; exact I|]. repeat constructor. }
  split; [reflexivity|]. split; [|split; [|split; [|split]]].
  - apply (proj1 rows_affected_is_row_count e _ "t" "amt" 4%nat); reflexivity.
  - apply (proj1 (proj2 rows_affected_is_row_count) d _ "t" "d" 5%nat); reflexivity.
  - split; assumption.
  - exact (proj1 (proj2 (proj2 rows_affected_is_row_count)) e "t" "amt" ta 0%nat
             eq_refl Hwa eq_refl eq_refl).
  - exact (proj2 (proj2 (proj2 rows_affected_is_row_count)) d "t" "d" td 0%nat VARCHAR
             eq_refl Hwd eq_refl eq_refl).
Defined.

End RowsAffected.

(** ** Amount normalization: the early return *)

Section AlreadyNumeric.

Lemma col_type_resolve (col : string) (cols : list (string * sqltype)) (ty : sqltype) :
  col_type col cols = Some ty ->
  exists i, resolve col cols = Ok (i, ty).
Proof.
  unfold resolve, col_type. destruct (col_index col cols) as [i|]; [|discriminate].
  intros H. exists i. now rewrite H.
Qed.




End AlreadyNumeric.

(** ** Reconciliation: the precondition and the frame *)

Section ReconcileFrame.

(** C8: with either source not loaded, [reconcile] raises its
    [ValueError] and the engine, its catalog included, is what it was. *)
Theorem reconcile_requires_both_sources (e : ReconEngine) (cfg : ReconConfig) :
  _source_a_loaded e = false \/ _source_b_loaded e = false ->
  reconcile cfg e
  = (e, Raise (ValueError "Both source files must be loaded before reconciliation")).
Proof.
  intros H. unfold reconcile, self. unfold mbind, M_bind.
  destruct H as [-> | ->]; [reflexivity|].
  rewrite orb_true_r. reflexivity.
Qed.

Lemma reconcile_requires_both_sources_witness :
  let e := engine_with "source_a" ledger_a in
  (_source_a_loaded e = false \/ _source_b_loaded e = false)
  /\ reconcile ledger_config e
     = (e, Raise (ValueError "Both source files must be loaded before reconciliation")).
Proof.
  intros e.
  assert (H : _source_a_loaded e = false \/ _source_b_loaded e = false)
    by (right; reflexivity).
  split; [exact H|]. exact (reconcile_requires_both_sources e ledger_config H).
Defined.

Lemma create_table_from_sources_frame (out : string)
    (select : table -> table -> result table) (e e' : ReconEngine) (u : unit) (name : string) :
  execute (create_table_from_sources out select) e = (e', Ok u) ->
  name <> out ->
  table_of e' name = table_of e name.
Proof.
  intros H Hne. apply execute_ok_inv in H as (H & _ & _).
  unfold create_table_from_sources, lookup_table in H.
  destruct (catalog (conn e) !! "source_a") as [A|]; [|discriminate H].
  destruct (catalog (conn e) !! "source_b") as [B|]; [|discriminate H].
  cbn in H. destruct (select A B) as [tb|err]; [|discriminate H].
  cbn in H. injection H as H. unfold table_of. rewrite <- H.
  unfold create_or_replace, store_table. cbn [catalog].
  apply lookup_insert_ne. congruence.
Qed.

(** A successful [reconcile] writes the five result tables and no other. *)
Lemma reconcile_frame (e e' : ReconEngine) (cfg : ReconConfig) (r : ReconResult) (name : string) :
  reconcile cfg e = (e', Ok r) ->
  name ∉ result_tables ->
  table_of e' name = table_of e name.
Proof.
  intros H Hname. unfold reconcile in H.
  step_ok H e0 s H0. unfold self in H0. injection H0 as <- <-.
  destruct (negb (_source_a_loaded e) || negb (_source_b_loaded e)); [discriminate H|].
  step_ok H e1 u1 H1. step_ok H e2 u2 H2. step_ok H e3 u3 H3.
  step_ok H e4 u4 H4. step_ok H e5 u5 H5.
  step_ok H e6 n1 G1. apply get_row_count_inv in G1 as [-> _].
  step_ok H e7 n2 G2. apply get_row_count_inv in G2 as [-> _].
  step_ok H e8 n3 G3. apply get_row_count_inv in G3 as [-> _].
  step_ok H e9 n4 G4. apply get_row_count_inv in G4 as [-> _].
  step_ok H e10 n5 G5. apply get_row_count_inv in G5 as [-> _].
  injection H as <- _.
  unfold result_tables in Hname.
  rewrite !not_elem_of_cons in Hname.
  destruct Hname as (N1 & N2 & N3 & N4 & N5 & _).
  rewrite (create_table_from_sources_frame _ _ _ _ _ name H5 N5).
  rewrite (create_table_from_sources_frame _ _ _ _ _ name H4 N4).
  rewrite (create_table_from_sources_frame _ _ _ _ _ name H3 N3).
  rewrite (create_table_from_sources_frame _ _ _ _ _ name H2 N2).
  exact (create_table_from_sources_frame _ _ _ _ _ name H1 N1).
Qed.

(** C9: after a successful [reconcile] the two sources are the tables
    they were, and so is every table other than the five results. *)
Theorem reconcile_leaves_sources (e e' : ReconEngine) (cfg : ReconConfig) (r : ReconResult) :
  reconcile cfg e = (e', Ok r) ->
  table_of e' "source_a" = table_of e "source_a"
  /\ table_of e' "source_b" = table_of e "source_b"
  /\ (forall name, name ∉ result_tables -> table_of e' name = table_of e name).
Proof.
  intros H. split; [|split].
  - apply (reconcile_frame e e' cfg r _ H). unfold result_tables.
    rewrite !not_elem_of_cons. repeat split; try discriminate. apply not_elem_of_nil.
  - apply (reconcile_frame e e' cfg r _ H). unfold result_tables.
    rewrite !not_elem_of_cons. repeat split; try discriminate. apply not_elem_of_nil.
  - intros name. apply (reconcile_frame e e' cfg r _ H).
Qed.

Lemma reconcile_leaves_sources_witness :
  let e := both_loaded ledger_a ledger_b in
  let out := reconcile ledger_config e in
  out.2 = Ok (mkReconResult ledger_config (mkReconSummary 0 1 0 1 0))
  /\ table_of out.1 "source_a" = Some ledger_a
  /\ table_of out.1 "source_b" = Some ledger_b.
Proof.
  intros e out.
  assert (Hrun : reconcile ledger_config e
                 = (out.1, Ok (mkReconResult ledger_config (mkReconSummary 0 1 0 1 0))))
    by reflexivity.
  split; [reflexivity|].
  destruct (reconcile_leaves_sources e out.1 ledger_config _ Hrun) as (Ha & Hb & _).
  split; [rewrite Ha|rewrite Hb]; reflexivity.
Defined.

End ReconcileFrame.

(** ** Union *)

Section Union.

Lemma get_columns_ok (e : ReconEngine) (name : string) (tb : table) :
  table_of e name = Some tb ->
  get_columns name e = (e, Ok (column_names tb)).
Proof.
  unfold get_columns, fetch, lookup_table, table_of. intros ->. reflexivity.
Qed.

Lemma column_set_of (e : ReconEngine) (name : string) (tb : table) :
  table_of e name = Some tb ->
  column_set e name = list_to_set (column_names tb).
Proof. unfold column_set. intros ->. reflexivity. Qed.

(** The loop stops at the first table whose column set differs from the
    reference and reports the two differences. *)
Lemma check_schemas_mismatch (e : ReconEngine) (reference_cols : gset string)
    (tables : list string) :
  Forall (fun n => is_Some (table_of e n)) tables ->
  (exists n, n ∈ tables /\ column_set e n <> reference_cols) ->
  exists before tbl after,
    tables = (before ++ tbl :: after)%list
    /\ Forall (fun n => column_set e n = reference_cols) before
    /\ column_set e tbl <> reference_cols
    /\ check_schemas reference_cols tables e
       = (e, Raise (SchemaMismatch tbl (reference_cols ∖ column_set e tbl)
                      (column_set e tbl ∖ reference_cols))).
Proof.
  induction tables as [|t ts IH]; intros Hall (n & Hn & Hdiff).
  - inversion Hn.
  - apply Forall_cons in Hall as [[tb Htb] Hall].
    cbn [check_schemas]. rewrite (bind_ok _ _ _ _ _ (get_columns_ok e t tb Htb)).
    rewrite <- (column_set_of e t tb Htb).
    destruct (decide (column_set e t ≠ reference_cols)) as [Hne|Heq].
    + exists [], t, ts. split; [reflexivity|]. split; [constructor|].
      split; [exact Hne|reflexivity].
    + apply dec_stable in Heq.
      apply elem_of_cons in Hn as [->|Hn]; [contradiction|].
      destruct (IH Hall (ex_intro _ n (conj Hn Hdiff)))
        as (before & tbl & after & -> & Hbefore & Hd & Hrun).
      exists (t :: before), tbl, after. split; [reflexivity|].
      split; [now constructor|]. split; [exact Hd|exact Hrun].
Qed.

Lemma check_schemas_ok (e : ReconEngine) (reference_cols : gset string)
    (tables : list string) :
  Forall (fun n => is_Some (table_of e n)) tables ->
  (forall n, n ∈ tables -> column_set e n = reference_cols) ->
  check_schemas reference_cols tables e = (e, Ok tt).
Proof.
  induction tables as [|t ts IH]; intros Hall Hsame; [reflexivity|].
  apply Forall_cons in Hall as [[tb Htb] Hall].
  cbn [check_schemas]. rewrite (bind_ok _ _ _ _ _ (get_columns_ok e t tb Htb)).
  rewrite <- (column_set_of e t tb Htb).
  destruct (decide (column_set e t ≠ reference_cols)) as [Hne|_].
  - exfalso. apply Hne, Hsame. left.
  - apply IH; [exact Hall|]. intros n Hn. apply Hsame. now right.
Qed.

Lemma mapM_lookup_table (c : connection) (names : list string) (tbs : list table) :
  Forall2 (fun n tb => catalog c !! n = Some tb) names tbs ->
  mapM (lookup_table c) names = Ok tbs.
Proof.
  induction 1 as [|n tb names tbs Hn _ IH]; [reflexivity|].
  cbn. rewrite IH. unfold lookup_table. rewrite Hn. reflexivity.
Qed.

(** Tables without repeated column names and with one set of names have
    one number of columns. *)
Lemma same_names_same_width (tb tb0 : table) :
  NoDup (column_names tb) -> NoDup (column_names tb0) ->
  (list_to_set (column_names tb) : gset string) = list_to_set (column_names tb0) ->
  length (columns tb) = length (columns tb0).
Proof.
  intros Hnd Hnd0 Hset.
  rewrite <- (length_map fst (columns tb)), <- (length_map fst (columns tb0)).
  fold (column_names tb) (column_names tb0).
  rewrite <- (size_list_to_set (C := gset string) _ Hnd).
  rewrite <- (size_list_to_set (C := gset string) _ Hnd0).
  now rewrite Hset.
Qed.

Lemma length_bind_rows {A B : Type} (f : A -> list B) (l : list A) :
  length (l ≫= f) = sum_list (map (fun x => length (f x)) l).
Proof.
  induction l as [|x l IH]; [reflexivity|].
  cbn. rewrite length_app, IH. reflexivity.
Qed.

(** The query over tables of one width gives as many rows as its operands
    have together. *)
Lemma select_union_all_rows (c : connection) (names : list string) (tbs : list table) :
  names <> [] ->
  Forall2 (fun n tb => catalog c !! n = Some tb) names tbs ->
  (forall tb tb', tb ∈ tbs -> tb' ∈ tbs -> length (columns tb) = length (columns tb')) ->
  exists out,
    select_union_all names c = Ok out
    /\ length (rows out) = sum_list (map (fun tb => length (rows tb)) tbs).
Proof.
  intros Hne Hall Hwidth. unfold select_union_all.
  rewrite (mapM_lookup_table c names tbs Hall). cbn.
  destruct tbs as [|tb0 rest].
  - inversion Hall. congruence.
  - assert (Hfa : forallb (fun tb => (length (columns tb) =? length (columns tb0))%nat) rest = true).
    { apply forallb_forall. intros tb Htb. apply Nat.eqb_eq.
      apply Hwidth; [right; now apply list_elem_of_In|left]. }
    rewrite Hfa. eexists. split; [reflexivity|].
    cbn [rows]. rewrite length_bind_rows. f_equal.
    apply map_ext. intros tb. apply length_map.
Qed.

(** C7: with [validate] on and two tables or more, a table whose column
    set differs from the first one's makes [union_tables] raise the
    mismatch with the names missing from it and the names it has in
    excess, and leaves the engine as it was; when all column sets are
    equal the union is written and has as many rows as its operands
    together. *)
Theorem union_validates_schemas :
  (forall (e : ReconEngine) (first : string) (rest : list string) (out : string),
      rest <> [] ->
      Forall (fun n => is_Some (table_of e n)) (first :: rest) ->
      (exists n, n ∈ rest /\ column_set e n <> column_set e first) ->
      exists before tbl after,
        rest = (before ++ tbl :: after)%list
        /\ Forall (fun n => column_set e n = column_set e first) before
        /\ column_set e tbl <> column_set e first
        /\ union_tables (first :: rest) out true e
           = (e, Raise (SchemaMismatch tbl
                          (column_set e first ∖ column_set e tbl)
                          (column_set e tbl ∖ column_set e first))))
  /\ (forall (e : ReconEngine) (names : list string) (out : string) (tbs : list table),
      names <> [] ->
      Forall2 (fun n tb => table_of e n = Some tb /\ NoDup (column_names tb)) names tbs ->
      (forall n m, n ∈ names -> m ∈ names -> column_set e n = column_set e m) ->
      exists e',
        union_tables names out true e = (e', Ok true)
        /\ row_count_of e' out = Some (sum_list (map (fun tb => length (rows tb)) tbs))
        /\ (forall n, n <> out -> table_of e' n = table_of e n)).
Proof.
  split.
  - intros e first rest out Hrest Hall Hdiff.
    apply Forall_cons in Hall as [[tb0 Htb0] Hall].
    destruct (check_schemas_mismatch e (column_set e first) rest Hall Hdiff)
      as (before & tbl & after & Hsplit & Hbefore & Hne & Hrun).
    exists before, tbl, after.
    split; [exact Hsplit|]. split; [exact Hbefore|]. split; [exact Hne|].
    unfold union_tables.
    assert (Hlen : (1 <? length (first :: rest))%nat = true).
    { destruct rest; [congruence|reflexivity]. }
    rewrite Hlen. cbn [andb].
    apply bind_raise. rewrite (bind_ok _ _ _ _ _ (get_columns_ok e first tb0 Htb0)).
    rewrite <- (column_set_of e first tb0 Htb0). exact Hrun.
  - intros e names out tbs Hne Hall Hsame.
    destruct names as [|first rest]; [congruence|].
    assert (Hex : Forall (fun n => is_Some (table_of e n)) (first :: rest)).
    { clear -Hall. induction Hall as [|n tb ns ts [Hn _] _ IH]; constructor; eauto. }
    pose proof Hex as Hex'. apply Forall_cons in Hex' as [[tb0 Htb0] Hrest].
    assert (Hcat : Forall2 (fun n tb => catalog (conn e) !! n = Some tb) (first :: rest) tbs).
    { clear -Hall. induction Hall as [|n tb ns ts [Hn _] _ IH]; constructor; eauto. }
    assert (Hwidth : forall tb tb', tb ∈ tbs -> tb' ∈ tbs ->
                                    length (columns tb) = length (columns tb')).
    { intros tb tb' Htb Htb'.
      destruct (proj1 (list_elem_of_lookup _ _) Htb) as [i Hi].
      destruct (proj1 (list_elem_of_lookup _ _) Htb') as [j Hj].
      destruct (Forall2_lookup_r _ _ _ _ _ Hall Hi) as (n & Hn & Hnt & Hnd).
      destruct (Forall2_lookup_r _ _ _ _ _ Hall Hj) as (m & Hm & Hmt & Hmd).
      apply same_names_same_width; [exact Hnd|exact Hmd|].
      rewrite <- (column_set_of e n tb Hnt), <- (column_set_of e m tb' Hmt).
      apply Hsame; eapply list_elem_of_lookup_2; eassumption. }
    destruct (select_union_all_rows (conn e) (first :: rest) tbs Hne Hcat Hwidth)
      as (tb & Hsel & Hlen).
    set (e' := mkEngine (create_or_replace out tb (conn e))
                 (_source_a_loaded e) (_source_b_loaded e)).
    exists e'. split; [|split].
    + unfold union_tables.
      assert (Hcheck : (cols ← get_columns first;
                        check_schemas (list_to_set cols) rest) e = (e, Ok tt)).
      { rewrite (bind_ok _ _ _ _ _ (get_columns_ok e first tb0 Htb0)).
        rewrite <- (column_set_of e first tb0 Htb0).
        apply check_schemas_ok; [exact Hrest|].
        intros n Hn. apply Hsame; [now right|left]. }
      assert (Hguard : (if (true && (1 <? length (first :: rest))%nat)%bool
                        then cols ← get_columns first;
                             check_schemas (list_to_set cols) rest
                        else mret tt) e = (e, Ok tt)).
      { destruct (true && (1 <? length (first :: rest))%nat)%bool;
          [exact Hcheck|reflexivity]. }
      rewrite (bind_ok _ _ _ _ _ Hguard).
      assert (Hexec : execute (fun c => tb ← select_union_all (first :: rest) c;
                                        Ok (create_or_replace out tb c)) e = (e', Ok tt)).
      { unfold execute. rewrite Hsel. reflexivity. }
      rewrite (bind_ok _ _ _ _ _ Hexec). reflexivity.
    + unfold row_count_of, table_of, e', create_or_replace, store_table. cbn [conn catalog].
      rewrite lookup_insert_eq. cbn. now rewrite Hlen.
    + intros n Hn. unfold table_of, e', create_or_replace, store_table. cbn [conn catalog].
      apply lookup_insert_ne. congruence.
Qed.

End Union.

Section UnionWitness.

Lemma union_validates_schemas_witness :
  (exists before tbl after,
      ["t2"; "t3"] = (before ++ tbl :: after)%list
      /\ Forall (fun n => column_set three_tables n = column_set three_tables "t1") before
      /\ column_set three_tables tbl <> column_set three_tables "t1"
      /\ union_tables ["t1"; "t2"; "t3"] "combined" true three_tables
         = (three_tables,
            Raise (SchemaMismatch tbl
                     (column_set three_tables "t1" ∖ column_set three_tables tbl)
                     (column_set three_tables tbl ∖ column_set three_tables "t1"))))
  /\ (exists e',
        union_tables ["t1"; "t2"] "combined" true three_tables = (e', Ok true)
        /\ row_count_of e' "combined"
           = Some (sum_list (map (fun tb => length (rows tb)) [ledger_a; ledger_b]))
        /\ (forall n, n <> "combined" -> table_of e' n = table_of three_tables n)).
Proof.
  split.
  - apply (proj1 union_validates_schemas three_tables "t1" ["t2"; "t3"] "combined").
    + discriminate.
    + repeat constructor; eexists; reflexivity.
    + exists "t3". split; [right; left|].
      apply (bool_decide_unpack _). vm_compute. exact I.
  - apply (proj2 union_validates_schemas three_tables ["t1"; "t2"] "combined"
             [ledger_a; ledger_b]).
    + discriminate.
    + repeat constructor; apply (bool_decide_unpack _); vm_compute; exact I.
    + intros n m Hn Hm.
      assert (Hall : forall k, k ∈ ["t1"; "t2"] ->
                               column_set three_tables k = column_set three_tables "t1").
      { intros k Hk. rewrite !elem_of_cons in Hk.
        destruct Hk as [->|[->|Hk]]; [reflexivity| |inversion Hk].
        apply (bool_decide_unpack _). vm_compute. exact I. }
      now rewrite (Hall n Hn), (Hall m Hm).
Defined.

End UnionWitness.

(** ** Filter: the operator [contains] *)

Section FilterContains.

Lemma append_cons (c : ascii) (s t : string) :
  String c s ++ t = String c (s ++ t).
Proof. reflexivity. Qed.

Lemma append_empty_l (t : string) : EmptyString ++ t = t.
Proof. reflexivity. Qed.

Lemma prefix_iff (v s : string) :
  String.prefix v s = true <-> exists post, s = v ++ post.
Proof.
  revert s. induction v as [|a v IH]; intros s.
  - split; [intros _; now exists s|]. intros _. now destruct s.
  - destruct s as [|b s]; cbn [String.prefix]; setoid_rewrite append_cons.
    + split; [discriminate|]. intros [post H]. discriminate H.
    + destruct (ascii_dec a b) as [->|Hne].
      * rewrite IH. split; intros [post H]; exists post; congruence.
      * split; [discriminate|]. intros [post H]. congruence.
Qed.

Lemma contains_sub_iff (v s : string) :
  contains_sub v s = true <-> is_substring v s.
Proof.
  unfold is_substring. induction s as [|c s IH]; cbn [contains_sub].
  - rewrite orb_false_r, prefix_iff. split.
    + intros [post H]. now exists EmptyString, post.
    + intros (pre & post & H). destruct pre as [|d pre].
      * now exists post.
      * rewrite append_cons in H. discriminate H.
  - rewrite orb_true_iff, prefix_iff, IH. split.
    + intros [[post H]|(pre & post & H)].
      * now exists EmptyString, post.
      * exists (String c pre), post. rewrite append_cons. now rewrite H.
    + intros (pre & post & H). destruct pre as [|d pre].
      * left. now exists post.
      * right. exists pre, post. rewrite append_cons in H. congruence.
Qed.

Lemma count_char_cons_zero (c a : ascii) (v : string) :
  count_char c (String a v) = O -> Ascii.eqb a c = false /\ count_char c v = O.
Proof.
  cbn [count_char]. destruct (Ascii.eqb a c); [discriminate|]. now split.
Qed.

(** A pattern without wildcards followed by [%] matches the texts that
    start with it. *)
Lemma like_literal_then_any (v s : string) :
  wildcard_free v -> sql_like (v ++ "%") s = String.prefix v s.
Proof.
  revert s. induction v as [|a v IH]; intros s [Hp Hu].
  - rewrite append_empty_l, like_any. now destruct s.
  - apply count_char_cons_zero in Hp as [Hap Hp].
    apply count_char_cons_zero in Hu as [Hau Hu].
    rewrite append_cons. cbn [sql_like]. rewrite Hap.
    destruct s as [|b s]; [reflexivity|].
    rewrite Hau. cbn [orb String.prefix].
    rewrite (IH s (conj Hp Hu)).
    destruct (ascii_dec a b) as [->|Hne].
    + now rewrite Ascii.eqb_refl.
    + apply Ascii.eqb_neq in Hne. now rewrite Hne.
Qed.

(** On an operand without wildcards the pattern that [contains] builds is
    the substring test. *)
Lemma like_contains_wildcard_free (v s : string) :
  wildcard_free v ->
  sql_like ("%" ++ v ++ "%") s = contains_sub v s.
Proof.
  intros Hv. induction s as [|c s IH].
  - change ("%" ++ v ++ "%") with (String "%" (v ++ "%")).
    rewrite like_percent, like_literal_then_any by exact Hv. reflexivity.
  - change ("%" ++ v ++ "%") with (String "%" (v ++ "%")) in *.
    rewrite like_percent, like_literal_then_any by exact Hv.
    cbn [contains_sub]. now rewrite IH.
Qed.

(** C6 fails on the code: with the operand [a_c] the row [abc] is kept
    although [a_c] does not occur in it, because the underscore reaches
    LIKE as a wildcard. *)
Theorem filter_contains_wildcard_operand :
  let e := engine_with "input_data" names_table in
  let r := filter_data "input_data" [contains_condition "name" "a_c"]
             "filtered_data" "OR" e in
  r.2 = Ok 2%nat
  /\ column_cells r.1 "filtered_data" "name" = Some [VText "abc"; VText "a_c"]
  /\ ~ is_substring "a_c" "abc".
Proof.
  intros e r. split; [reflexivity|]. split; [reflexivity|].
  rewrite <- contains_sub_iff. discriminate.
Qed.

End FilterContains.

(** ** Reconciliation: the five categories *)

Section ReconcileCategories.

Local Open Scope nat_scope.

Lemma create_table_from_sources_inv (out : string)
    (select : table -> table -> result table) (e e' : ReconEngine) (u : unit) :
  execute (create_table_from_sources out select) e = (e', Ok u) ->
  exists A B tb,
    table_of e "source_a" = Some A
    /\ table_of e "source_b" = Some B
    /\ select A B = Ok tb
    /\ table_of e' out = Some tb.
Proof.
  intros H. apply execute_ok_inv in H as (H & _ & _).
  unfold create_table_from_sources, lookup_table in H. unfold table_of.
  destruct (catalog (conn e) !! "source_a") as [A|]; [|discriminate H].
  destruct (catalog (conn e) !! "source_b") as [B|]; [|discriminate H].
  cbn in H. destruct (select A B) as [tb|err] eqn:Hsel; [|discriminate H].
  cbn in H. injection H as H. exists A, B, tb.
  split; [reflexivity|]. split; [reflexivity|]. split; [exact Hsel|].
  rewrite <- H. apply store_table_lookup.
Qed.

(** What a successful [reconcile] returns: the row counts of the five
    queries on the two sources as they were when it was called. *)
Lemma reconcile_summary (e e' : ReconEngine) (cfg : ReconConfig) (r : ReconResult)
    (A B : table) :
  reconcile cfg e = (e', Ok r) ->
  table_of e "source_a" = Some A ->
  table_of e "source_b" = Some B ->
  exists t1 t2 t3 t4 t5,
    select_exact_matches cfg A B = Ok t1
    /\ select_matches_with_date_note cfg A B = Ok t2
    /\ select_amount_variances cfg A B = Ok t3
    /\ select_missing cfg A B = Ok t4
    /\ select_missing cfg B A = Ok t5
    /\ r = mkReconResult cfg
             (mkReconSummary (length (rows t1)) (length (rows t2)) (length (rows t3))
                (length (rows t4)) (length (rows t5))).
Proof.
  intros H HA HB. unfold reconcile in H.
  step_ok H e0 s H0. unfold self in H0. injection H0 as <- <-.
  destruct (negb (_source_a_loaded e) || negb (_source_b_loaded e)); [discriminate H|].
  step_ok H e1 u1 H1. step_ok H e2 u2 H2. step_ok H e3 u3 H3.
  step_ok H e4 u4 H4. step_ok H e5 u5 H5.
  step_ok H e6 n1 G1. apply get_row_count_inv in G1 as [-> G1].
  step_ok H e7 n2 G2. apply get_row_count_inv in G2 as [-> G2].
  step_ok H e8 n3 G3. apply get_row_count_inv in G3 as [-> G3].
  step_ok H e9 n4 G4. apply get_row_count_inv in G4 as [-> G4].
  step_ok H e10 n5 G5. apply get_row_count_inv in G5 as [-> G5].
  injection H as _ <-.
  (* the sources stay what they were through the five statements *)
  pose proof (create_table_from_sources_frame _ _ _ _ _ "source_a" H1 ltac:(discriminate)) as A1.
  pose proof (create_table_from_sources_frame _ _ _ _ _ "source_b" H1 ltac:(discriminate)) as B1.
  pose proof (create_table_from_sources_frame _ _ _ _ _ "source_a" H2 ltac:(discriminate)) as A2.
  pose proof (create_table_from_sources_frame _ _ _ _ _ "source_b" H2 ltac:(discriminate)) as B2.
  pose proof (create_table_from_sources_frame _ _ _ _ _ "source_a" H3 ltac:(discriminate)) as A3.
  pose proof (create_table_from_sources_frame _ _ _ _ _ "source_b" H3 ltac:(discriminate)) as B3.
  pose proof (create_table_from_sources_frame _ _ _ _ _ "source_a" H4 ltac:(discriminate)) as A4.
  pose proof (create_table_from_sources_frame _ _ _ _ _ "source_b" H4 ltac:(discriminate)) as B4.
  rewrite HA in A1. rewrite HB in B1. rewrite A1 in A2. rewrite B1 in B2.
  rewrite A2 in A3. rewrite B2 in B3. rewrite A3 in A4. rewrite B3 in B4.
  (* each statement wrote the table of its query *)
  destruct (create_table_from_sources_inv _ _ _ _ _ H1) as (A' & B' & t1 & HA' & HB' & S1 & T1).
  rewrite HA in HA'. rewrite HB in HB'. injection HA' as <-. injection HB' as <-.
  destruct (create_table_from_sources_inv _ _ _ _ _ H2) as (A' & B' & t2 & HA' & HB' & S2 & T2).
  rewrite A1 in HA'. rewrite B1 in HB'. injection HA' as <-. injection HB' as <-.
  destruct (create_table_from_sources_inv _ _ _ _ _ H3) as (A' & B' & t3 & HA' & HB' & S3 & T3).
  rewrite A2 in HA'. rewrite B2 in HB'. injection HA' as <-. injection HB' as <-.
  destruct (create_table_from_sources_inv _ _ _ _ _ H4) as (A' & B' & t4 & HA' & HB' & S4 & T4).
  rewrite A3 in HA'. rewrite B3 in HB'. injection HA' as <-. injection HB' as <-.
  destruct (create_table_from_sources_inv _ _ _ _ _ H5) as (A' & B' & t5 & HA' & HB' & S5 & T5).
  rewrite A4 in HA'. rewrite B4 in HB'. injection HA' as <-. injection HB' as <-.
  (* and the later statements left it alone *)
  assert (C1 : table_of e5 "exact_matches" = Some t1).
  { rewrite (create_table_from_sources_frame _ _ _ _ _ "exact_matches" H5 ltac:(discriminate)).
    rewrite (create_table_from_sources_frame _ _ _ _ _ "exact_matches" H4 ltac:(discriminate)).
    rewrite (create_table_from_sources_frame _ _ _ _ _ "exact_matches" H3 ltac:(discriminate)).
    now rewrite (create_table_from_sources_frame _ _ _ _ _ "exact_matches" H2 ltac:(discriminate)). }
  assert (C2 : table_of e5 "matches_with_date_note" = Some t2).
  { rewrite (create_table_from_sources_frame _ _ _ _ _ "matches_with_date_note" H5 ltac:(discriminate)).
    rewrite (create_table_from_sources_frame _ _ _ _ _ "matches_with_date_note" H4 ltac:(discriminate)).
    now rewrite (create_table_from_sources_frame _ _ _ _ _ "matches_with_date_note" H3 ltac:(discriminate)). }
  assert (C3 : table_of e5 "amount_variances" = Some t3).
  { rewrite (create_table_from_sources_frame _ _ _ _ _ "amount_variances" H5 ltac:(discriminate)).
    now rewrite (create_table_from_sources_frame _ _ _ _ _ "amount_variances" H4 ltac:(discriminate)). }
  assert (C4 : table_of e5 "missing_in_b" = Some t4).
  { now rewrite (create_table_from_sources_frame _ _ _ _ _ "missing_in_b" H5 ltac:(discriminate)). }
  unfold row_count_of in G1, G2, G3, G4, G5.
  rewrite C1 in G1. rewrite C2 in G2. rewrite C3 in G3. rewrite C4 in G4. rewrite T5 in G5.
  cbn in G1, G2, G3, G4, G5.
  injection G1 as <-. injection G2 as <-. injection G3 as <-.
  injection G4 as <-. injection G5 as <-.
  exists t1, t2, t3, t4, t5. repeat split; assumption.
Qed.

Lemma bind_key_inv (cfg : ReconConfig) (L R : table) (kl kr : nat) (ty : sqltype) :
  bind_key cfg L R = Ok (kl, kr, ty) ->
  resolve (match_key cfg) (columns L) = Ok (kl, ty)
  /\ exists ty', resolve (match_key cfg) (columns R) = Ok (kr, ty').
Proof.
  unfold bind_key.
  destruct (resolve (match_key cfg) (columns L)) as [[kl' tl]|]; [|discriminate].
  destruct (resolve (match_key cfg) (columns R)) as [[kr' tr]|]; [|discriminate].
  cbn. destruct (comparable tl tr); [|discriminate].
  intros H. injection H as -> -> ->. split; [reflexivity|]. now exists tr.
Qed.

Lemma comparable_sym (a b : sqltype) : comparable a b = comparable b a.
Proof. now destruct a, b. Qed.

Lemma bind_key_sym (cfg : ReconConfig) (L R : table) (kl kr : nat) (ty : sqltype) :
  bind_key cfg L R = Ok (kl, kr, ty) ->
  exists ty', bind_key cfg R L = Ok (kr, kl, ty').
Proof.
  unfold bind_key.
  destruct (resolve (match_key cfg) (columns L)) as [[kl' tl]|]; [|discriminate].
  destruct (resolve (match_key cfg) (columns R)) as [[kr' tr]|]; [|discriminate].
  cbn. rewrite (comparable_sym tr tl).
  destruct (comparable tl tr); [|discriminate].
  intros H. injection H as -> -> ->. now exists tr.
Qed.

(** The binding of the variance statement is the binding of the other
    two, and all three join on the resolved key. *)
Lemma bind_matched_inv (cfg : ReconConfig) (A B : table) (bc : bound_columns) :
  bind_matched cfg true A B = Ok bc ->
  bind_matched cfg false A B = Ok bc
  /\ bind_key cfg A B = Ok (key_a bc, key_b bc, key_ty bc).
Proof.
  unfold bind_matched.
  destruct (bind_key cfg A B) as [[[ka kb] tk]|]; [|discriminate]. cbn.
  destruct (resolve (date_col_a cfg) (columns A)) as [[da tda]|]; [|discriminate]. cbn.
  destruct (resolve (date_col_b cfg) (columns B)) as [[db tdb]|]; [|discriminate]. cbn.
  destruct (resolve (amount_col_a cfg) (columns A)) as [[aa taa]|]; [|discriminate]. cbn.
  destruct (resolve (amount_col_b cfg) (columns B)) as [[ab tab]|]; [|discriminate]. cbn.
  destruct (desc_select (description_col_a cfg) (columns A)) as [[tsa fa]|]; [|discriminate]. cbn.
  destruct (desc_select (description_col_b cfg) (columns B)) as [[tsb fb]|]; [|discriminate]. cbn.
  destruct (comparable tda tdb); cbn; [|discriminate].
  destruct (is_numeric taa && is_numeric tab); [|discriminate].
  intros H. injection H as <-. split; reflexivity.
Qed.

(** No joined pair is in two of the first three tables, NULLs or not. *)
Lemma categories_exclusive (tol : Q) (bc : bound_columns) (p : row * row) :
  let exact := fires (and3 (dates_equal bc p) (within_tolerance tol bc p)) in
  let note := fires (and3 (dates_differ bc p) (within_tolerance tol bc p)) in
  let var := fires (outside_tolerance tol bc p) in
  (exact && note = false) /\ (exact && var = false) /\ (note && var = false).
Proof.
  unfold dates_differ, dates_equal, within_tolerance, outside_tolerance, sql_ne, sql_le.
  destruct (sql_eq (cell (dt_a bc) p.1) (cell (dt_b bc) p.2)) as [[|]|];
    destruct (sql_gt (variance bc p) (VReal tol)) as [[|]|]; cbn; repeat split.
Qed.

(** A joined pair whose dates and amounts can be compared is in one of
    the first three tables. *)
Lemma categories_exhaustive (tol : Q) (bc : bound_columns) (p : row * row) :
  is_Some (dates_equal bc p) ->
  is_Some (within_tolerance tol bc p) ->
  let exact := fires (and3 (dates_equal bc p) (within_tolerance tol bc p)) in
  let note := fires (and3 (dates_differ bc p) (within_tolerance tol bc p)) in
  let var := fires (outside_tolerance tol bc p) in
  (if exact then 1 else 0) + (if note then 1 else 0) + (if var then 1 else 0) = 1.
Proof.
  unfold dates_differ, dates_equal, within_tolerance, outside_tolerance, sql_ne, sql_le.
  destruct (sql_eq (cell (dt_a bc) p.1) (cell (dt_b bc) p.2)) as [[|]|];
    destruct (sql_gt (variance bc p) (VReal tol)) as [[|]|]; cbn;
    intros [x Hx] [y Hy]; try discriminate; reflexivity.
Qed.

Lemma length_filter_count {A : Type} (f : A -> bool) (l : list A) :
  length (filter (fun x => f x = true) l)
  = sum_list (map (fun x => if f x then 1 else 0) l).
Proof.
  induction l as [|x l IH]; [reflexivity|].
  rewrite filter_cons. cbn [map sum_list]. destruct (decide (f x = true)) as [Hx|Hx].
  - rewrite Hx. cbn [length]. now rewrite IH.
  - apply not_true_is_false in Hx. now rewrite Hx.
Qed.

Lemma three_way_count {A : Type} (f g h : A -> bool) (l : list A) :
  (forall x, x ∈ l ->
     (if f x then 1 else 0) + (if g x then 1 else 0) + (if h x then 1 else 0) = 1) ->
  length (filter (fun x => f x = true) l)
  + length (filter (fun x => g x = true) l)
  + length (filter (fun x => h x = true) l)
  = length l.
Proof.
  rewrite !length_filter_count.
  induction l as [|x l IH]; intros Hone; [reflexivity|].
  cbn [map length].
  rewrite !(fun a k => eq_refl : sum_list (a :: k) = a + sum_list k).
  pose proof (Hone x ltac:(left)) as Hx.
  assert (IH' := IH (fun y Hy => Hone y ltac:(right; exact Hy))). lia.
Qed.

Lemma sql_eq_fires_not_null (a b : value) :
  fires (sql_eq a b) = true -> sql_is_null b = false.
Proof.
  destruct b; [|reflexivity..]. unfold sql_eq, sql_compare. now destruct a.
Qed.

Lemma filter_nil_forall {A : Type} (f : A -> bool) (l : list A) :
  filter (fun x => f x = true) l = [] <-> Forall (fun x => f x = false) l.
Proof.
  induction l as [|x l IH]; [split; [constructor|reflexivity]|].
  rewrite filter_cons, Forall_cons. destruct (decide (f x = true)) as [Hx|Hx].
  - split; [discriminate|]. intros [H _]. congruence.
  - apply not_true_is_false in Hx. rewrite IH. tauto.
Qed.

(** The rows [select_missing] keeps are the rows without a partner. *)
Lemma left_join_missing (kl kr : nat) (L R : list row) :
  map fst
    (filter (fun p : row * option row =>
               sql_is_null (match p.2 with
                            | Some r => cell kr r
                            | None => VNull
                            end) = true)
       (left_join kl kr L R))
  = unmatched kl kr L R.
Proof.
  unfold unmatched, left_join. induction L as [|l L IH]; [reflexivity|].
  rewrite bind_cons, filter_app, map_app, IH, filter_cons. f_equal.
  destruct (filter (fun r => fires (sql_eq (cell kl l) (cell kr r)) = true) R)
    as [|r0 rs] eqn:Hpartners.
  - apply filter_nil_forall in Hpartners.
    destruct (decide (Forall (fun r => fires (sql_eq (cell kl l) (cell kr r)) = false) R));
      [reflexivity|contradiction].
  - assert (Hall : Forall (fun r => fires (sql_eq (cell kl l) (cell kr r)) = true) (r0 :: rs)).
    { rewrite <- Hpartners. apply Forall_forall. intros r Hr.
      now apply list_elem_of_filter in Hr as [Hr _]. }
    assert (Hnone : ~ Forall (fun r => fires (sql_eq (cell kl l) (cell kr r)) = false) R).
    { intros Hno. apply filter_nil_forall in Hno. congruence. }
    destruct (decide (Forall (fun r => fires (sql_eq (cell kl l) (cell kr r)) = false) R));
      [contradiction|].
    clear Hpartners. induction Hall as [|r rs' Hr _ IHrs]; [reflexivity|].
    cbn [map]. rewrite filter_cons. cbn [snd].
    rewrite (sql_eq_fires_not_null _ _ Hr).
    destruct (decide (false = true)); [discriminate|]. exact IHrs.
Qed.

(** Where the code meets C1: after a successful [reconcile], if the dates
    and the amounts of every joined pair can be compared (none is NULL),
    the first three counts add up to the number of joined pairs; and in
    any case the two missing tables count the rows without a partner. *)
Lemma reconcile_partition_without_nulls (e e' : ReconEngine) (cfg : ReconConfig)
    (r : ReconResult) (A B : table) (bc : bound_columns) :
  reconcile cfg e = (e', Ok r) ->
  table_of e "source_a" = Some A ->
  table_of e "source_b" = Some B ->
  bind_matched cfg true A B = Ok bc ->
  let pairs := inner_join (key_a bc) (key_b bc) (rows A) (rows B) in
  (missing_in_b (summary r) = length (unmatched (key_a bc) (key_b bc) (rows A) (rows B))
   /\ missing_in_a (summary r) = length (unmatched (key_b bc) (key_a bc) (rows B) (rows A)))
  /\ ((forall p, p ∈ pairs ->
         is_Some (dates_equal bc p)
         /\ is_Some (within_tolerance (amount_tolerance cfg) bc p)) ->
      exact_matches (summary r) + matches_with_date_note (summary r)
      + amount_variances (summary r) = length pairs).
Proof.
  intros Hrun HA HB Hbind pairs.
  destruct (reconcile_summary e e' cfg r A B Hrun HA HB)
    as (t1 & t2 & t3 & t4 & t5 & S1 & S2 & S3 & S4 & S5 & ->).
  destruct (bind_matched_inv cfg A B bc Hbind) as [Hbind' Hkey].
  destruct (bind_key_inv cfg A B _ _ _ Hkey) as [HkA [tyB HkB]].
  cbn [summary missing_in_b missing_in_a exact_matches matches_with_date_note amount_variances].
  split; [split|].
  - unfold select_missing in S4. rewrite Hkey in S4. cbn in S4. injection S4 as <-.
    cbn [rows]. now rewrite left_join_missing.
  - unfold select_missing in S5.
    destruct (bind_key cfg B A) as [[[kl kr] ty]|] eqn:Hkey'; [|discriminate S5].
    destruct (bind_key_inv cfg B A _ _ _ Hkey') as [HkB' [tyA HkA']].
    rewrite HkB in HkB'. rewrite HkA in HkA'.
    injection HkB' as <- _. injection HkA' as <- _.
    cbn in S5. injection S5 as <-. cbn [rows]. now rewrite left_join_missing.
  - intros Hcomparable.
    unfold select_exact_matches in S1. rewrite Hbind in S1. cbn in S1. injection S1 as <-.
    unfold select_matches_with_date_note in S2. rewrite Hbind in S2. cbn in S2.
    injection S2 as <-.
    unfold select_amount_variances in S3. rewrite Hbind' in S3. cbn in S3.
    injection S3 as <-.
    cbn [rows]. rewrite !length_map. fold pairs.
    apply (three_way_count
             (fun p => fires (and3 (dates_equal bc p)
                                (within_tolerance (amount_tolerance cfg) bc p)))
             (fun p => fires (and3 (dates_differ bc p)
                                (within_tolerance (amount_tolerance cfg) bc p)))
             (fun p => fires (outside_tolerance (amount_tolerance cfg) bc p))).
    intros p Hp. destruct (Hcomparable p Hp) as [Hd Hw].
    exact (categories_exhaustive (amount_tolerance cfg) bc p Hd Hw).
Qed.

Lemma table_of_with_table (e : ReconEngine) (name n : string) (tb : table) :
  table_of (with_table e name tb) n
  = if decide (name = n) then Some tb else table_of e n.
Proof.
  unfold table_of, with_table, store_table. cbn [conn catalog].
  destruct (decide (name = n)) as [->|Hne].
  - apply lookup_insert_eq.
  - now apply lookup_insert_ne.
Qed.

Lemma create_table_from_sources_step {X : Type} (out : string)
    (select : table -> table -> result table) (k : unit -> M X)
    (e : ReconEngine) (A B tb : table) :
  table_of e "source_a" = Some A ->
  table_of e "source_b" = Some B ->
  select A B = Ok tb ->
  (execute (create_table_from_sources out select) ≫= k) e = k tt (with_table e out tb).
Proof.
  intros HA HB Hsel. apply execute_step.
  unfold create_table_from_sources, lookup_table. unfold table_of in HA, HB.
  rewrite HA, HB. cbn. rewrite Hsel. reflexivity.
Qed.

(** [reconcile] does return once both sources are loaded and the columns
    of the configuration bind. *)
Lemma reconcile_succeeds (e : ReconEngine) (cfg : ReconConfig) (A B : table)
    (bc : bound_columns) :
  _source_a_loaded e = true ->
  _source_b_loaded e = true ->
  table_of e "source_a" = Some A ->
  table_of e "source_b" = Some B ->
  bind_matched cfg true A B = Ok bc ->
  exists e' r, reconcile cfg e = (e', Ok r).
Proof.
  intros Fa Fb HA HB Hbind.
  destruct (bind_matched_inv cfg A B bc Hbind) as [Hbind' Hkey].
  destruct (bind_key_sym cfg A B _ _ _ Hkey) as [ty' Hkey'].
  assert (S1 : exists t, select_exact_matches cfg A B = Ok t)
    by (unfold select_exact_matches; rewrite Hbind; eexists; reflexivity).
  assert (S2 : exists t, select_matches_with_date_note cfg A B = Ok t)
    by (unfold select_matches_with_date_note; rewrite Hbind; eexists; reflexivity).
  assert (S3 : exists t, select_amount_variances cfg A B = Ok t)
    by (unfold select_amount_variances; rewrite Hbind'; eexists; reflexivity).
  assert (S4 : exists t, select_missing cfg A B = Ok t)
    by (unfold select_missing; rewrite Hkey; eexists; reflexivity).
  assert (S5 : exists t, select_missing cfg B A = Ok t)
    by (unfold select_missing; rewrite Hkey'; eexists; reflexivity).
  destruct S1 as [t1 S1], S2 as [t2 S2], S3 as [t3 S3], S4 as [t4 S4], S5 as [t5 S5].
  unfold reconcile.
  rewrite (bind_ok self _ e e e eq_refl). rewrite Fa, Fb. cbn [negb orb].
  set (e1 := with_table e "exact_matches" t1).
  set (e2 := with_table e1 "matches_with_date_note" t2).
  set (e3 := with_table e2 "amount_variances" t3).
  set (e4 := with_table e3 "missing_in_b" t4).
  set (e5 := with_table e4 "missing_in_a" t5).
  rewrite (create_table_from_sources_step _ _ _ e A B t1 HA HB S1). fold e1.
  assert (HA1 : table_of e1 "source_a" = Some A)
    by (unfold e1; rewrite table_of_with_table; exact HA).
  assert (HB1 : table_of e1 "source_b" = Some B)
    by (unfold e1; rewrite table_of_with_table; exact HB).
  rewrite (create_table_from_sources_step _ _ _ e1 A B t2 HA1 HB1 S2). fold e2.
  assert (HA2 : table_of e2 "source_a" = Some A)
    by (unfold e2; rewrite table_of_with_table; exact HA1).
  assert (HB2 : table_of e2 "source_b" = Some B)
    by (unfold e2; rewrite table_of_with_table; exact HB1).
  rewrite (create_table_from_sources_step _ _ _ e2 A B t3 HA2 HB2 S3). fold e3.
  assert (HA3 : table_of e3 "source_a" = Some A)
    by (unfold e3; rewrite table_of_with_table; exact HA2).
  assert (HB3 : table_of e3 "source_b" = Some B)
    by (unfold e3; rewrite table_of_with_table; exact HB2).
  rewrite (create_table_from_sources_step _ _ _ e3 A B t4 HA3 HB3 S4). fold e4.
  assert (HA4 : table_of e4 "source_a" = Some A)
    by (unfold e4; rewrite table_of_with_table; exact HA3).
  assert (HB4 : table_of e4 "source_b" = Some B)
    by (unfold e4; rewrite table_of_with_table; exact HB3).
  rewrite (create_table_from_sources_step _ _ _ e4 A B t5 HA4 HB4 S5). fold e5.
  assert (C1 : row_count_of e5 "exact_matches" = Some (length (rows t1)))
    by (unfold row_count_of, e5, e4, e3, e2, e1; now rewrite !table_of_with_table).
  assert (C2 : row_count_of e5 "matches_with_date_note" = Some (length (rows t2)))
    by (unfold row_count_of, e5, e4, e3, e2; now rewrite !table_of_with_table).
  assert (C3 : row_count_of e5 "amount_variances" = Some (length (rows t3)))
    by (unfold row_count_of, e5, e4, e3; now rewrite !table_of_with_table).
  assert (C4 : row_count_of e5 "missing_in_b" = Some (length (rows t4)))
    by (unfold row_count_of, e5, e4; now rewrite !table_of_with_table).
  assert (C5 : row_count_of e5 "missing_in_a" = Some (length (rows t5)))
    by (unfold row_count_of, e5; now rewrite !table_of_with_table).
  rewrite (bind_ok _ _ _ _ _ (get_row_count_ok _ _ _ C1)).
  rewrite (bind_ok _ _ _ _ _ (get_row_count_ok _ _ _ C2)).
  rewrite (bind_ok _ _ _ _ _ (get_row_count_ok _ _ _ C3)).
  rewrite (bind_ok _ _ _ _ _ (get_row_count_ok _ _ _ C4)).
  rewrite (bind_ok _ _ _ _ _ (get_row_count_ok _ _ _ C5)).
  eexists _, _. reflexivity.
Qed.

(** C1 fails on the code: both keys of the sample join, one pair has a
    NULL date and the other a NULL amount, and all five tables stay
    empty; neither pair is counted anywhere. *)
Theorem reconcile_drops_pairs_with_null :
  let e := both_loaded ledger_a_nulls ledger_b_nulls in
  let r := reconcile ledger_config e in
  r.2 = Ok (mkReconResult ledger_config (mkReconSummary 0 0 0 0 0))
  /\ length (inner_join 0 0 (rows ledger_a_nulls) (rows ledger_b_nulls)) = 2.
Proof.
  intros e r. split; reflexivity.
Qed.

End ReconcileCategories.

(** ** Reconciliation: what a run writes *)

Section ReconcileRun.

Local Open Scope nat_scope.

(** The five statements of a run whose columns bind, one after the other. *)
Lemma reconcile_run (e : ReconEngine) (cfg : ReconConfig) (A B : table)
    (bc : bound_columns) :
  _source_a_loaded e = true ->
  _source_b_loaded e = true ->
  table_of e "source_a" = Some A ->
  table_of e "source_b" = Some B ->
  bind_matched cfg true A B = Ok bc ->
  exists t1 t2 t3 t4 t5,
    select_exact_matches cfg A B = Ok t1
    /\ select_matches_with_date_note cfg A B = Ok t2
    /\ select_amount_variances cfg A B = Ok t3
    /\ select_missing cfg A B = Ok t4
    /\ select_missing cfg B A = Ok t5
    /\ reconcile cfg e
       = (with_table
            (with_table
               (with_table
                  (with_table (with_table e "exact_matches" t1)
                     "matches_with_date_note" t2)
                  "amount_variances" t3)
               "missing_in_b" t4)
            "missing_in_a" t5,
          Ok (mkReconResult cfg
                (mkReconSummary (length (rows t1)) (length (rows t2)) (length (rows t3))
                   (length (rows t4)) (length (rows t5))))).
Proof.
  intros Fa Fb HA HB Hbind.
  destruct (bind_matched_inv cfg A B bc Hbind) as [Hbind' Hkey].
  destruct (bind_key_sym cfg A B _ _ _ Hkey) as [ty' Hkey'].
  assert (S1 : exists t, select_exact_matches cfg A B = Ok t)
    by (unfold select_exact_matches; rewrite Hbind; eexists; reflexivity).
  assert (S2 : exists t, select_matches_with_date_note cfg A B = Ok t)
    by (unfold select_matches_with_date_note; rewrite Hbind; eexists; reflexivity).
  assert (S3 : exists t, select_amount_variances cfg A B = Ok t)
    by (unfold select_amount_variances; rewrite Hbind'; eexists; reflexivity).
  assert (S4 : exists t, select_missing cfg A B = Ok t)
    by (unfold select_missing; rewrite Hkey; eexists; reflexivity).
  assert (S5 : exists t, select_missing cfg B A = Ok t)
    by (unfold select_missing; rewrite Hkey'; eexists; reflexivity).
  destruct S1 as [t1 S1], S2 as [t2 S2], S3 as [t3 S3], S4 as [t4 S4], S5 as [t5 S5].
  exists t1, t2, t3, t4, t5.
  split; [exact S1|]. split; [exact S2|]. split; [exact S3|].
  split; [exact S4|]. split; [exact S5|].
  unfold reconcile.
  rewrite (bind_ok self _ e e e eq_refl). rewrite Fa, Fb. cbn [negb orb].
  set (e1 := with_table e "exact_matches" t1).
  set (e2 := with_table e1 "matches_with_date_note" t2).
  set (e3 := with_table e2 "amount_variances" t3).
  set (e4 := with_table e3 "missing_in_b" t4).
  set (e5 := with_table e4 "missing_in_a" t5).
  rewrite (create_table_from_sources_step _ _ _ e A B t1 HA HB S1). fold e1.
  assert (HA1 : table_of e1 "source_a" = Some A)
    by (unfold e1; rewrite table_of_with_table; exact HA).
  assert (HB1 : table_of e1 "source_b" = Some B)
    by (unfold e1; rewrite table_of_with_table; exact HB).
  rewrite (create_table_from_sources_step _ _ _ e1 A B t2 HA1 HB1 S2). fold e2.
  assert (HA2 : table_of e2 "source_a" = Some A)
    by (unfold e2; rewrite table_of_with_table; exact HA1).
  assert (HB2 : table_of e2 "source_b" = Some B)
    by (unfold e2; rewrite table_of_with_table; exact HB1).
  rewrite (create_table_from_sources_step _ _ _ e2 A B t3 HA2 HB2 S3). fold e3.
  assert (HA3 : table_of e3 "source_a" = Some A)
    by (unfold e3; rewrite table_of_with_table; exact HA2).
  assert (HB3 : table_of e3 "source_b" = Some B)
    by (unfold e3; rewrite table_of_with_table; exact HB2).
  rewrite (create_table_from_sources_step _ _ _ e3 A B t4 HA3 HB3 S4). fold e4.
  assert (HA4 : table_of e4 "source_a" = Some A)
    by (unfold e4; rewrite table_of_with_table; exact HA3).
  assert (HB4 : table_of e4 "source_b" = Some B)
    by (unfold e4; rewrite table_of_with_table; exact HB3).
  rewrite (create_table_from_sources_step _ _ _ e4 A B t5 HA4 HB4 S5). fold e5.
  assert (C1 : row_count_of e5 "exact_matches" = Some (length (rows t1)))
    by (unfold row_count_of, e5, e4, e3, e2, e1; now rewrite !table_of_with_table).
  assert (C2 : row_count_of e5 "matches_with_date_note" = Some (length (rows t2)))
    by (unfold row_count_of, e5, e4, e3, e2; now rewrite !table_of_with_table).
  assert (C3 : row_count_of e5 "amount_variances" = Some (length (rows t3)))
    by (unfold row_count_of, e5, e4, e3; now rewrite !table_of_with_table).
  assert (C4 : row_count_of e5 "missing_in_b" = Some (length (rows t4)))
    by (unfold row_count_of, e5, e4; now rewrite !table_of_with_table).
  assert (C5 : row_count_of e5 "missing_in_a" = Some (length (rows t5)))
    by (unfold row_count_of, e5; now rewrite !table_of_with_table).
  rewrite (bind_ok _ _ _ _ _ (get_row_count_ok _ _ _ C1)).
  rewrite (bind_ok _ _ _ _ _ (get_row_count_ok _ _ _ C2)).
  rewrite (bind_ok _ _ _ _ _ (get_row_count_ok _ _ _ C3)).
  rewrite (bind_ok _ _ _ _ _ (get_row_count_ok _ _ _ C4)).
  rewrite (bind_ok _ _ _ _ _ (get_row_count_ok _ _ _ C5)).
  reflexivity.
Qed.

Lemma select_exact_matches_binds (cfg : ReconConfig) (A B t : table) :
  select_exact_matches cfg A B = Ok t ->
  exists bc, bind_matched cfg true A B = Ok bc.
Proof.
  unfold select_exact_matches.
  destruct (bind_matched cfg true A B) as [bc|err]; [|discriminate].
  intros _. now exists bc.
Qed.

(** The first statement of a run whose columns do not bind. *)
Lemma reconcile_bind_failure (e : ReconEngine) (cfg : ReconConfig) (A B : table)
    (err : error) :
  _source_a_loaded e = true ->
  _source_b_loaded e = true ->
  table_of e "source_a" = Some A ->
  table_of e "source_b" = Some B ->
  bind_matched cfg true A B = Raise err ->
  reconcile cfg e = (e, Raise err).
Proof.
  intros Fa Fb HA HB Hbind. unfold reconcile.
  rewrite (bind_ok self _ e e e eq_refl). rewrite Fa, Fb. cbn [negb orb].
  apply bind_raise. unfold execute, create_table_from_sources, lookup_table.
  unfold table_of in HA, HB. rewrite HA, HB. cbn.
  unfold select_exact_matches. rewrite Hbind. reflexivity.
Qed.



Lemma unmatched_null_key (kl kr : nat) (L R : list row) (l : row) :
  l ∈ L -> cell kl l = VNull -> l ∈ unmatched kl kr L R.
Proof.
  intros Hl Hnull. unfold unmatched. apply list_elem_of_filter. split; [|exact Hl].
  apply Forall_forall. intros r _. now rewrite Hnull.
Qed.

Lemma unmatched_has_no_partner (kl kr : nat) (L R : list row) (l r : row) :
  l ∈ unmatched kl kr L R -> r ∈ R -> fires (sql_eq (cell kl l) (cell kr r)) = false.
Proof.
  unfold unmatched. intros Hl Hr. apply list_elem_of_filter in Hl as [Hall _].
  rewrite Forall_forall in Hall. now apply Hall.
Qed.

(** X4: after a run, [missing_in_b] holds the columns of source A and
    exactly its rows whose key equals the key of no row of B, in their
    order, and [missing_in_a] likewise; a row with a NULL key is always
    among them, and a row that has a partner never is. *)
Theorem reconcile_missing_tables (e : ReconEngine) (cfg : ReconConfig) (A B : table)
    (bc : bound_columns) :
  _source_a_loaded e = true ->
  _source_b_loaded e = true ->
  table_of e "source_a" = Some A ->
  table_of e "source_b" = Some B ->
  bind_matched cfg true A B = Ok bc ->
  let e' := (reconcile cfg e).1 in
  let ka := key_a bc in
  let kb := key_b bc in
  table_of e' "missing_in_b" = Some (mkTable (columns A) (unmatched ka kb (rows A) (rows B)))
  /\ table_of e' "missing_in_a" = Some (mkTable (columns B) (unmatched kb ka (rows B) (rows A)))
  /\ (forall a, a ∈ rows A -> cell ka a = VNull -> a ∈ unmatched ka kb (rows A) (rows B))
  /\ (forall a b, a ∈ unmatched ka kb (rows A) (rows B) -> b ∈ rows B ->
                  fires (sql_eq (cell ka a) (cell kb b)) = false).
Proof.
  intros Fa Fb HA HB Hbind e' ka kb.
  destruct (reconcile_run e cfg A B bc Fa Fb HA HB Hbind)
    as (t1 & t2 & t3 & t4 & t5 & _ & _ & _ & S4 & S5 & Hrun).
  destruct (bind_matched_inv cfg A B bc Hbind) as [_ Hkey].
  destruct (bind_key_sym cfg A B _ _ _ Hkey) as [ty' Hkey'].
  unfold select_missing in S4, S5. rewrite Hkey in S4. rewrite Hkey' in S5.
  cbn in S4, S5. injection S4 as <-. injection S5 as <-.
  rewrite !left_join_missing in Hrun.
  unfold e'. rewrite Hrun. cbn [fst].
  split; [|split; [|split]].
  - now rewrite !table_of_with_table.
  - now rewrite !table_of_with_table.
  - intros a. apply unmatched_null_key.
  - intros a b. apply unmatched_has_no_partner.
Qed.

Lemma reconcile_missing_tables_witness :
  let e := both_loaded ledger_a ledger_b in
  let e' := (reconcile ledger_config e).1 in
  table_of e' "missing_in_b"
  = Some (mkTable ledger_columns (unmatched 0 0 (rows ledger_a) (rows ledger_b)))
  /\ unmatched 0 0 (rows ledger_a) (rows ledger_b)
     = [[VInt 2; VText "2024-01-05"; VReal 7]].
Proof.
  intros e e'. split; [|reflexivity].
  exact (proj1 (reconcile_missing_tables e ledger_config ledger_a ledger_b
                  (mkBound 0 0 BIGINT 1 1 VARCHAR VARCHAR 2 2 DOUBLE DOUBLE
                     (fun _ => VNull) (fun _ => VNull) INTEGER INTEGER)
                  eq_refl eq_refl eq_refl eq_refl eq_refl)).
Defined.

Lemma three_way_at_most {A : Type} (f g h : A -> bool) (l : list A) :
  (forall x, (if f x then 1 else 0) + (if g x then 1 else 0) + (if h x then 1 else 0) <= 1) ->
  length (filter (fun x => f x = true) l)
  + length (filter (fun x => g x = true) l)
  + length (filter (fun x => h x = true) l)
  <= length l.
Proof.
  intros Hone. rewrite !length_filter_count.
  induction l as [|x l IH]; [reflexivity|].
  cbn [map length].
  rewrite !(fun a k => eq_refl : sum_list (a :: k) = a + sum_list k).
  specialize (Hone x). lia.
Qed.



(** X1: when no joined pair has a NULL date or amount, the totals of the
    summary account for everything: [total_matched] and [total_unmatched]
    together are the number of joined pairs plus the rows of A without a
    partner plus the rows of B without a partner. *)
Theorem reconcile_totals_account_for_all (e e' : ReconEngine) (cfg : ReconConfig)
    (r : ReconResult) (A B : table) (bc : bound_columns) :
  reconcile cfg e = (e', Ok r) ->
  table_of e "source_a" = Some A ->
  table_of e "source_b" = Some B ->
  bind_matched cfg true A B = Ok bc ->
  (forall p, p ∈ inner_join (key_a bc) (key_b bc) (rows A) (rows B) ->
     is_Some (dates_equal bc p)
     /\ is_Some (within_tolerance (amount_tolerance cfg) bc p)) ->
  total_matched (summary r) + total_unmatched (summary r)
  = length (inner_join (key_a bc) (key_b bc) (rows A) (rows B))
    + length (unmatched (key_a bc) (key_b bc) (rows A) (rows B))
    + length (unmatched (key_b bc) (key_a bc) (rows B) (rows A)).
Proof.
  intros Hrun HA HB Hbind Hcomparable.
  destruct (reconcile_partition_without_nulls e e' cfg r A B bc Hrun HA HB Hbind)
    as [[Hb Ha] Hsum].
  specialize (Hsum Hcomparable).
  unfold total_matched, total_unmatched. lia.
Qed.

Lemma reconcile_totals_account_for_all_witness :
  let e := both_loaded ledger_a ledger_b in
  let out := reconcile ledger_config e in
  exists r,
    out.2 = Ok r
    /\ total_matched (summary r) + total_unmatched (summary r)
       = length (inner_join 0 0 (rows ledger_a) (rows ledger_b))
         + length (unmatched 0 0 (rows ledger_a) (rows ledger_b))
         + length (unmatched 0 0 (rows ledger_b) (rows ledger_a)).
Proof.
  intros e out.
  set (bc := mkBound 0 0 BIGINT 1 1 VARCHAR VARCHAR 2 2 DOUBLE DOUBLE
               (fun _ => VNull) (fun _ => VNull) INTEGER INTEGER).
  set (r := mkReconResult ledger_config (mkReconSummary 0 1 0 1 0)).
  exists r. split; [reflexivity|].
  apply (reconcile_totals_account_for_all e out.1 ledger_config r ledger_a ledger_b bc
           eq_refl eq_refl eq_refl eq_refl).
  intros p Hp. cbn in Hp. apply list_elem_of_singleton in Hp as ->.
  split; eexists; reflexivity.
Defined.

End ReconcileRun.

(** ** Filter *)

Section Filter.

Local Open Scope nat_scope.

Lemma filter_sublist_of_filter {A : Type} (f g : A -> bool) (l : list A) :
  (forall x, f x = true -> g x = true) ->
  filter (fun x => f x = true) l `sublist_of` filter (fun x => g x = true) l.
Proof.
  intros Himp. induction l as [|x l IH]; [constructor|].
  rewrite !filter_cons.
  destruct (decide (f x = true)) as [Hf|Hf].
  - destruct (decide (g x = true)) as [_|Hg]; [now constructor|].
    exfalso. apply Hg, Himp, Hf.
  - destruct (decide (g x = true)); [now constructor|exact IH].
Qed.

Lemma row_count_with_table (e : ReconEngine) (name : string) (tb : table) :
  row_count_of (with_table e name tb) name = Some (length (rows tb)).
Proof.
  unfold row_count_of. rewrite table_of_with_table.
  destruct (decide (name = name)); [reflexivity|congruence].
Qed.

Lemma select_where_inv (t : string) (parts : list where_part) (params : list param)
    (mode : string) (c : connection) (out : table) :
  select_where t parts params mode c = Ok out ->
  exists tb ps pred,
    catalog c !! t = Some tb
    /\ bind_where (columns tb) parts params = Ok ps
    /\ join_where mode ps = Ok pred
    /\ out = mkTable (columns tb) (filter (fun r => fires (pred r) = true) (rows tb)).
Proof.
  unfold select_where, lookup_table.
  destruct (catalog c !! t) as [tb|] eqn:Ht; [|discriminate]. cbn.
  destruct (bind_where (columns tb) parts params) as [ps|] eqn:Hb; [|discriminate]. cbn.
  destruct (join_where mode ps) as [pred|] eqn:Hj; [|discriminate]. cbn.
  intros H. injection H as <-. exists tb, ps, pred. repeat split; assumption.
Qed.

(** What [filter_data] leaves when it returns. *)
Lemma filter_data_inv (t : string) (conds : list FilterCondition) (out mode : string)
    (e e' : ReconEngine) (n : nat) :
  filter_data t conds out mode e = (e', Ok n) ->
  exists tb kept,
    table_of e t = Some tb
    /\ e' = with_table e out (mkTable (columns tb) kept)
    /\ n = length kept
    /\ ((conds = [] /\ kept = rows tb)
        \/ exists parts params ps pred,
             build_where conds = Ok (parts, params)
             /\ bind_where (columns tb) parts params = Ok ps
             /\ join_where mode ps = Ok pred
             /\ kept = filter (fun r => fires (pred r) = true) (rows tb)).
Proof.
  unfold filter_data. destruct conds as [|c conds].
  - intros H. step_ok H e1 u H1.
    apply get_row_count_inv in H as [-> Hn].
    unfold execute, lookup_table in H1.
    destruct (catalog (conn e) !! t) as [tb|] eqn:Ht; [|discriminate H1].
    cbn in H1. injection H1 as <-.
    exists tb, (rows tb). split; [exact Ht|]. split; [now destruct tb|].
    split; [|left; now split].
    unfold row_count_of, table_of, create_or_replace in Hn. cbn [conn] in Hn.
    rewrite store_table_lookup in Hn. cbn in Hn. now injection Hn as <-.
  - destruct (build_where (c :: conds)) as [[parts params]|err] eqn:Hb; [|discriminate].
    intros H. step_ok H e1 u H1.
    apply get_row_count_inv in H as [-> Hn].
    unfold execute in H1.
    destruct (select_where t parts params mode (conn e)) as [tb'|] eqn:Hs;
      [|discriminate H1].
    cbn in H1. injection H1 as <-.
    destruct (select_where_inv _ _ _ _ _ _ Hs) as (tb & ps & pred & Ht & Hbind & Hjoin & ->).
    exists tb, (filter (fun r => fires (pred r) = true) (rows tb)).
    split; [exact Ht|]. split; [reflexivity|]. split.
    + unfold row_count_of, table_of, create_or_replace in Hn. cbn [conn] in Hn.
      rewrite store_table_lookup in Hn. cbn in Hn. now injection Hn as <-.
    + right. exists parts, params, ps, pred. repeat split; assumption.
Qed.



Lemma and_fold_fires (r : row) (ps : list (row -> option bool)) (a : option bool) :
  fires (foldl (fun acc q => and3 acc (q r)) a ps) = true -> fires a = true.
Proof.
  revert a. induction ps as [|q ps IH]; intros a; cbn [foldl]; [easy|].
  intros H. apply IH in H. now destruct a as [[|]|], (q r) as [[|]|].
Qed.

Lemma or_fold_fires (r : row) (ps : list (row -> option bool)) (a : option bool) :
  fires a = true -> fires (foldl (fun acc q => or3 acc (q r)) a ps) = true.
Proof.
  revert a. induction ps as [|q ps IH]; intros a; cbn [foldl]; [easy|].
  intros H. apply IH. now destruct a as [[|]|], (q r) as [[|]|].
Qed.

(** Whatever passes all the conditions passes one of them. *)
Lemma join_where_and_or (ps : list (row -> option bool)) (pand : row -> option bool) :
  join_where "AND" ps = Ok pand ->
  exists por,
    join_where "OR" ps = Ok por
    /\ forall r, fires (pand r) = true -> fires (por r) = true.
Proof.
  destruct ps as [|p [|q ps]]; cbn; [discriminate| |].
  - intros H. injection H as <-. now exists p.
  - intros H. injection H as <-. eexists. split; [reflexivity|].
    intros r H. apply or_fold_fires. apply and_fold_fires in H.
    now destruct (p r) as [[|]|], (q r) as [[|]|].
Qed.

(** X6: for one list of conditions, every row that [filter_data] keeps in
    AND mode it keeps in OR mode: if the AND run returns, so does the OR
    run, with a count at least as large and the AND rows a sub-sequence
    of the OR rows. *)
Theorem filter_and_within_or (t : string) (conds : list FilterCondition) (out : string)
    (e e1 : ReconEngine) (n1 : nat) :
  filter_data t conds out "AND" e = (e1, Ok n1) ->
  exists e2 n2 cols rows1 rows2,
    filter_data t conds out "OR" e = (e2, Ok n2)
    /\ n1 <= n2
    /\ table_of e1 out = Some (mkTable cols rows1)
    /\ table_of e2 out = Some (mkTable cols rows2)
    /\ rows1 `sublist_of` rows2.
Proof.
  intros H.
  destruct (filter_data_inv _ _ _ _ _ _ _ H) as (tb & kept & Ht & -> & -> & Hkept).
  destruct Hkept as [[-> ->]|(parts & params & ps & pand & Hb & Hbind & Hjoin & ->)].
  - exists (with_table e out (mkTable (columns tb) (rows tb))), (length (rows tb)),
      (columns tb), (rows tb), (rows tb).
    split; [exact H|]. split; [reflexivity|].
    rewrite table_of_with_table. destruct (decide (out = out)); [|congruence].
    repeat split; reflexivity.
  - destruct (join_where_and_or ps pand Hjoin) as (por & Hor & Himp).
    set (rows2 := filter (fun r => fires (por r) = true) (rows tb)).
    assert (Hsub : filter (fun r => fires (pand r) = true) (rows tb) `sublist_of` rows2)
      by (apply filter_sublist_of_filter; exact Himp).
    exists (with_table e out (mkTable (columns tb) rows2)), (length rows2), (columns tb),
      (filter (fun r => fires (pand r) = true) (rows tb)), rows2.
    split; [|split; [now apply sublist_length|]].
    + unfold filter_data. destruct conds as [|c conds]; [cbn in Hb; injection Hb as <- <-;
        cbn in Hbind; injection Hbind as <-; discriminate Hjoin|].
      rewrite Hb.
      assert (Hsel : select_where t parts params "OR" (conn e)
                     = Ok (mkTable (columns tb) rows2)).
      { unfold select_where, lookup_table. unfold table_of in Ht. rewrite Ht. cbn.
        rewrite Hbind. cbn. rewrite Hor. reflexivity. }
      rewrite (execute_step _ _ e (store_table (conn e) out (mkTable (columns tb) rows2))).
      * apply get_row_count_ok. apply row_count_with_table.
      * now rewrite Hsel.
    + rewrite !table_of_with_table. destruct (decide (out = out)); [|congruence].
      split; [reflexivity|]. split; [reflexivity|exact Hsub].
Qed.

Lemma filter_and_within_or_witness :
  let e := engine_with "input_data" names_table in
  let conds := [contains_condition "name" "a"; contains_condition "name" "b"] in
  exists e1 e2 n2,
    filter_data "input_data" conds "filtered_data" "AND" e = (e1, Ok 1)
    /\ filter_data "input_data" conds "filtered_data" "OR" e = (e2, Ok n2)
    /\ 1 <= n2.
Proof.
  intros e conds.
  destruct (filter_and_within_or "input_data" conds "filtered_data" e _ 1 eq_refl)
    as (e2 & n2 & cols & rows1 & rows2 & Hor & Hle & _).
  eexists _, e2, n2. split; [reflexivity|]. split; assumption.
Defined.

(** The run of [filter_data] with one condition whose predicate binds. *)
Lemma filter_data_single (t out mode : string) (cond : FilterCondition)
    (part : where_part) (ps : list param) (pred : row -> option bool)
    (e : ReconEngine) (tb : table) :
  table_of e t = Some tb ->
  build_where [cond] = Ok ([part], ps) ->
  bind_where (columns tb) [part] ps = Ok [pred] ->
  filter_data t [cond] out mode e
  = (with_table e out (mkTable (columns tb) (filter (fun r => fires (pred r) = true) (rows tb))),
     Ok (length (filter (fun r => fires (pred r) = true) (rows tb)))).
Proof.
  intros Ht Hb Hbind. unfold filter_data. rewrite Hb.
  rewrite (execute_step _ _ e
             (store_table (conn e) out
                (mkTable (columns tb) (filter (fun r => fires (pred r) = true) (rows tb))))).
  - apply get_row_count_ok. apply row_count_with_table.
  - unfold select_where, lookup_table. unfold table_of in Ht. rewrite Ht.
    unfold mbind, result_bind. rewrite Hbind. reflexivity.
Qed.

(** X7: on a text column and an operand that holds neither [%] nor [_],
    the operator [contains] keeps exactly the rows whose cell is a text
    in which the operand occurs; rows with a NULL cell are dropped. *)
Theorem filter_contains_is_substring (t out mode col v : string) (i : nat)
    (e : ReconEngine) (tb : table) :
  table_of e t = Some tb ->
  resolve col (columns tb) = Ok (i, VARCHAR) ->
  wildcard_free v ->
  let kept := filter (fun r => cell_contains v (cell i r) = true) (rows tb) in
  filter_data t [contains_condition col v] out mode e
  = (with_table e out (mkTable (columns tb) kept), Ok (length kept))
  /\ (forall r, r ∈ kept <->
                r ∈ rows tb /\ exists s, cell i r = VText s /\ is_substring v s).
Proof.
  intros Ht Hres Hv kept.
  assert (Hkept : kept = filter (fun r => fires (like_cell (cell i r) (VText ("%" ++ v ++ "%")))
                                          = true) (rows tb)).
  { unfold kept. apply list_filter_iff. intros r. unfold cell_contains, like_cell.
    destruct (cell i r); try easy. cbn [fires].
    rewrite (like_contains_wildcard_free v s Hv). now destruct (contains_sub v s). }
  split.
  - rewrite Hkept.
    apply (filter_data_single t out mode _ (WLike col) [PValue (VText ("%" ++ v ++ "%"))]);
      [exact Ht|reflexivity|].
    cbn [bind_where]. rewrite Hres. reflexivity.
  - intros r. unfold kept. rewrite list_elem_of_filter. unfold cell_contains. split.
    + intros [Hc Hr]. split; [exact Hr|]. destruct (cell i r); try discriminate.
      exists s. split; [reflexivity|]. now apply contains_sub_iff.
    + intros [Hr (s & -> & Hs)]. split; [|exact Hr]. now apply contains_sub_iff.
Qed.

Lemma filter_contains_is_substring_witness :
  let e := engine_with "input_data" names_table in
  resolve "name" (columns names_table) = Ok (0, VARCHAR)
  /\ wildcard_free "bc"
  /\ filter_data "input_data" [contains_condition "name" "bc"] "filtered_data" "AND" e
     = (with_table e "filtered_data" (mkTable (columns names_table) [[VText "abc"]]), Ok 1).
Proof.
  intros e.
  assert (Hres : resolve "name" (columns names_table) = Ok (0, VARCHAR)) by reflexivity.
  assert (Hv : wildcard_free "bc") by (split; reflexivity).
  split; [exact Hres|]. split; [exact Hv|].
  exact (proj1 (filter_contains_is_substring "input_data" "filtered_data" "AND" "name" "bc" 0
                  e names_table eq_refl Hres Hv)).
Defined.

Lemma compare_int_cells (a b : Z) : sql_compare (VInt a) (VInt b) = Some (a ?= b)%Z.
Proof.
  unfold sql_compare, numeric_of, Qcompare, inject_Z. cbn [Qnum Qden].
  now rewrite !Z.mul_1_r.
Qed.

(** X8: on a numeric column, [between] with integer bounds keeps a row
    with an integer cell exactly when the cell lies between the bounds,
    both bounds included, and drops every row with a NULL cell. *)
Theorem filter_between_is_inclusive (t out mode col : string) (lo hi : Z) (i : nat)
    (ty : sqltype) (e : ReconEngine) (tb : table) :
  table_of e t = Some tb ->
  resolve col (columns tb) = Ok (i, ty) ->
  is_numeric ty = true ->
  exists kept,
    filter_data t [between_condition col lo hi] out mode e
    = (with_table e out (mkTable (columns tb) kept), Ok (length kept))
    /\ (forall r z, r ∈ rows tb -> cell i r = VInt z ->
                    (r ∈ kept <-> (lo <= z <= hi)%Z))
    /\ (forall r, cell i r = VNull -> r ∉ kept).
Proof.
  intros Ht Hres Hnum.
  set (pred := fun r : row => and3 (sql_ge (cell i r) (VInt lo)) (sql_le (cell i r) (VInt hi))).
  exists (filter (fun r => fires (pred r) = true) (rows tb)).
  split; [|split].
  - apply (filter_data_single t out mode _ (WBetween col) [PValue (VInt lo); PValue (VInt hi)]);
      [exact Ht|reflexivity|].
    cbn [bind_where]. rewrite Hres. cbn.
    unfold check_param. cbn [param_type].
    assert (Hc : comparable ty BIGINT = true) by now destruct ty.
    rewrite Hc. reflexivity.
  - intros r z Hr Hz. rewrite list_elem_of_filter. unfold pred. rewrite Hz.
    unfold sql_ge, sql_le, sql_lt, sql_gt. rewrite !compare_int_cells.
    cbn [option_map not3 and3].
    destruct (Z.compare_spec z lo) as [E1|E1|E1];
      destruct (Z.compare_spec z hi) as [E2|E2|E2]; cbn;
      (split; [intros [Hf _]; first [discriminate Hf|lia]
              |intros Hrange; first [lia|split; [reflexivity|exact Hr]]]).
  - intros r Hnull. rewrite list_elem_of_filter. unfold pred. rewrite Hnull.
    cbn. intros [H _]. discriminate H.
Qed.

Lemma filter_between_is_inclusive_witness :
  let e := engine_with "source_a" ledger_a in
  exists kept,
    filter_data "source_a" [between_condition "id" 2 5] "filtered_data" "OR" e
    = (with_table e "filtered_data" (mkTable (columns ledger_a) kept), Ok (length kept))
    /\ ([VInt 2; VText "2024-01-05"; VReal 7] ∈ kept <-> (2 <= 2 <= 5)%Z).
Proof.
  intros e.
  destruct (filter_between_is_inclusive "source_a" "filtered_data" "OR" "id" 2 5 0 BIGINT
              e ledger_a eq_refl eq_refl eq_refl) as (kept & Hrun & Hin & _).
  exists kept. split; [exact Hrun|].
  apply (Hin [VInt 2; VText "2024-01-05"; VReal 7] 2%Z); [|reflexivity].
  right. left.
Defined.

End Filter.

(** ** Union: failures and the unvalidated path *)

Section UnionMore.

Local Open Scope nat_scope.

Lemma check_schemas_engine (reference_cols : gset string) (tables : list string)
    (e e' : ReconEngine) (r : result unit) :
  check_schemas reference_cols tables e = (e', r) -> e' = e.
Proof.
  revert e e' r. induction tables as [|t ts IH]; intros e e' r; cbn [check_schemas].
  - intros H. now injection H as <- _.
  - unfold mbind at 1, M_bind at 1.
    destruct (get_columns t e) as [e1 [cols|err]] eqn:Hc;
      apply fetch_engine in Hc as [-> _].
    + destruct (decide (list_to_set cols ≠ reference_cols)).
      * unfold raise. intros H. now injection H as <- _.
      * apply IH.
    + intros H. now injection H as <- _.
Qed.

(** X10: a call of [union_tables] that raises, for whatever reason (no
    table given, a table that does not exist, column sets that differ,
    operands of different width), leaves the engine exactly as it was. *)
Theorem union_failure_leaves_engine (table_names : list string) (out : string)
    (validate : bool) (e e' : ReconEngine) (err : error) :
  union_tables table_names out validate e = (e', Raise err) -> e' = e.
Proof.
  unfold union_tables. destruct table_names as [|first rest].
  - unfold raise. intros H. now injection H as <- _.
  - unfold mbind at 1, M_bind at 1.
    destruct ((if validate && (1 <? length (first :: rest))
               then cols ← get_columns first; check_schemas (list_to_set cols) rest
               else mret tt) e) as [e1 [u|err1]] eqn:Hcheck.
    + assert (He1 : e1 = e).
      { destruct (validate && (1 <? length (first :: rest))).
        - step_ok Hcheck e0 cols H0. apply fetch_engine in H0 as [-> _].
          now apply check_schemas_engine in Hcheck.
        - now injection Hcheck as <- _. }
      subst e1. unfold mbind at 1, M_bind at 1.
      destruct (execute _ e) as [e2 [u2|err2]] eqn:Hexec.
      * discriminate.
      * unfold execute in Hexec.
        destruct (select_union_all (first :: rest) (conn e) ≫= _) as [c|err3];
          [discriminate Hexec|].
        injection Hexec as <- _. intros H. now injection H as <- _.
    + intros H. injection H as <- _.
      destruct (validate && (1 <? length (first :: rest))); [|discriminate Hcheck].
      unfold mbind at 1, M_bind at 1 in Hcheck.
      destruct (get_columns first e) as [e0 [cols|err0]] eqn:H0;
        apply fetch_engine in H0 as [-> _].
      * now apply check_schemas_engine in Hcheck.
      * now injection Hcheck as <- _.
Qed.

Lemma union_failure_leaves_engine_witness :
  union_tables [] "combined" true three_tables
  = (three_tables, Raise (ValueError "No tables provided for union"))
  /\ union_tables ["t1"; "nowhere"] "combined" false three_tables
     = (three_tables, Raise DuckDBError).
Proof.
  split; [reflexivity|].
  assert (Hrun : exists e', union_tables ["t1"; "nowhere"] "combined" false three_tables
                            = (e', Raise DuckDBError)) by (eexists; reflexivity).
  destruct Hrun as [e' Hrun]. rewrite Hrun.
  now rewrite (union_failure_leaves_engine _ _ _ _ _ _ Hrun).
Defined.

Lemma unified_types_length (init : list sqltype) (rest : list table) :
  Forall (fun tb => length (columns tb) = length init) rest ->
  length (foldl (fun acc tb => zip_with unify_type acc (map snd (columns tb))) init rest)
  = length init.
Proof.
  revert init. induction rest as [|tb rest IH]; intros init Hall; [reflexivity|].
  apply Forall_cons in Hall as [Htb Hall]. cbn [foldl].
  assert (Hlen : length (zip_with unify_type init (map snd (columns tb))) = length init).
  { rewrite length_zip_with, length_map. lia. }
  rewrite IH; [exact Hlen|].
  rewrite Hlen. exact Hall.
Qed.



End UnionMore.

(** ** Loading *)

Section Loading.

Lemma bind_matched_error (cfg : ReconConfig) (with_dates : bool) (A B : table) (err : error) :
  bind_matched cfg with_dates A B = Raise err -> err = DuckDBError.
Proof.
  unfold bind_matched, bind_key, desc_select, resolve.
  repeat match goal with
         | |- context [match ?x with _ => _ end] => destruct x; cbn
         end; intros H; try discriminate H; now injection H as <-.
Qed.



End Loading.

(** ** Column detection *)

Section Detection.

Local Open Scope list_scope.

Lemma any_pattern_in_exists (patterns : list string) (s : string) :
  any_pattern_in patterns s = true
  <-> exists p, p ∈ patterns /\ is_substring (lower p) s.
Proof.
  induction patterns as [|q qs IH]; cbn [any_pattern_in].
  - split; [discriminate|]. intros (p & Hp & _). inversion Hp.
  - destruct (contains_sub (lower q) s) eqn:Hq.
    + split; [|reflexivity]. intros _. exists q. split; [left|].
      now apply contains_sub_iff.
    + rewrite IH. split.
      * intros (p & Hp & Hs). exists p. split; [now right|exact Hs].
      * intros (p & Hp & Hs). apply elem_of_cons in Hp as [->|Hp].
        -- apply contains_sub_iff in Hs. congruence.
        -- now exists p.
Qed.

Lemma any_pattern_in_none (patterns : list string) (s : string) :
  any_pattern_in patterns s = false
  <-> forall p, p ∈ patterns -> ~ is_substring (lower p) s.
Proof.
  split.
  - intros Hnone p Hp Hs.
    assert (Hsome : any_pattern_in patterns s = true)
      by (apply any_pattern_in_exists; now exists p).
    congruence.
  - intros Hall. destruct (any_pattern_in patterns s) eqn:Hany; [|reflexivity].
    apply any_pattern_in_exists in Hany as (p & Hp & Hs). now destruct (Hall p Hp).
Qed.

Lemma first_matching_column_some (columns patterns : list string) (col : string) :
  first_matching_column columns patterns = Some col
  <-> exists before after,
        columns = before ++ col :: after
        /\ any_pattern_in patterns (lower col) = true
        /\ Forall (fun c => any_pattern_in patterns (lower c) = false) before.
Proof.
  induction columns as [|c cs IH]; cbn [first_matching_column].
  - split; [discriminate|]. intros (before & after & H & _).
    now destruct before.
  - destruct (any_pattern_in patterns (lower c)) eqn:Hc.
    + split.
      * intros [= <-]. exists [], cs. repeat split; [exact Hc|constructor].
      * intros (before & after & Hsplit & Hcol & Hbefore).
        destruct before as [|b before].
        -- now injection Hsplit as -> _.
        -- injection Hsplit as -> _. apply Forall_cons in Hbefore as [Hb _]. congruence.
    + rewrite IH. split.
      * intros (before & after & -> & Hcol & Hbefore).
        exists (c :: before), after. repeat split; [exact Hcol|].
        now constructor.
      * intros (before & after & Hsplit & Hcol & Hbefore).
        destruct before as [|b before].
        -- injection Hsplit as -> _. congruence.
        -- injection Hsplit as -> ->. apply Forall_cons in Hbefore as [_ Hbefore].
           now exists before, after.
Qed.

Lemma first_matching_column_none (columns patterns : list string) :
  first_matching_column columns patterns = None
  <-> Forall (fun c => any_pattern_in patterns (lower c) = false) columns.
Proof.
  induction columns as [|c cs IH]; cbn [first_matching_column].
  - split; [constructor|reflexivity].
  - destruct (any_pattern_in patterns (lower c)) eqn:Hc.
    + split; [discriminate|]. intros H. apply Forall_cons in H as [H _]. congruence.
    + rewrite IH. split.
      * intros H. now constructor.
      * intros H. now apply Forall_cons in H as [_ H].
Qed.

Lemma detect_column_run (t : string) (patterns : list string) (e : ReconEngine)
    (tb : table) :
  table_of e t = Some tb ->
  detect_column t patterns e
  = (e, Ok (first_matching_column (column_names tb) patterns)).
Proof.
  intros Htb. unfold detect_column.
  now rewrite (bind_ok _ _ _ _ _ (get_columns_ok _ _ _ Htb)).
Qed.

(** X14: [detect_column] returns a column exactly when it is the first
    column of the table, in the table's order, whose lowered name holds
    one of the lowered patterns (whatever the place of that pattern in
    the list), and returns [None] exactly when no column holds any; it
    never changes the engine, and raises when the table does not
    exist. *)
Theorem detect_column_first_match (t : string) (patterns : list string)
    (e : ReconEngine) :
  (forall tb, table_of e t = Some tb ->
     (forall col,
        detect_column t patterns e = (e, Ok (Some col))
        <-> exists before after,
              column_names tb = before ++ col :: after
              /\ (exists p, p ∈ patterns /\ is_substring (lower p) (lower col))
              /\ Forall (fun c => forall p, p ∈ patterns ->
                                   ~ is_substring (lower p) (lower c)) before)
     /\ (detect_column t patterns e = (e, Ok None)
         <-> forall c p, c ∈ column_names tb -> p ∈ patterns ->
                         ~ is_substring (lower p) (lower c)))
  /\ (table_of e t = None -> detect_column t patterns e = (e, Raise DuckDBError))
  /\ (forall e' r, detect_column t patterns e = (e', r) -> e' = e).
Proof.
  split; [|split].
  - intros tb Htb. rewrite (detect_column_run t patterns e tb Htb). split.
    + intros col. split.
      * intros [= Hfirst]. apply first_matching_column_some in Hfirst
          as (before & after & Hsplit & Hcol & Hbefore).
        exists before, after. split; [exact Hsplit|]. split.
        -- now apply any_pattern_in_exists.
        -- eapply Forall_impl; [exact Hbefore|]. intros c Hc.
           now apply any_pattern_in_none.
      * intros (before & after & Hsplit & Hcol & Hbefore).
        f_equal. f_equal. apply first_matching_column_some.
        exists before, after. split; [exact Hsplit|]. split.
        -- now apply any_pattern_in_exists.
        -- eapply Forall_impl; [exact Hbefore|]. intros c Hc.
           now apply any_pattern_in_none.
    + split.
      * intros [= Hnone]. apply first_matching_column_none in Hnone.
        intros c p Hc Hp. rewrite Forall_forall in Hnone.
        exact (proj1 (any_pattern_in_none patterns (lower c)) (Hnone c Hc) p Hp).
      * intros Hall. f_equal. f_equal. apply first_matching_column_none.
        apply Forall_forall. intros c Hc. apply any_pattern_in_none.
        intros p Hp. now apply Hall.
  - intros Hnone. unfold detect_column, get_columns, fetch, lookup_table.
    unfold table_of in Hnone. unfold mbind at 1, M_bind at 1. now rewrite Hnone.
  - intros e' r. unfold detect_column. unfold mbind at 1, M_bind at 1.
    destruct (get_columns t e) as [e1 [cols|err]] eqn:Hc;
      apply fetch_engine in Hc as [-> _]; intros H; now injection H as <- _.
Qed.

Lemma detect_column_first_match_witness :
  detect_column "source_a" ["AMOUNT"; "id"] (both_loaded ledger_a ledger_b)
  = (both_loaded ledger_a ledger_b, Ok (Some "id")).
Proof.
  destruct (detect_column_first_match "source_a" ["AMOUNT"; "id"]
              (both_loaded ledger_a ledger_b)) as [Hfound _].
  destruct (Hfound ledger_a eq_refl) as [Hsome _].
  apply Hsome. exists [], ["date"; "amount"]. split; [reflexivity|]. split.
  - exists "id". split; [right; left|]. now exists "", "".
  - constructor.
Defined.

Lemma any_pattern_in_existsb (patterns : list string) (s : string) :
  any_pattern_in patterns s
  = existsb (fun pattern => contains_sub pattern s) (map lower patterns).
Proof.
  induction patterns as [|p ps IH]; [reflexivity|].
  cbn [any_pattern_in map existsb]. rewrite IH.
  now destruct (contains_sub (lower p) s).
Qed.

Lemma guess_type_without_pattern (col db_type : string) :
  any_pattern_in date_patterns (lower col) = false ->
  any_pattern_in amount_patterns (lower col) = false ->
  _guess_type col db_type = _guess_type "" db_type.
Proof.
  intros Hd Ha. rewrite any_pattern_in_existsb in Hd, Ha.
  change (map lower date_patterns) with date_patterns in Hd.
  change (map lower amount_patterns) with amount_patterns in Ha.
  unfold _guess_type. cbv zeta. rewrite Hd, Ha. reflexivity.
Qed.

(** X15: the type the cleaning tool proposes for a column follows the
    detectors of the engine: the column [detect_date_column] finds is
    proposed as a date whatever its database type; when no date column
    is found, the column [detect_amount_column] finds is proposed as a
    number; and when neither detector finds a column, the proposal for
    every column of the table depends on its database type alone. *)
Theorem guess_type_follows_detection (t : string) (e : ReconEngine) (tb : table)
    (db_type : string) :
  table_of e t = Some tb ->
  (forall col, detect_date_column t e = (e, Ok (Some col)) ->
               _guess_type col db_type = "Date")
  /\ (forall col, detect_date_column t e = (e, Ok None) ->
                  detect_amount_column t e = (e, Ok (Some col)) ->
                  _guess_type col db_type = "Number")
  /\ (detect_date_column t e = (e, Ok None) ->
      detect_amount_column t e = (e, Ok None) ->
      forall col, col ∈ column_names tb ->
                  _guess_type col db_type = _guess_type "" db_type).
Proof.
  intros Htb. unfold detect_date_column, detect_amount_column.
  rewrite !(detect_column_run t _ e tb Htb). split; [|split].
  - intros col [= Hfirst].
    apply first_matching_column_some in Hfirst as (_ & _ & _ & Hcol & _).
    rewrite any_pattern_in_existsb in Hcol.
    change (map lower date_patterns) with date_patterns in Hcol.
    unfold _guess_type. cbv zeta. now rewrite Hcol.
  - intros col [= Hdate] [= Hamount].
    apply first_matching_column_some in Hamount as (before & after & Hsplit & Hcol & _).
    apply first_matching_column_none in Hdate. rewrite Forall_forall in Hdate.
    assert (Hno : any_pattern_in date_patterns (lower col) = false).
    { apply Hdate. rewrite Hsplit. apply elem_of_app. right. left. }
    rewrite any_pattern_in_existsb in Hcol, Hno.
    change (map lower date_patterns) with date_patterns in Hno.
    change (map lower amount_patterns) with amount_patterns in Hcol.
    unfold _guess_type. cbv zeta. now rewrite Hno, Hcol.
  - intros [= Hdate] [= Hamount] col Hcol.
    apply first_matching_column_none in Hdate, Hamount.
    rewrite Forall_forall in Hdate, Hamount.
    apply guess_type_without_pattern; [now apply Hdate|now apply Hamount].
Qed.

Lemma guess_type_follows_detection_witness :
  let e := both_loaded ledger_a ledger_b in
  detect_date_column "source_a" e = (e, Ok (Some "date"))
  /\ _guess_type "date" "VARCHAR" = "Date".
Proof.
  intros e. split; [reflexivity|].
  destruct (guess_type_follows_detection "source_a" e ledger_a "VARCHAR" eq_refl)
    as [Hdate _].
  apply Hdate. reflexivity.
Defined.

End Detection.

(** ** The filter list of the analysis tool *)

Section Filters.

Local Open Scope list_scope.

(** X16: [remove_filter] deletes one filter when the index is within the
    list and does nothing otherwise, a negative index included; the
    conditions handed to the engine follow the list, and removing at the
    old length right after [add_filter] gives the manager back. *)
Theorem remove_filter_within_bounds (m : FilterManager) (index : Z) (f : FilterRange) :
  (index < 0 \/ Z.of_nat (length (filters m)) <= index -> remove_filter index m = m)
  /\ (0 <= index < Z.of_nat (length (filters m)) ->
      S (length (filters (remove_filter index m))) = length (filters m)
      /\ get_conditions (remove_filter index m)
         = delete (Z.to_nat index) (get_conditions m)
      /\ combine_mode (remove_filter index m) = combine_mode m)
  /\ get_conditions (add_filter f m) = get_conditions m ++ [to_condition f]
  /\ remove_filter (Z.of_nat (length (filters m))) (add_filter f m) = m.
Proof.
  split; [|split; [|split]].
  - intros Hout. unfold remove_filter.
    destruct (Z.leb_spec 0 index) as [H0|H0]; [|reflexivity].
    destruct (Z.ltb_spec index (Z.of_nat (length (filters m)))) as [H1|H1];
      [|reflexivity]. lia.
  - intros Hin. unfold remove_filter.
    assert (H0 : (0 <=? index) = true) by (apply Z.leb_le; lia).
    assert (H1 : (index <? Z.of_nat (length (filters m))) = true) by (apply Z.ltb_lt; lia).
    rewrite H0, H1. cbn [andb filters combine_mode]. split; [|split; [|reflexivity]].
    + rewrite length_delete; [|apply lookup_lt_is_Some; lia].
      assert (0 < length (filters m))%nat by lia. lia.
    + unfold get_conditions. cbn [filters].
      generalize (Z.to_nat index) as i. generalize (filters m) as l.
      induction l as [|x l IH]; intros [|i]; try reflexivity.
      cbn. f_equal. apply IH.
  - unfold get_conditions, add_filter. cbn [filters]. now rewrite map_app.
  - unfold remove_filter, add_filter. cbn [filters combine_mode].
    rewrite length_app. cbn [length].
    assert (H0 : (0 <=? Z.of_nat (length (filters m))) = true) by (apply Z.leb_le; lia).
    assert (H1 : (Z.of_nat (length (filters m))
                  <? Z.of_nat (length (filters m) + 1)) = true) by (apply Z.ltb_lt; lia).
    rewrite H0, H1, Nat2Z.id. cbn [andb]. clear H0 H1.
    destruct m as [l mode]. cbn [filters combine_mode]. f_equal.
    induction l as [|x l IH]; [reflexivity|]. cbn. f_equal. exact IH.
Qed.

Lemma remove_filter_within_bounds_witness :
  let f := mkFilterRange "text" "name" (VText "a") VNull in
  let m := add_filter f new_filter_manager in
  remove_filter (-1) m = m /\ remove_filter 1 m = m
  /\ get_conditions (remove_filter 0 m) = [].
Proof.
  intros f m.
  destruct (remove_filter_within_bounds m (-1) f) as [Hneg _].
  destruct (remove_filter_within_bounds m 1 f) as [Hbig _].
  destruct (remove_filter_within_bounds m 0 f) as (_ & Hin & _).
  split; [apply Hneg; left; lia|]. split; [apply Hbig; right; cbn; lia|].
  destruct Hin as (_ & Hconds & _); [cbn; lia|]. exact Hconds.
Defined.

End Filters.

(** ** Cleaning a column again *)

Section CleaningAgain.

Local Open Scope nat_scope.

Lemma count_char_append (c : ascii) (a b : string) :
  count_char c (a ++ b) = count_char c a + count_char c b.
Proof.
  induction a as [|d a IH]; [reflexivity|].
  rewrite append_cons. cbn [count_char]. rewrite IH. lia.
Qed.

Lemma split_on_no_sep (sep : ascii) (s : string) :
  Forall (fun p => count_char sep p = 0) (split_on sep s).
Proof.
  induction s as [|c s IH]; cbn [split_on].
  - now constructor.
  - destruct (Ascii.eqb c sep) eqn:Hc.
    + now constructor.
    + destruct (split_on sep s) as [|x r].
      * constructor; [|constructor]. cbn [count_char]. now rewrite Hc.
      * apply Forall_cons in IH as [Hx Hr]. constructor; [|exact Hr].
        cbn [count_char]. now rewrite Hc.
Qed.

Lemma split_part_no_sep (sep : ascii) (s : string) (n : nat) :
  count_char sep (split_part s sep n) = 0.
Proof.
  unfold split_part. generalize (n - 1). intros k.
  pose proof (split_on_no_sep sep s) as Hall. revert k.
  induction Hall as [|x l Hx _ IH]; intros [|k]; cbn [nth]; try reflexivity; auto.
Qed.

Lemma count_char_take (c : ascii) (n : nat) (s : string) :
  count_char c (take_chars n s) <= count_char c s.
Proof.
  revert s. induction n as [|n IH]; intros [|d s]; cbn [take_chars count_char]; try lia.
  specialize (IH s). lia.
Qed.

Lemma count_char_repeat (c d : ascii) (n : nat) :
  Ascii.eqb d c = false -> count_char c (repeat_char d n) = 0.
Proof.
  intros Hd. induction n as [|n IH]; [reflexivity|].
  cbn [repeat_char count_char]. now rewrite Hd, IH.
Qed.

Lemma lpad_no_slash (p : string) :
  count_char "/" p = 0 -> count_char "/" (lpad p 2 "0") = 0.
Proof.
  intros Hp. unfold lpad. rewrite count_char_append.
  rewrite count_char_repeat by reflexivity.
  pose proof (count_char_take "/" 2 p). lia.
Qed.

Lemma date_case_without_two_slashes (s : string) :
  count_char "/" s < 2 -> date_case (Some s) = Some s.
Proof.
  intros Hs. unfold date_case. destruct (sql_like "____-__-__" s); [reflexivity|].
  rewrite like_two_slashes.
  destruct (Nat.leb_spec 2 (count_char "/" s)); [lia|reflexivity].
Qed.

Lemma rebuilt_date_no_slash (y m d : string) :
  count_char "/" y = 0 -> count_char "/" m = 0 -> count_char "/" d = 0 ->
  count_char "/" (y ++ "-" ++ lpad m 2 "0" ++ "-" ++ lpad d 2 "0") < 2.
Proof.
  intros Hy Hm Hd. rewrite !count_char_append, Hy.
  rewrite (lpad_no_slash m Hm), (lpad_no_slash d Hd).
  change (count_char "/" "-") with 0. lia.
Qed.

Lemma date_case_fixed (s : string) :
  exists o, date_case (Some s) = Some o /\ date_case (Some o) = Some o.
Proof.
  destruct (sql_like "____-__-__" s) eqn:Hiso.
  { exists s. unfold date_case. rewrite Hiso. now split. }
  destruct (sql_like "%/%/%" s) eqn:Hslash.
  - pose proof (split_part_no_sep "/" s 1) as H1.
    pose proof (split_part_no_sep "/" s 2) as H2.
    pose proof (split_part_no_sep "/" s 3) as H3.
    destruct (fires (gt_12 (split_part s "/" 1))) eqn:G1;
      [|destruct (fires (gt_12 (split_part s "/" 2))) eqn:G2];
      (eexists; split;
       [unfold date_case; rewrite Hiso, Hslash; cbv zeta; rewrite ?G1, ?G2; reflexivity
       |apply date_case_without_two_slashes; now apply rebuilt_date_no_slash]).
  - exists s. unfold date_case. rewrite Hiso, Hslash. now split.
Qed.

(** The CASE expression of the date cleaner gives texts it leaves alone. *)
Lemma date_case_idempotent (x : option string) :
  date_case (date_case x) = date_case x.
Proof.
  destruct x as [s|]; [|reflexivity].
  destruct (date_case_fixed s) as (o & Ho & Hfix). now rewrite Ho.
Qed.

Lemma date_cell_idempotent (render : Q -> string) (v : value) :
  date_cell render (date_cell render v) = date_cell render v.
Proof.
  unfold date_cell.
  assert (Hcast : forall y, cast_varchar render (text_cell y) = y)
    by (intros [s|]; reflexivity).
  now rewrite Hcast, date_case_idempotent.
Qed.

Lemma boolean_cell_idempotent (render : Q -> string) (v : value) :
  boolean_cell render (boolean_cell render v) = boolean_cell render v.
Proof.
  unfold boolean_cell. now destruct (bool_case (cast_varchar render v)) as [[|]|].
Qed.

Lemma varchar_cell_idempotent (render : Q -> string) (v : value) :
  varchar_cell render (varchar_cell render v) = varchar_cell render v.
Proof.
  unfold varchar_cell. now destruct (cast_varchar render v).
Qed.

Lemma delete_app_end {A : Type} (l : list A) (x : A) :
  delete (length l) (l ++ [x])%list = l.
Proof.
  induction l as [|y l IH]; [reflexivity|].
  cbn [length]. change ((y :: l) ++ [x])%list with (y :: (l ++ [x]))%list.
  change (delete (S (length l)) (y :: (l ++ [x]))%list)
    with (y :: delete (length l) (l ++ [x])%list).
  now rewrite IH.
Qed.

Lemma column_names_delete (cols : list (string * sqltype)) (i : nat) :
  map fst (delete i cols) = delete i (map fst cols).
Proof.
  revert i. induction cols as [|x cols IH]; intros [|i]; try reflexivity.
  change (map fst (x :: delete i cols) = x.1 :: delete i (map fst cols)).
  cbn [map]. now rewrite IH.
Qed.

(** The shape of a cleaned table: it is well formed and the cleaned
    column is its last one. *)
Lemma cleaned_table_shape (tb : table) (i : nat) (col : string) (ty cty : sqltype)
    (g : value -> value) :
  well_formed tb ->
  resolve col (columns tb) = Ok (i, cty) ->
  well_formed (cleaned_table tb i col ty g)
  /\ resolve col (columns (cleaned_table tb i col ty g))
     = Ok (length (delete i (columns tb)), ty)
  /\ S (length (delete i (columns tb))) = length (columns tb).
Proof.
  intros [Hnd Hrows] Hres. apply resolve_lookup in Hres as [Hi Hl].
  pose proof (col_index_lt _ _ _ Hi) as Hlt.
  assert (Hlen : S (length (delete i (columns tb))) = length (columns tb)).
  { rewrite length_delete by (apply lookup_lt_is_Some; lia). lia. }
  pose proof (col_index_delete_self _ _ i Hnd Hi) as Hgone.
  split; [split|split; [|exact Hlen]].
  - unfold column_names, cleaned_table. cbn [columns].
    rewrite map_app. cbn [map fst]. apply NoDup_app. split; [|split].
    + rewrite column_names_delete.
      exact (sublist_NoDup _ _ Hnd (sublist_delete (map fst (columns tb)) i)).
    + intros x Hx Hx'. apply list_elem_of_singleton in Hx' as ->.
      now apply col_index_none in Hgone.
    + apply NoDup_singleton.
  - unfold cleaned_table. cbn [columns rows]. apply Forall_forall.
    intros r' Hr'. apply list_elem_of_fmap in Hr' as (r & -> & Hr).
    rewrite Forall_forall in Hrows. specialize (Hrows r Hr).
    rewrite !length_app, !length_delete by (apply lookup_lt_is_Some; lia).
    cbn [length]. now rewrite Hrows.
  - unfold cleaned_table. cbn [columns]. apply resolve_intro.
    + rewrite (col_index_app_r _ _ _ Hgone). cbn [col_index].
      rewrite String.eqb_refl. cbn. f_equal. lia.
    + rewrite lookup_app_r by lia. now rewrite Nat.sub_diag.
Qed.

(** Cleaning the cleaned column with the same function again gives the
    same table when the function leaves its own values alone. *)
Lemma cleaned_table_again (tb : table) (i : nat) (col : string) (ty cty : sqltype)
    (g : value -> value) :
  well_formed tb ->
  resolve col (columns tb) = Ok (i, cty) ->
  (forall v, g (g v) = g v) ->
  cleaned_table (cleaned_table tb i col ty g) (length (delete i (columns tb))) col ty g
  = cleaned_table tb i col ty g.
Proof.
  intros [Hnd Hrows] Hres Hg. apply resolve_lookup in Hres as [Hi Hl].
  pose proof (col_index_lt _ _ _ Hi) as Hlt.
  unfold cleaned_table. cbn [columns rows]. f_equal.
  - now rewrite delete_app_end.
  - rewrite map_map. apply map_ext_in. intros r Hr.
    apply list_elem_of_In in Hr. rewrite Forall_forall in Hrows. specialize (Hrows r Hr).
    assert (Hlen : length (delete i (columns tb)) = length (delete i r)).
    { rewrite !length_delete by (apply lookup_lt_is_Some; lia). now rewrite Hrows. }
    rewrite Hlen, delete_app_end, cell_app_end. now rewrite Hg.
Qed.

(** A cleaning pass run a second time on its own result changes nothing. *)
Lemma cleaning_pass_again (t col helper : string) (ty cty : sqltype) (i : nat)
    (g : (Q -> string) -> value -> value)
    (bind : (Q -> string) -> list (string * sqltype) -> result (sqltype * (row -> value)))
    (e : ReconEngine) (tb : table) :
  table_of e t = Some tb ->
  well_formed tb ->
  resolve col (columns tb) = Ok (i, cty) ->
  col_index helper (columns tb) = None ->
  (forall render v, g render (g render v) = g render v) ->
  (forall render cols j cty',
     resolve col cols = Ok (j, cty') ->
     bind render (cols ++ [(helper, ty)])%list = Ok (ty, fun r => g render (cell j r))) ->
  let pass := execute (add_column_if_not_exists t helper ty);;
              execute (update_set t helper bind);;
              execute (drop_column t col);;
              execute (rename_column t helper col);;
              get_row_count t in
  let e1 := with_table e t (cleaned_table tb i col ty (g (double_to_varchar (conn e)))) in
  pass e = (e1, Ok (length (rows tb))) /\ pass e1 = (e1, Ok (length (rows tb))).
Proof.
  intros Htb Hwf Hres Hhelper Hg Hbind pass e1.
  set (render := double_to_varchar (conn e)).
  assert (Hfirst : pass e = (e1, Ok (length (rows tb)))).
  { apply (cleaning_pass_result t col helper ty cty i (g render) bind e tb
             Htb Hwf Hres Hhelper).
    exact (Hbind render (columns tb) i cty Hres). }
  split; [exact Hfirst|].
  destruct (cleaned_table_shape tb i col ty cty (g render) Hwf Hres)
    as (Hwf' & Hres' & Hlen).
  set (tb' := cleaned_table tb i col ty (g render)) in *.
  assert (Htb' : table_of e1 t = Some tb').
  { unfold e1. rewrite table_of_with_table. now destruct (decide (t = t)). }
  assert (Hhelper' : col_index helper (columns tb') = None).
  { unfold tb', cleaned_table. cbn [columns].
    rewrite (col_index_app_r _ _ _ (col_index_delete_none _ _ i Hhelper)).
    cbn [col_index]. destruct (String.eqb_spec col helper) as [Heq|Hne]; [|reflexivity].
    subst helper. apply resolve_lookup in Hres as [Hi _]. congruence. }
  pose proof (cleaning_pass_result t col helper ty ty _ (g render) bind e1 tb'
                Htb' Hwf' Hres' Hhelper') as Hsecond.
  fold pass in Hsecond. rewrite Hsecond.
  - f_equal.
    + unfold e1 at 1. unfold with_table at 1.
      rewrite (with_table_again e t tb'). unfold tb'. 
      now rewrite (cleaned_table_again tb i col ty cty (g render) Hwf Hres (Hg render)).
    + unfold tb', cleaned_table. cbn [rows]. now rewrite length_map.
  - exact (Hbind render (columns tb') _ ty Hres').
Qed.



Lemma clean_boolean_column_twice_pass (e : ReconEngine) (t col : string) (tb : table)
    (i : nat) (cty : sqltype) :
  table_of e t = Some tb ->
  well_formed tb ->
  resolve col (columns tb) = Ok (i, cty) ->
  col_index "_cleaned_bool" (columns tb) = None ->
  let e1 := with_table e t (cleaned_table tb i col BOOLEAN
                              (boolean_cell (double_to_varchar (conn e)))) in
  clean_boolean_column t col e = (e1, Ok (length (rows tb)))
  /\ clean_boolean_column t col e1 = (e1, Ok (length (rows tb))).
Proof.
  intros Htb Hwf Hres Hhelper.
  apply (cleaning_pass_again t col "_cleaned_bool" BOOLEAN cty i boolean_cell
           (fun render => bind_bool_case render col) e tb
           Htb Hwf Hres Hhelper boolean_cell_idempotent).
  intros render cols j cty' Hj. unfold bind_bool_case.
  now rewrite (resolve_app_l _ _ _ _ _ Hj).
Qed.

(** X18: [clean_boolean_column] works on a column of any type: it
    returns the row count, the column becomes a BOOLEAN holding, row by
    row, TRUE, FALSE or NULL as the CASE expression gives on the text of
    the old cell (NULL for a NULL cell), and cleaning the column a second
    time changes nothing. *)
Theorem clean_boolean_column_twice (e : ReconEngine) (t col : string) (tb : table)
    (i : nat) (cty : sqltype) :
  table_of e t = Some tb ->
  well_formed tb ->
  resolve col (columns tb) = Ok (i, cty) ->
  col_index "_cleaned_bool" (columns tb) = None ->
  let render := double_to_varchar (conn e) in
  let e1 := (clean_boolean_column t col e).1 in
  (clean_boolean_column t col e).2 = Ok (length (rows tb))
  /\ column_cells e1 t col
     = Some (map (fun r => bool_cell (bool_case (cast_varchar render (cell i r)))) (rows tb))
  /\ (exists tb1 j, table_of e1 t = Some tb1 /\ resolve col (columns tb1) = Ok (j, BOOLEAN))
  /\ (forall r, r ∈ rows tb -> cell i r = VNull ->
                bool_case (cast_varchar render (cell i r)) = None)
  /\ clean_boolean_column t col e1 = (e1, Ok (length (rows tb))).
Proof.
  intros Htb Hwf Hres Hhelper render e1.
  destruct (clean_boolean_column_twice_pass e t col tb i cty Htb Hwf Hres Hhelper)
    as [H1 H2].
  unfold e1. rewrite H1. cbn [fst snd].
  split; [reflexivity|]. split.
  { exact (column_cells_cleaned e t col tb i BOOLEAN cty _ Hwf Hres). }
  split.
  { destruct (cleaned_table_shape tb i col BOOLEAN cty (boolean_cell render) Hwf Hres)
      as (_ & Hres' & _).
    eexists _, _. split; [|exact Hres'].
    rewrite table_of_with_table. now destruct (decide (t = t)). }
  split; [|exact H2].
  intros r _ ->. reflexivity.
Qed.

Lemma clean_boolean_column_twice_witness :
  let e := engine_with "flags" flags_table in
  let e1 := (clean_boolean_column "flags" "active" e).1 in
  column_cells e1 "flags" "active"
  = Some [VBool true; VBool false; VNull; VBool true; VBool false]
  /\ clean_boolean_column "flags" "active" e1 = (e1, Ok 5).
Proof.
  intros e e1.
  assert (Hwf : well_formed flags_table).
  { split; [apply NoDup_singleton|repeat constructor]. }
  destruct (clean_boolean_column_twice e "flags" "active" flags_table 0 VARCHAR
              eq_refl Hwf eq_refl eq_refl) as (_ & Hcells & _ & _ & Hagain).
  split; [exact Hcells|exact Hagain].
Defined.

Lemma transform_column_text_pass (e : ReconEngine) (t col : string) (tb : table)
    (i : nat) (cty : sqltype) :
  table_of e t = Some tb ->
  well_formed tb ->
  resolve col (columns tb) = Ok (i, cty) ->
  col_index "_temp_text" (columns tb) = None ->
  let e1 := with_table e t (cleaned_table tb i col VARCHAR
                              (varchar_cell (double_to_varchar (conn e)))) in
  transform_column t col "text" e = (e1, Ok (length (rows tb)))
  /\ transform_column t col "text" e1 = (e1, Ok (length (rows tb))).
Proof.
  intros Htb Hwf Hres Hhelper.
  apply (cleaning_pass_again t col "_temp_text" VARCHAR cty i varchar_cell
           (fun render => bind_cast_varchar render col) e tb
           Htb Hwf Hres Hhelper varchar_cell_idempotent).
  intros render cols j cty' Hj. unfold bind_cast_varchar.
  now rewrite (resolve_app_l _ _ _ _ _ Hj).
Qed.

(** X19: [transform_column] with the target [text] makes the column a
    VARCHAR holding the text of every old cell: a text and NULL stay as
    they are, a second call changes nothing; and a target outside the
    four known ones returns 0 and leaves the engine alone. *)
Theorem transform_column_to_text (e : ReconEngine) (t col : string) (tb : table)
    (i : nat) (cty : sqltype) :
  table_of e t = Some tb ->
  well_formed tb ->
  resolve col (columns tb) = Ok (i, cty) ->
  col_index "_temp_text" (columns tb) = None ->
  let render := double_to_varchar (conn e) in
  let e1 := (transform_column t col "text" e).1 in
  (transform_column t col "text" e).2 = Ok (length (rows tb))
  /\ column_cells e1 t col
     = Some (map (fun r => text_cell (cast_varchar render (cell i r))) (rows tb))
  /\ (forall r s, cell i r = VText s -> text_cell (cast_varchar render (cell i r)) = VText s)
  /\ (forall r, cell i r = VNull -> text_cell (cast_varchar render (cell i r)) = VNull)
  /\ transform_column t col "text" e1 = (e1, Ok (length (rows tb)))
  /\ (forall target, target ∉ ["number"; "date"; "boolean"; "text"] ->
                     transform_column t col target e = (e, Ok 0)).
Proof.
  intros Htb Hwf Hres Hhelper render e1.
  destruct (transform_column_text_pass e t col tb i cty Htb Hwf Hres Hhelper) as [H1 H2].
  unfold e1. rewrite H1. cbn [fst snd].
  split; [reflexivity|]. split.
  { exact (column_cells_cleaned e t col tb i VARCHAR cty _ Hwf Hres). }
  split; [intros r s ->; reflexivity|].
  split; [intros r ->; reflexivity|].
  split; [exact H2|].
  intros target Hout. unfold transform_column.
  destruct (String.eqb_spec target "number") as [->|_]; [exfalso; apply Hout; set_solver|].
  destruct (String.eqb_spec target "date") as [->|_]; [exfalso; apply Hout; set_solver|].
  destruct (String.eqb_spec target "boolean") as [->|_]; [exfalso; apply Hout; set_solver|].
  destruct (String.eqb_spec target "text") as [->|_]; [exfalso; apply Hout; set_solver|].
  reflexivity.
Qed.

Lemma transform_column_to_text_witness :
  let e := both_loaded ledger_a ledger_b in
  let e1 := (transform_column "source_a" "id" "text" e).1 in
  (transform_column "source_a" "id" "text" e).2 = Ok (length (rows ledger_a))
  /\ transform_column "source_a" "id" "text" e1 = (e1, Ok (length (rows ledger_a)))
  /\ transform_column "source_a" "id" "json" e = (e, Ok 0).
Proof.
  intros e e1.
  assert (Hwf : well_formed ledger_a).
  { split; [|repeat constructor].
    apply (bool_decide_unpack _). reflexivity. }
  destruct (transform_column_to_text e "source_a" "id" ledger_a 0 BIGINT
              eq_refl Hwf eq_refl eq_refl) as (Hfirst & _ & _ & _ & Hagain & Hother).
  split; [exact Hfirst|]. split; [exact Hagain|].
  apply Hother. apply (bool_decide_unpack _). reflexivity.
Defined.



End CleaningAgain.

(** ** What cleaning leaves alone *)

Section CleaningFrame.

Local Open Scope nat_scope.

Lemma col_index_delete_other (c n : string) (cols : list (string * sqltype))
    (i j : nat) (ty : sqltype) :
  col_index c cols = Some j ->
  cols !! i = Some (n, ty) ->
  n <> c ->
  j <> i /\ col_index c (delete i cols) = Some (if j <? i then j else pred j).
Proof.
  revert i j. induction cols as [|[n0 t0] cols IH]; intros i j Hj Hi Hne;
    [discriminate Hj|].
  cbn [col_index] in Hj. destruct i as [|i].
  - injection Hi as -> ->.
    destruct (String.eqb_spec n c) as [Heq|_]; [contradiction|].
    destruct (col_index c cols) as [j'|] eqn:Hj'; [|discriminate Hj].
    injection Hj as <-. split; [lia|].
    change (delete 0 ((n, ty) :: cols)) with cols. exact Hj'.
  - change (delete (S i) ((n0, t0) :: cols)) with ((n0, t0) :: delete i cols).
    cbn [col_index]. destruct (String.eqb_spec n0 c) as [->|Hn0].
    + injection Hj as <-. split; [lia|reflexivity].
    + destruct (col_index c cols) as [j'|] eqn:Hj'; [|discriminate Hj].
      injection Hj as <-. destruct (IH i j' eq_refl Hi Hne) as [Hneq ->].
      split; [lia|]. cbn [option_map]. f_equal.
      change (S j' <? S i) with (j' <? i).
      destruct (Nat.ltb_spec j' i); [reflexivity|]. cbn [pred]. lia.
Qed.

Lemma cell_delete_other (i j : nat) (r : row) :
  j <> i -> cell (if j <? i then j else pred j) (delete i r) = cell j r.
Proof.
  unfold cell. revert i j. induction r as [|x r IH]; intros i j Hne.
  - change (delete i []) with (@nil value).
    now destruct (if j <? i then j else pred j), j.
  - destruct i as [|i].
    + destruct j as [|j]; [lia|]. reflexivity.
    + change (delete (S i) (x :: r)) with (x :: delete i r).
      destruct j as [|j]; [reflexivity|].
      change (S j <? S i) with (j <? i). specialize (IH i j ltac:(lia)).
      destruct (Nat.ltb_spec j i) as [Hlt|Hge].
      * exact IH.
      * destruct j as [|j]; [lia|]. exact IH.
Qed.

Lemma lookup_delete_other {A : Type} (i j : nat) (l : list A) :
  j <> i -> delete i l !! (if j <? i then j else pred j) = l !! j.
Proof.
  intros Hne. destruct (Nat.ltb_spec j i) as [Hlt|Hge].
  - now apply list_lookup_delete_lt.
  - destruct j as [|j]; [lia|]. cbn [pred]. apply list_lookup_delete_ge. lia.
Qed.

Lemma column_set_moved (names : list string) (i : nat) (col : string) :
  names !! i = Some col ->
  (list_to_set (delete i names ++ [col])%list : gset string) = list_to_set names.
Proof.
  intros Hi. rewrite delete_take_drop.
  rewrite <- (take_drop_middle names i col Hi) at 3.
  rewrite !list_to_set_app_L, !list_to_set_cons, list_to_set_nil.
  apply leibniz_equiv. intros x.
  rewrite !elem_of_union, elem_of_empty, !elem_of_singleton. tauto.
Qed.

(** The frame of a cleaned table. *)
Lemma cleaned_table_frame (e : ReconEngine) (t col : string) (tb : table) (i : nat)
    (ty cty : sqltype) (g : value -> value) :
  table_of e t = Some tb ->
  well_formed tb ->
  resolve col (columns tb) = Ok (i, cty) ->
  cleaning_frame e (with_table e t (cleaned_table tb i col ty g)) t col tb i.
Proof.
  intros Htb [Hnd Hrows] Hres. apply resolve_lookup in Hres as [Hi Hl].
  pose proof (col_index_lt _ _ _ Hi) as Hlt.
  set (tb' := cleaned_table tb i col ty g).
  assert (Htb' : table_of (with_table e t tb') t = Some tb').
  { rewrite table_of_with_table. now destruct (decide (t = t)). }
  assert (Hnames : column_names tb' = (delete i (column_names tb) ++ [col])%list).
  { unfold column_names, tb', cleaned_table. cbn [columns].
    now rewrite map_app, column_names_delete. }
  split; [|split; [|split]].
  - intros c Hc. unfold column_cells. rewrite Htb', Htb. cbn [fmap option_fmap option_map].
    unfold tb' at 1 3, cleaned_table. cbn [columns rows].
    destruct (col_index c (columns tb)) as [j|] eqn:Hj.
    + destruct (col_index_delete_other c col (columns tb) i j cty Hj Hl
                  (not_eq_sym Hc)) as [Hji Hj'].
      pose proof (col_index_lt _ _ _ Hj) as Hjlt.
      assert (Hbound : (if j <? i then j else pred j) < length (delete i (columns tb))).
      { rewrite length_delete by (apply lookup_lt_is_Some; lia).
        destruct (Nat.ltb_spec j i); lia. }
      rewrite (col_index_app_l _ _ _ _ Hj'). split.
      * f_equal. unfold tb', cleaned_table. cbn [rows].
        rewrite map_map. apply map_ext_in. intros r Hr.
        apply list_elem_of_In in Hr. rewrite Forall_forall in Hrows.
        specialize (Hrows r Hr).
        rewrite cell_app_lt.
        -- now apply cell_delete_other.
        -- rewrite length_delete by (apply lookup_lt_is_Some; lia).
           rewrite length_delete in Hbound by (apply lookup_lt_is_Some; lia). lia.
      * f_equal. unfold col_type. rewrite (col_index_app_l _ _ _ _ Hj'), Hj.
        rewrite lookup_app_l by exact Hbound.
        now rewrite lookup_delete_other.
    + pose proof (col_index_delete_none _ _ i Hj) as Hj'.
      assert (Hnone : col_index c (delete i (columns tb) ++ [(col, ty)])%list = None).
      { rewrite (col_index_app_r _ _ _ Hj'). cbn [col_index].
        destruct (String.eqb_spec col c) as [Heq|_]; [congruence|reflexivity]. }
      rewrite Hnone. split; [reflexivity|].
      f_equal. unfold col_type. now rewrite Hnone, Hj.
  - rewrite (get_columns_ok _ _ _ Htb'). now rewrite Hnames.
  - rewrite (column_set_of _ _ _ Htb'), (column_set_of _ _ _ Htb), Hnames.
    apply column_set_moved. unfold column_names. rewrite list_lookup_fmap, Hl. reflexivity.
  - intros n Hn. rewrite table_of_with_table.
    destruct (decide (t = n)); [congruence|reflexivity].
Qed.



End CleaningFrame.

(** ** Selecting columns *)

Section SelectColumns.

Local Open Scope nat_scope.

Lemma mapM_resolve (cols : list string) (columns : list (string * sqltype)) :
  Forall (fun c => c ∈ map fst columns) cols ->
  exists bound,
    mapM (fun col => resolve col columns) cols = Ok bound
    /\ Forall2 (fun c b => resolve c columns = Ok b) cols bound.
Proof.
  induction 1 as [|c cols Hc _ (bound & Hbound & Hall)].
  - exists []. split; [reflexivity|constructor].
  - destruct (col_index c columns) as [j|] eqn:Hj;
      [|apply col_index_none in Hj; contradiction].
    destruct (col_index_name c columns j Hj) as [ty Hl].
    pose proof (resolve_intro c columns j ty Hj Hl) as Hres.
    exists ((j, ty) :: bound). split; [|now constructor].
    cbn. now rewrite Hbound, Hres.
Qed.

Lemma mapM_resolve_missing (cols : list string) (columns : list (string * sqltype)) :
  ~ Forall (fun c => c ∈ map fst columns) cols ->
  mapM (fun col => resolve col columns) cols = Raise DuckDBError.
Proof.
  induction cols as [|c cols IH]; intros Hnot.
  - destruct Hnot. constructor.
  - cbn. destruct (col_index c columns) as [j|] eqn:Hj.
    + destruct (col_index_name c columns j Hj) as [ty Hl].
      rewrite (resolve_intro c columns j ty Hj Hl).
      rewrite IH; [now destruct (mapM _ cols)|].
      intros Hall. apply Hnot. constructor; [|exact Hall].
      destruct (decide (c ∈ map fst columns)) as [Hin|Hout]; [exact Hin|].
      apply col_index_none in Hout. congruence.
    + unfold resolve. rewrite Hj. now destruct (mapM _ cols).
Qed.

Lemma col_index_zip (cols : list string) (tys : list sqltype) (c : string) (k : nat) :
  NoDup cols -> length tys = length cols -> cols !! k = Some c ->
  col_index c (zip cols tys) = Some k.
Proof.
  revert tys k. induction cols as [|x cols IH]; intros tys k Hnd Hlen Hk;
    [discriminate Hk|].
  destruct tys as [|ty tys]; [discriminate Hlen|].
  apply NoDup_cons in Hnd as [Hx Hnd]. cbn [zip zip_with col_index].
  destruct k as [|k].
  - injection Hk as ->. now rewrite String.eqb_refl.
  - cbn in Hk. destruct (String.eqb_spec x c) as [->|_].
    + destruct Hx. eapply list_elem_of_lookup_2. exact Hk.
    + rewrite (IH tys k Hnd); [reflexivity| |exact Hk]. cbn in Hlen. lia.
Qed.

Lemma cell_map_bound (bound : list (nat * sqltype)) (r : row) (k j : nat) (ty : sqltype) :
  bound !! k = Some (j, ty) ->
  cell k (map (fun b : nat * sqltype => cell b.1 r) bound) = cell j r.
Proof.
  revert k. induction bound as [|b bound IH]; intros [|k] Hk; try discriminate Hk.
  - now injection Hk as ->.
  - exact (IH k Hk).
Qed.

(** The statement of [select_columns] on names that are in the table and
    are not repeated. *)
Lemma select_list_ok (cols : list string) (tb : table) :
  cols <> [] ->
  NoDup cols ->
  Forall (fun c => c ∈ column_names tb) cols ->
  exists bound,
    Forall2 (fun c b => resolve c (columns tb) = Ok b) cols bound
    /\ select_list cols tb
       = Ok (mkTable (zip cols (map snd bound))
               (map (fun r => map (fun b : nat * sqltype => cell b.1 r) bound) (rows tb))).
Proof.
  intros Hne Hnd Hall. destruct (mapM_resolve cols (columns tb) Hall) as (bound & Hm & Hb).
  exists bound. split; [exact Hb|]. unfold select_list.
  destruct cols as [|c cols]; [congruence|]. rewrite Hm. cbn.
  destruct (decide (NoDup (c :: cols))); [reflexivity|contradiction].
Qed.



End SelectColumns.

(** ** Union by position, and filters that fail *)

Section Positional.

Local Open Scope nat_scope.

(** X12: validation compares the sets of column names, and the union is
    then taken by position: two tables whose names agree as sets are
    united whatever the order of their columns, the output has the names
    of the first table, and every row of the second table gives its
    cells in its own column order, cast to the unified types. *)
Theorem union_is_by_position (e : ReconEngine) (a b out : string) (ta tb : table) :
  table_of e a = Some ta ->
  table_of e b = Some tb ->
  NoDup (column_names ta) ->
  NoDup (column_names tb) ->
  (list_to_set (column_names ta) : gset string) = list_to_set (column_names tb) ->
  let tys := zip_with unify_type (map snd (columns ta)) (map snd (columns tb)) in
  let cast := zip_with (cast_value (double_to_varchar (conn e))) tys in
  union_tables [a; b] out true e
  = (with_table e out
       (mkTable (zip (column_names ta) tys)
          (map cast (rows ta) ++ map cast (rows tb))%list),
     Ok true)
  /\ map fst (zip (column_names ta) tys) = column_names ta.
Proof.
  intros Hta Htb Hnda Hndb Hset tys cast.
  pose proof (same_names_same_width tb ta Hndb Hnda (eq_sym Hset)) as Hwidth.
  split.
  - unfold union_tables. cbn [andb length Nat.ltb Nat.leb].
    assert (Hcheck : (cols ← get_columns a; check_schemas (list_to_set cols) [b]) e
                     = (e, Ok tt)).
    { rewrite (bind_ok _ _ _ _ _ (get_columns_ok e a ta Hta)).
      apply check_schemas_ok.
      - constructor; [now exists tb|constructor].
      - intros n Hn. apply list_elem_of_singleton in Hn as ->.
        rewrite (column_set_of e b tb Htb). now symmetry. }
    rewrite (bind_ok _ _ _ _ _ Hcheck).
    rewrite (execute_step _ _ e
               (store_table (conn e) out
                  (mkTable (zip (column_names ta) tys)
                     (map cast (rows ta) ++ map cast (rows tb))%list))).
    + reflexivity.
    + unfold select_union_all.
      rewrite (mapM_lookup_table (conn e) [a; b] [ta; tb]).
      * cbn. rewrite Hwidth, Nat.eqb_refl. cbn. now rewrite app_nil_r.
      * repeat constructor; assumption.
  - apply fst_zip. unfold tys, column_names.
    rewrite length_zip_with, !length_map. lia.
Qed.

Lemma union_is_by_position_witness :
  let e := both_loaded ledger_a ledger_b_reordered in
  exists res,
    union_tables ["source_a"; "source_b"] "combined" true e
    = (with_table e "combined" res, Ok true)
    /\ column_names res = ["id"; "date"; "amount"]
    /\ length (rows res) = length (rows ledger_a) + length (rows ledger_b).
Proof.
  intros e.
  destruct (union_is_by_position e "source_a" "source_b" "combined"
              ledger_a ledger_b_reordered eq_refl eq_refl) as [Hrun Hcols].
  - apply (bool_decide_unpack _). reflexivity.
  - apply (bool_decide_unpack _). reflexivity.
  - apply (bool_decide_unpack _). reflexivity.
  - eexists. split; [exact Hrun|]. split; reflexivity.
Defined.

(** X9: a call of [filter_data] that raises leaves the engine as it
    was; and [between] with an operand that is neither a list nor a text
    raises the TypeError of [params.extend] before any statement is
    sent. *)
Theorem filter_data_failure_leaves_engine (t out mode : string)
    (conds : list FilterCondition) (e : ReconEngine) :
  (forall e' err, filter_data t conds out mode e = (e', Raise err) -> e' = e)
  /\ (forall col v rest,
        conds = mkCond col (Some "between") (Scalar v) :: rest ->
        (forall s, v <> VText s) ->
        filter_data t conds out mode e = (e, Raise TypeError)).
Proof.
  assert (Hstore : forall (stmt : connection -> result table) e' err,
             (execute (fun c => tb ← stmt c; Ok (create_or_replace out tb c));;
              get_row_count out) e = (e', Raise err) -> e' = e).
  { intros stmt e' err. unfold mbind at 1, M_bind at 1, execute.
    destruct (stmt (conn e)) as [tb|err1] eqn:Hstmt; cbn.
    - set (e1 := mkEngine _ _ _).
      assert (Hcount : row_count_of e1 out = Some (length (rows tb)))
        by apply (row_count_with_table e out tb).
      rewrite (get_row_count_ok _ _ _ Hcount). discriminate.
    - intros H. now injection H as <- _. }
  split.
  - intros e' err. unfold filter_data. destruct conds as [|c cs].
    + apply Hstore.
    + destruct (build_where (c :: cs)) as [[parts params]|err1].
      * apply Hstore.
      * unfold raise. intros H. now injection H as <- _.
  - intros col v rest -> Hv. unfold filter_data. cbn [build_where cond_operator default
      cond_column cond_value from_option]. cbn.
    destruct v as [|s|z|q|b0]; try reflexivity. now destruct (Hv s).
Qed.

Lemma filter_data_failure_leaves_engine_witness :
  let e := both_loaded ledger_a ledger_b in
  filter_data "source_a" [mkCond "amount" (Some "between") (Scalar (VInt 5))]
    "filtered" "OR" e
  = (e, Raise TypeError)
  /\ filter_data "nowhere" [] "filtered" "OR" e = (e, Raise DuckDBError).
Proof.
  intros e.
  destruct (filter_data_failure_leaves_engine "source_a" "filtered" "OR"
              [mkCond "amount" (Some "between") (Scalar (VInt 5))] e) as [_ Htype].
  destruct (filter_data_failure_leaves_engine "nowhere" "filtered" "OR" [] e)
    as [Hsame _].
  split.
  - apply (Htype "amount" (VInt 5) []); [reflexivity|discriminate].
  - assert (Hrun : exists e', filter_data "nowhere" [] "filtered" "OR" e
                              = (e', Raise DuckDBError)) by (eexists; reflexivity).
    destruct Hrun as [e' Hrun]. rewrite Hrun. now rewrite (Hsame e' _ Hrun).
Defined.

End Positional.

(** ** Aggregation *)

Section Aggregation.

Local Open Scope Z_scope.

Lemma weight_app (w : row -> Z) (l k : list row) :
  weight w (l ++ k)%list = weight w l + weight w k.
Proof.
  unfold weight. induction l as [|x l IH]; [reflexivity|].
  cbn [app map foldr]. rewrite IH. lia.
Qed.

Lemma weight_one (rs : list row) : weight (fun _ => 1) rs = Z.of_nat (length rs).
Proof.
  unfold weight. induction rs as [|r rs IH]; [reflexivity|].
  cbn [map foldr length]. rewrite IH. lia.
Qed.

Lemma add_to_groups_weight (w : row -> Z) (k : list value) (r : row)
    (gs : list (list value * list row)) :
  groups_weight w (add_to_groups k r gs) = groups_weight w gs + w r.
Proof.
  unfold groups_weight. induction gs as [|[k' rs] gs IH]; cbn [add_to_groups].
  - cbn. lia.
  - destruct (same_key k' k); cbn [map foldr snd].
    + rewrite weight_app. unfold weight at 2. cbn. lia.
    + rewrite IH. lia.
Qed.

(** Grouping loses no row and invents none, whatever is weighed. *)
Lemma group_rows_weight (w : row -> Z) (key : row -> list value) (rs : list row) :
  groups_weight w (group_rows key rs) = weight w rs.
Proof.
  unfold group_rows.
  assert (Hgen : forall acc,
             groups_weight w (foldl (fun groups r => add_to_groups (key r) r groups) acc rs)
             = groups_weight w acc + weight w rs).
  { induction rs as [|r rs IH]; intros acc; cbn [foldl].
    - unfold weight. cbn. lia.
    - rewrite IH, add_to_groups_weight. unfold weight. cbn. lia. }
  rewrite Hgen. unfold groups_weight. cbn. lia.
Qed.

Lemma add_to_groups_shape (P : list value -> Prop) (k : list value) (r : row)
    (gs : list (list value * list row)) :
  P k ->
  Forall (fun g : list value * list row => P g.1 /\ g.2 <> []) gs ->
  Forall (fun g : list value * list row => P g.1 /\ g.2 <> []) (add_to_groups k r gs).
Proof.
  intros Hk. induction 1 as [|[k' rs] gs [Hk' Hrs] Hgs IH]; cbn [add_to_groups].
  - repeat constructor; [exact Hk|discriminate].
  - destruct (same_key k' k).
    + constructor; [|exact Hgs]. split; [exact Hk'|]. cbn. now destruct rs.
    + constructor; [now split|exact IH].
Qed.

Lemma group_rows_shape (P : list value -> Prop) (key : row -> list value)
    (rs : list row) :
  (forall r, P (key r)) ->
  Forall (fun g : list value * list row => P g.1 /\ g.2 <> []) (group_rows key rs).
Proof.
  intros HP. unfold group_rows.
  assert (Hgen : forall acc,
             Forall (fun g : list value * list row => P g.1 /\ g.2 <> []) acc ->
             Forall (fun g : list value * list row => P g.1 /\ g.2 <> [])
               (foldl (fun groups r => add_to_groups (key r) r groups) acc rs)).
  { induction rs as [|r rs IH]; intros acc Hacc; [exact Hacc|].
    cbn [foldl]. apply IH. now apply add_to_groups_shape. }
  apply Hgen. constructor.
Qed.

Lemma insert_by_sum (f : row -> Z) (le : row -> row -> bool) (x : row) (l : list row) :
  foldr Z.add 0 (map f (insert_by le x l)) = f x + foldr Z.add 0 (map f l).
Proof.
  induction l as [|y l IH]; [reflexivity|].
  cbn [insert_by]. destruct (le x y); [reflexivity|].
  cbn [map foldr]. rewrite IH. lia.
Qed.

(** Sorting keeps the rows: any sum over them, and their number. *)
Lemma sort_by_sum (f : row -> Z) (le : row -> row -> bool) (l : list row) :
  foldr Z.add 0 (map f (sort_by le l)) = foldr Z.add 0 (map f l).
Proof.
  unfold sort_by. induction l as [|x l IH]; [reflexivity|].
  cbn [foldr map]. now rewrite insert_by_sum, IH.
Qed.

Lemma sort_by_forall (P : row -> Prop) (le : row -> row -> bool) (l : list row) :
  Forall P l -> Forall P (sort_by le l).
Proof.
  unfold sort_by. induction 1 as [|x l Hx _ IH]; [constructor|].
  cbn [foldr]. revert IH. generalize (foldr (insert_by le) [] l). intros s Hs.
  induction Hs as [|y s Hy Hs IHs]; cbn [insert_by].
  - now repeat constructor.
  - destruct (le x y); repeat constructor; assumption.
Qed.

Lemma sort_by_length (le : row -> row -> bool) (l : list row) :
  length (sort_by le l) = length l.
Proof.
  pose proof (sort_by_sum (fun _ => 1) le l) as H.
  fold (weight (fun _ => 1) (sort_by le l)) (weight (fun _ => 1) l) in H.
  rewrite !weight_one in H. lia.
Qed.

Lemma sum_list_of_nat (f : row -> nat) (l : list row) :
  Z.of_nat (sum_list (map f l)) = foldr Z.add 0 (map (fun r => Z.of_nat (f r)) l).
Proof.
  induction l as [|x l IH]; [reflexivity|].
  cbn [map foldr]. rewrite <- IH.
  rewrite (fun a k => eq_refl : sum_list (a :: k) = (a + sum_list k)%nat). lia.
Qed.

Lemma cell_after_key (k : list value) (a b : value) :
  cell (length k) (k ++ [a; b])%list = a /\ cell (S (length k)) (k ++ [a; b])%list = b.
Proof.
  unfold cell. split.
  - rewrite app_nth2 by lia. now rewrite Nat.sub_diag.
  - rewrite app_nth2 by lia. now replace (S (length k) - length k)%nat with 1%nat by lia.
Qed.

Lemma integer_total_weight (j : nat) (rs : list row) :
  integer_total (map (cell j) rs)
  = weight (fun r => default 0 (integer_of (cell j r))) rs.
Proof.
  unfold integer_total, weight. induction rs as [|r rs IH]; [reflexivity|].
  cbn [map omap list_omap foldr]. destruct (integer_of (cell j r)); cbn; rewrite <- IH;
    reflexivity.
Qed.

Lemma sum_cells_integer_total (vs : list value) :
  match sum_cells HUGEINT vs with VInt z => z | _ => 0 end = integer_total vs.
Proof.
  unfold sum_cells, integer_total. now destruct (omap integer_of vs).
Qed.

(** What the grouped statement gives when it binds. *)
Lemma select_grouped_inv (t sum_col order_by : string) (group_cols : list string)
    (c : connection) (agg : table) :
  select_grouped t group_cols sum_col order_by c = Ok agg ->
  exists tb bound j ty sty ord,
    catalog c !! t = Some tb
    /\ Forall2 (fun col b => resolve col (columns tb) = Ok b) group_cols bound
    /\ resolve sum_col (columns tb) = Ok (j, ty)
    /\ sum_type ty = Ok sty
    /\ agg = mkTable
               (zip group_cols (map snd bound)
                ++ [("record_count", BIGINT); ("total_amount", sty)])%list
               (sort_by (comes_before ord (length group_cols))
                  (map (fun g : list value * list row =>
                          (g.1 ++ [VInt (Z.of_nat (length g.2));
                                   sum_cells sty (map (cell j) g.2)])%list)
                     (group_rows
                        (fun r : row => map (fun b : nat * sqltype => cell b.1 r) bound)
                        (rows tb)))).
Proof.
  unfold select_grouped, lookup_table.
  destruct (catalog c !! t) as [tb|] eqn:Htb; [|discriminate]. cbn.
  destruct group_cols as [|g gs]; [discriminate|].
  destruct (mapM (fun col => resolve col (columns tb)) (g :: gs)) as [bound|] eqn:Hm;
    [|discriminate]. cbn.
  destruct (resolve sum_col (columns tb)) as [[j ty]|] eqn:Hs; [|discriminate]. cbn.
  destruct (sum_type ty) as [sty|] eqn:Hty; [|discriminate]. cbn.
  destruct (parse_order_by order_by (g :: gs)) as [ord|]; [|discriminate]. cbn.
  destruct (decide _); [|discriminate].
  intros [= <-]. exists tb, bound, j, ty, sty, ord.
  split; [reflexivity|]. split; [|now repeat split].
  clear -Hm. revert bound Hm. generalize (g :: gs). intros cols.
  induction cols as [|c0 cols IH]; intros bound Hm.
  - cbn in Hm. injection Hm as <-. constructor.
  - cbn in Hm. destruct (resolve c0 (columns tb)) as [b|] eqn:Hb; [|discriminate Hm].
    cbn in Hm. destruct (mapM _ cols) as [bs|]; [|discriminate Hm].
    cbn in Hm. injection Hm as <-. constructor; [exact Hb|]. now apply IH.
Qed.

(** A run of [aggregate_data] that returns, with the output written
    under another name than the source. *)
Lemma aggregate_data_inv (t out sum_col order_by : string) (group_cols : list string)
    (e e' : ReconEngine) (res : AggregateResult) (tb : table) :
  aggregate_data t group_cols sum_col out order_by e = (e', Ok res) ->
  table_of e t = Some tb ->
  out <> t ->
  exists agg j ty sty,
    select_grouped t group_cols sum_col order_by (conn e) = Ok agg
    /\ e' = with_table e out agg
    /\ resolve sum_col (columns tb) = Ok (j, ty)
    /\ sum_type ty = Ok sty
    /\ res = mkAggregateResult (length (rows agg))
               (sum_cells sty (map (cell j) (rows tb))) (length (rows tb)).
Proof.
  intros Hrun Htb Hne. unfold aggregate_data in Hrun.
  step_ok Hrun e1 u Hexec.
  step_ok Hrun e2 fetched Hfetch.
  step_ok Hrun e3 rc Hcount.
  injection Hrun as <- <-.
  apply fetch_engine in Hfetch as [-> Hfetch].
  apply get_row_count_inv in Hcount as [-> Hcount].
  unfold execute in Hexec.
  destruct (select_grouped t group_cols sum_col order_by (conn e)) as [agg|] eqn:Hsel;
    [|discriminate Hexec].
  cbn in Hexec. injection Hexec as <-.
  change (mkEngine (create_or_replace out agg (conn e)) (_source_a_loaded e)
            (_source_b_loaded e)) with (with_table e out agg) in *.
  assert (Htb' : catalog (conn (with_table e out agg)) !! t = Some tb).
  { pose proof (table_of_with_table e out t agg) as Hlook. unfold table_of in Hlook.
    rewrite Hlook. destruct (decide (out = t)); [contradiction|exact Htb]. }
  unfold select_count_sum, lookup_table in Hfetch. rewrite Htb' in Hfetch. cbn in Hfetch.
  destruct (resolve sum_col (columns tb)) as [[j ty]|] eqn:Hs; [|discriminate Hfetch].
  cbn in Hfetch. destruct (sum_type ty) as [sty|] eqn:Hty; [|discriminate Hfetch].
  cbn in Hfetch. injection Hfetch as ->.
  rewrite row_count_with_table in Hcount. injection Hcount as <-.
  exists agg, j, ty, sty. repeat split; assumption || reflexivity.
Qed.



(** X24: on a column of an integer type the totals are conserved:
    [grand_total] is the sum of the integer cells of the source column
    (NULL when there is none), and the totals of the groups, a NULL
    total counting as nothing, add up to the same sum. *)
Theorem aggregate_data_conserves_integer_sum (t out sum_col order_by : string)
    (group_cols : list string) (e e' : ReconEngine) (res : AggregateResult) (tb : table)
    (j : nat) (ty : sqltype) :
  aggregate_data t group_cols sum_col out order_by e = (e', Ok res) ->
  table_of e t = Some tb ->
  out <> t ->
  resolve sum_col (columns tb) = Ok (j, ty) ->
  ty = BIGINT \/ ty = INTEGER \/ ty = HUGEINT ->
  exists agg,
    table_of e' out = Some agg
    /\ grand_total res = sum_cells HUGEINT (map (cell j) (rows tb))
    /\ match grand_total res with VInt z => z | _ => 0 end
       = integer_total (map (cell j) (rows tb))
    /\ foldr Z.add 0 (map (total_amount_of (length group_cols)) (rows agg))
       = integer_total (map (cell j) (rows tb)).
Proof.
  intros Hrun Htb Hne Hs Hint.
  destruct (aggregate_data_inv _ _ _ _ _ _ _ _ _ Hrun Htb Hne)
    as (agg & j' & ty' & sty & Hsel & -> & Hs' & Hty & ->).
  rewrite Hs in Hs'. injection Hs' as <- <-.
  assert (Hsty : sty = HUGEINT).
  { destruct Hint as [-> | [-> | ->]]; cbn in Hty; now injection Hty as <-. }
  subst sty.
  destruct (select_grouped_inv _ _ _ _ _ _ Hsel)
    as (tb0 & bound & j0 & ty0 & sty0 & ord & Htb0 & Hbound & Hs0 & Hty0 & Hagg).
  unfold table_of in Htb. rewrite Htb in Htb0. injection Htb0 as <-.
  rewrite Hs in Hs0. injection Hs0 as <- <-.
  rewrite Hty in Hty0. injection Hty0 as <-.
  set (key := fun r : row => map (fun b : nat * sqltype => cell b.1 r) bound) in *.
  set (width := length group_cols) in *.
  set (groups := group_rows key (rows tb)) in *.
  assert (Hwidth : length bound = width) by (symmetry; exact (Forall2_length _ _ _ Hbound)).
  assert (Hshape : Forall (fun g : list value * list row =>
                             length g.1 = width /\ g.2 <> []) groups).
  { apply (group_rows_shape (fun k => length k = width)).
    intros r. unfold key. now rewrite length_map. }
  exists agg. cbn [grand_total].
  split; [rewrite table_of_with_table; now destruct (decide (out = out))|].
  split; [reflexivity|]. split; [apply sum_cells_integer_total|].
  rewrite Hagg. cbn [rows]. rewrite sort_by_sum, map_map.
  rewrite integer_total_weight. fold key groups.
  rewrite <- (group_rows_weight _ key (rows tb)). fold groups.
  unfold groups_weight. f_equal. apply Forall_fmap_ext_1.
  eapply Forall_impl; [exact Hshape|]. intros g [Hg _]. cbn beta.
  unfold total_amount_of. rewrite <- Hg.
  rewrite (proj2 (cell_after_key g.1 _ _)).
  rewrite sum_cells_integer_total. apply integer_total_weight.
Qed.

Lemma aggregate_data_conserves_integer_sum_witness :
  let e := engine_with "sales" sales_table in
  let run := aggregate_data "sales" ["region"] "amount" "aggregated" "record_count DESC" e in
  run.2 = Ok (mkAggregateResult 3 (VInt 18) 6)
  /\ exists agg,
       table_of run.1 "aggregated" = Some agg
       /\ foldr Z.add 0 (map (total_amount_of 1) (rows agg)) = 18.
Proof.
  intros e run. split; [reflexivity|].
  destruct (aggregate_data_conserves_integer_sum "sales" "aggregated" "amount"
              "record_count DESC" ["region"] e run.1 (mkAggregateResult 3 (VInt 18) 6)
              sales_table 1 BIGINT eq_refl eq_refl)
    as (agg & Hagg & _ & _ & Hsum).
  - discriminate.
  - reflexivity.
  - now left.
  - exists agg. split; [exact Hagg|exact Hsum].
Defined.

End Aggregation.

(** ** Running again, and the operators of a filter *)

Section Repeat.

Local Open Scope nat_scope.

Lemma with_table_same (e : ReconEngine) (name : string) (tb : table) :
  table_of e name = Some tb -> with_table e name tb = e.
Proof.
  destruct e as [[cat render] fa fb]. unfold table_of, with_table, store_table.
  cbn [conn catalog double_to_varchar _source_a_loaded _source_b_loaded].
  intros H. now rewrite (insert_id cat name tb H).
Qed.

(** X25: [reconcile] can be repeated: a second run with the same
    configuration, on the engine the first run left, returns the same
    result and leaves the engine as it is. *)
Theorem reconcile_is_repeatable (e e1 : ReconEngine) (cfg : ReconConfig)
    (r : ReconResult) :
  reconcile cfg e = (e1, Ok r) -> reconcile cfg e1 = (e1, Ok r).
Proof.
  intros Hrun.
  assert (Hflags : _source_a_loaded e = true /\ _source_b_loaded e = true).
  { unfold reconcile in Hrun. rewrite (bind_ok self _ e e e eq_refl) in Hrun.
    destruct (_source_a_loaded e), (_source_b_loaded e);
      try discriminate Hrun. now split. }
  destruct Hflags as [Fa Fb].
  assert (Hsrc : exists A B t1,
             table_of e "source_a" = Some A /\ table_of e "source_b" = Some B
             /\ select_exact_matches cfg A B = Ok t1).
  { pose proof Hrun as H. unfold reconcile in H.
    rewrite (bind_ok self _ e e e eq_refl), Fa, Fb in H. cbn [negb orb] in H.
    step_ok H e0 u H1.
    destruct (create_table_from_sources_inv _ _ _ _ _ H1) as (A & B & t1 & HA & HB & S1 & _).
    now exists A, B, t1. }
  destruct Hsrc as (A & B & t1' & HA & HB & S1').
  destruct (select_exact_matches_binds cfg A B t1' S1') as [bc Hbind].
  destruct (reconcile_run e cfg A B bc Fa Fb HA HB Hbind)
    as (t1 & t2 & t3 & t4 & t5 & S1 & S2 & S3 & S4 & S5 & Hfirst).
  rewrite Hrun in Hfirst. injection Hfirst as -> ->.
  set (e1 := with_table (with_table (with_table (with_table
               (with_table e "exact_matches" t1) "matches_with_date_note" t2)
               "amount_variances" t3) "missing_in_b" t4) "missing_in_a" t5) in *.
  assert (HA1 : table_of e1 "source_a" = Some A)
    by (unfold e1; rewrite !table_of_with_table; exact HA).
  assert (HB1 : table_of e1 "source_b" = Some B)
    by (unfold e1; rewrite !table_of_with_table; exact HB).
  destruct (reconcile_run e1 cfg A B bc Fa Fb HA1 HB1 Hbind)
    as (u1 & u2 & u3 & u4 & u5 & U1 & U2 & U3 & U4 & U5 & Hsecond).
  rewrite S1 in U1. rewrite S2 in U2. rewrite S3 in U3. rewrite S4 in U4. rewrite S5 in U5.
  injection U1 as <-. injection U2 as <-. injection U3 as <-.
  injection U4 as <-. injection U5 as <-.
  rewrite Hsecond. f_equal.
  assert (T1 : table_of e1 "exact_matches" = Some t1)
    by (unfold e1; now rewrite !table_of_with_table).
  assert (T2 : table_of e1 "matches_with_date_note" = Some t2)
    by (unfold e1; now rewrite !table_of_with_table).
  assert (T3 : table_of e1 "amount_variances" = Some t3)
    by (unfold e1; now rewrite !table_of_with_table).
  assert (T4 : table_of e1 "missing_in_b" = Some t4)
    by (unfold e1; now rewrite !table_of_with_table).
  assert (T5 : table_of e1 "missing_in_a" = Some t5)
    by (unfold e1; now rewrite !table_of_with_table).
  rewrite (with_table_same e1 _ _ T1), (with_table_same e1 _ _ T2),
    (with_table_same e1 _ _ T3), (with_table_same e1 _ _ T4).
  exact (with_table_same e1 _ _ T5).
Qed.

Lemma reconcile_is_repeatable_witness :
  let e := both_loaded ledger_a ledger_b in
  let e1 := (reconcile ledger_config e).1 in
  reconcile ledger_config e1
  = (e1, Ok (mkReconResult ledger_config (mkReconSummary 0 1 0 1 0))).
Proof.
  intros e e1.
  exact (reconcile_is_repeatable e e1 ledger_config
           (mkReconResult ledger_config (mkReconSummary 0 1 0 1 0)) eq_refl).
Defined.

Lemma filter_data_compare (t out mode col op : string) (cmp : comparator) (v : Z)
    (i : nat) (ty : sqltype) (e : ReconEngine) (tb : table) :
  table_of e t = Some tb ->
  resolve col (columns tb) = Ok (i, ty) ->
  is_numeric ty = true ->
  build_where [compare_condition op col v] = Ok ([WCompare cmp col], [PValue (VInt v)]) ->
  let kept := filter (fun r => fires (compare_with cmp (cell i r) (VInt v)) = true) (rows tb) in
  filter_data t [compare_condition op col v] out mode e
  = (with_table e out (mkTable (columns tb) kept), Ok (length kept)).
Proof.
  intros Ht Hres Hnum Hbuild kept.
  apply (filter_data_single t out mode _ (WCompare cmp col) [PValue (VInt v)]);
    [exact Ht|exact Hbuild|].
  cbn [bind_where]. rewrite Hres. cbn.
  unfold check_param. cbn [param_type].
  assert (Hc : comparable ty BIGINT = true) by now destruct ty.
  rewrite Hc. reflexivity.
Qed.

(** X26: on a numeric column and an integer operand, [gt] and [lte]
    split the rows that have a value: a row with an integer cell is kept
    by [gt] exactly when the cell is above the operand and by [lte]
    exactly when it is not, a row with a NULL cell is kept by neither,
    and no row is kept by both. *)
Theorem filter_gt_lte_complement (t out mode col : string) (v : Z) (i : nat)
    (ty : sqltype) (e : ReconEngine) (tb : table) :
  table_of e t = Some tb ->
  resolve col (columns tb) = Ok (i, ty) ->
  is_numeric ty = true ->
  exists above rest,
    filter_data t [compare_condition "gt" col v] out mode e
    = (with_table e out (mkTable (columns tb) above), Ok (length above))
    /\ filter_data t [compare_condition "lte" col v] out mode e
       = (with_table e out (mkTable (columns tb) rest), Ok (length rest))
    /\ (forall r z, r ∈ rows tb -> cell i r = VInt z ->
                    (r ∈ above <-> (v < z)%Z) /\ (r ∈ rest <-> (z <= v)%Z))
    /\ (forall r, cell i r = VNull -> (r ∉ above) /\ (r ∉ rest))
    /\ (forall r, ~ (r ∈ above /\ r ∈ rest)).
Proof.
  intros Ht Hres Hnum.
  exists (filter (fun r => fires (compare_with CmpGt (cell i r) (VInt v)) = true) (rows tb)),
         (filter (fun r => fires (compare_with CmpLe (cell i r) (VInt v)) = true) (rows tb)).
  split; [|split; [|split; [|split]]].
  - now apply (filter_data_compare t out mode col "gt" CmpGt v i ty e tb).
  - now apply (filter_data_compare t out mode col "lte" CmpLe v i ty e tb).
  - intros r z Hr Hz. rewrite !list_elem_of_filter. rewrite Hz.
    unfold compare_with, sql_le, sql_gt. rewrite !compare_int_cells.
    cbn [option_map not3].
    destruct (Z.compare_spec z v) as [E|E|E]; cbn;
      (split;
       (split;
        [intros [Hf _]; first [discriminate Hf|lia]
        |intros Hz'; first [lia|split; [reflexivity|exact Hr]]])).
  - intros r Hnull. rewrite !list_elem_of_filter, Hnull. cbn.
    split; intros [H _]; discriminate H.
  - intros r [Ha Hb]. apply list_elem_of_filter in Ha as [Ha _].
    apply list_elem_of_filter in Hb as [Hb _].
    unfold compare_with, sql_le, not3 in *.
    destruct (sql_gt (cell i r) (VInt v)) as [[|]|]; discriminate.
Qed.

Lemma filter_gt_lte_complement_witness :
  let e := engine_with "source_a" ledger_a in
  exists above rest : list row,
    filter_data "source_a" [compare_condition "gt" "id" 1] "filtered_data" "OR" e
    = (with_table e "filtered_data" (mkTable (columns ledger_a) above), Ok (length above))
    /\ ([VInt 2; VText "2024-01-05"; VReal 7] ∈ above <-> (1 < 2)%Z)
    /\ ([VInt 2; VText "2024-01-05"; VReal 7] ∈ rest <-> (2 <= 1)%Z).
Proof.
  intros e.
  destruct (filter_gt_lte_complement "source_a" "filtered_data" "OR" "id" 1 0 BIGINT
              e ledger_a eq_refl eq_refl eq_refl) as (above & rest & Hgt & _ & Hin & _).
  exists above, rest. split; [exact Hgt|].
  apply (Hin [VInt 2; VText "2024-01-05"; VReal 7] 2%Z); [|reflexivity].
  right. left.
Defined.

Lemma build_where_unknown (c : FilterCondition) (cs : list FilterCondition) (op : string) :
  cond_operator c = Some op ->
  op ∉ known_operators ->
  build_where (c :: cs) = build_where cs.
Proof.
  intros Hop Hout. cbn [build_where]. rewrite Hop. cbn [default from_option].
  assert (Hne : forall k, k ∈ known_operators -> String.eqb op k = false).
  { intros k Hk. destruct (String.eqb_spec op k) as [->|_]; [contradiction|reflexivity]. }
  rewrite !Hne by (apply (bool_decide_unpack _); reflexivity).
  cbn. now destruct (build_where cs) as [[parts params]|err].
Qed.

(** X27: the operator of a condition: without the key [operator] a
    condition means [equals]; a condition whose operator is none of the
    seven known ones is skipped when other conditions follow it; alone,
    it leaves an empty WHERE clause, so the call raises and the engine is
    unchanged, although an empty list of conditions copies the table. *)
Theorem filter_unknown_operator (t out mode col : string) (x : operand)
    (e : ReconEngine) :
  filter_data t [mkCond col None x] out mode e
  = filter_data t [mkCond col (Some "equals") x] out mode e
  /\ (forall op cs,
        op ∉ known_operators ->
        cs <> [] ->
        filter_data t (mkCond col (Some op) x :: cs) out mode e
        = filter_data t cs out mode e)
  /\ (forall op,
        op ∉ known_operators ->
        filter_data t [mkCond col (Some op) x] out mode e = (e, Raise DuckDBError)).
Proof.
  split; [reflexivity|]. split.
  - intros op cs Hout Hne. unfold filter_data.
    rewrite (build_where_unknown (mkCond col (Some op) x) cs op eq_refl Hout).
    destruct cs as [|c cs]; [congruence|reflexivity].
  - intros op Hout. unfold filter_data.
    rewrite (build_where_unknown (mkCond col (Some op) x) [] op eq_refl Hout).
    cbn [build_where]. apply bind_raise. unfold execute, select_where, lookup_table.
    destruct (catalog (conn e) !! t) as [tb|]; reflexivity.
Qed.

Lemma filter_unknown_operator_witness :
  let e := engine_with "source_a" ledger_a in
  filter_data "source_a" [mkCond "id" (Some "like") (Scalar (VInt 1))] "filtered_data" "OR" e
  = (e, Raise DuckDBError)
  /\ filter_data "source_a"
       [mkCond "id" (Some "like") (Scalar (VInt 1)); compare_condition "gt" "id" 1]
       "filtered_data" "OR" e
     = filter_data "source_a" [compare_condition "gt" "id" 1] "filtered_data" "OR" e.
Proof.
  intros e.
  destruct (filter_unknown_operator "source_a" "filtered_data" "OR" "id" (Scalar (VInt 1)) e)
    as (_ & Hskip & Halone).
  assert (Hout : "like" ∉ known_operators) by (apply (bool_decide_unpack _); reflexivity).
  split.
  - exact (Halone "like" Hout).
  - apply (Hskip "like" _ Hout). discriminate.
Defined.

End Repeat.
